(** * SecureVault: cryptographic and authentication core

    A shallow embedding of the utility modules of the SecureVault
    application ([CryptoUtils], [TOTPManager], [AuthenticationManager],
    [SecurityManager.emergencyWipe]) together with the properties that the
    specification states about them.

    Conventions.
    - A JavaScript string is the list of its UTF-16 code units ([jsstring]);
      a [Uint8Array] is a list of integers in [0, 256).
    - The external collaborators (the expo-crypto digest, the random source,
      the biometric prompt, the failures of the secure store) are the fields
      of the class [Platform]; the mutable surroundings (store contents,
      clock, consumed randomness) are the record [World].
    - Asynchronous, throwing code is written in the monad [M], a state
      monad over [World] with exceptions.
    - Numbers are integers: the rounding of floating-point arithmetic and
      the limits of the engine (stack depth, argument counts, memory) are
      not part of the model. *)

From Stdlib Require Import ZArith List Bool String Ascii Lia.
From stdpp Require Import base option list gmap strings.

Local Open Scope Z_scope.

(** [lia] on goals with division and remainder by constants. *)
Ltac Zify.zify_post_hook ::= Z.div_mod_to_equations.

(** Settles the comparisons of integers in the goal, by [lia] where the
    context decides them and by cases otherwise. *)
Ltac decide_test :=
  match goal with
  | |- context [Z.leb ?a ?b] =>
      first [ rewrite (proj2 (Z.leb_le a b)) by lia
            | rewrite (proj2 (Z.leb_gt a b)) by lia
            | destruct (Z.leb_spec a b) ]
  | |- context [Z.ltb ?a ?b] =>
      first [ rewrite (proj2 (Z.ltb_lt a b)) by lia
            | rewrite (proj2 (Z.ltb_ge a b)) by lia
            | destruct (Z.ltb_spec a b) ]
  | |- context [Z.eqb ?a ?b] =>
      first [ rewrite (proj2 (Z.eqb_eq a b)) by lia
            | rewrite (proj2 (Z.eqb_neq a b)) by lia
            | destruct (Z.eqb_spec a b) ]
  end.

Ltac decide_tests := repeat (decide_test; cbn [andb orb negb]).

(** ** JavaScript strings and the platform's text codecs *)

Module JS.

(** A string, as the sequence of its UTF-16 code units. *)
Definition jsstring := list Z.

(** A string literal of the source (ASCII text). *)
Definition lit (s : string) : jsstring :=
  map (fun a => Z.of_nat (nat_of_ascii a)) (list_ascii_of_string s).

Definition is_high (u : Z) : bool := (0xD800 <=? u) && (u <=? 0xDBFF).
Definition is_low (u : Z) : bool := (0xDC00 <=? u) && (u <=? 0xDFFF).

(** [String.prototype.isWellFormed]: every code unit is a 16-bit value and
    every surrogate is half of a pair. *)
Fixpoint isWellFormed (s : jsstring) : bool :=
  match s with
  | [] => true
  | u :: rest =>
      if is_high u then
        match rest with
        | v :: rest' => is_low v && isWellFormed rest'
        | [] => false
        end
      else negb (is_low u) && (0 <=? u) && (u <? 0x10000) && isWellFormed rest
  end.

(** Conversion of a string to scalar values, as performed on the argument
    of [TextEncoder.encode] (a USVString): a surrogate pair is one code
    point, an unpaired surrogate becomes U+FFFD. *)
Fixpoint code_points (s : jsstring) : list Z :=
  match s with
  | [] => []
  | u :: rest =>
      if is_high u then
        match rest with
        | v :: rest' =>
            if is_low v
            then (0x10000 + (u - 0xD800) * 0x400 + (v - 0xDC00)) :: code_points rest'
            else 0xFFFD :: code_points rest
        | [] => [0xFFFD]
        end
      else if is_low u then 0xFFFD :: code_points rest
      else u :: code_points rest
  end.

(** The UTF-8 encoder, one scalar value at a time. *)
Definition utf8_encode_cp (c : Z) : list Z :=
  if c <? 0x80 then [c]
  else if c <? 0x800 then [0xC0 + c / 64; 0x80 + c mod 64]
  else if c <? 0x10000 then
    [0xE0 + c / 4096; 0x80 + (c / 64) mod 64; 0x80 + c mod 64]
  else
    [0xF0 + c / 262144; 0x80 + (c / 4096) mod 64;
     0x80 + (c / 64) mod 64; 0x80 + c mod 64].

(** [new TextEncoder().encode(s)] *)
Definition TextEncoder_encode (s : jsstring) : list Z :=
  flat_map utf8_encode_cp (code_points s).

(** The state of the UTF-8 decoder of the Encoding standard. *)
Record utf8_state := Utf8State {
  code_point : Z;
  bytes_seen : Z;
  bytes_needed : Z;
  lower_boundary : Z;
  upper_boundary : Z
}.

Definition utf8_init : utf8_state := Utf8State 0 0 0 0x80 0xBF.

(** The decoder's handler for a byte read while no sequence is open:
    the code points emitted and the next state. *)
Definition utf8_lead (b : Z) : list Z * utf8_state :=
  if (0 <=? b) && (b <=? 0x7F) then ([b], utf8_init)
  else if (0xC2 <=? b) && (b <=? 0xDF) then
    ([], Utf8State (b mod 32) 0 1 0x80 0xBF)
  else if (0xE0 <=? b) && (b <=? 0xEF) then
    ([], Utf8State (b mod 16) 0 2
           (if b =? 0xE0 then 0xA0 else 0x80)
           (if b =? 0xED then 0x9F else 0xBF))
  else if (0xF0 <=? b) && (b <=? 0xF4) then
    ([], Utf8State (b mod 8) 0 3
           (if b =? 0xF0 then 0x90 else 0x80)
           (if b =? 0xF4 then 0x8F else 0xBF))
  else ([0xFFFD], utf8_init).

(** The decoder's handler for one byte.  A byte outside the expected
    continuation range closes the open sequence with U+FFFD and is then
    read again as a lead byte. *)
Definition utf8_step (st : utf8_state) (b : Z) : list Z * utf8_state :=
  if bytes_needed st =? 0 then utf8_lead b
  else if negb ((lower_boundary st <=? b) && (b <=? upper_boundary st)) then
    let '(out, st') := utf8_lead b in (0xFFFD :: out, st')
  else
    let cp := code_point st * 64 + b mod 64 in
    if bytes_seen st + 1 =? bytes_needed st then ([cp], utf8_init)
    else ([], Utf8State cp (bytes_seen st + 1) (bytes_needed st) 0x80 0xBF).

Fixpoint utf8_decode (st : utf8_state) (bytes : list Z) : list Z :=
  match bytes with
  | [] => if bytes_needed st =? 0 then [] else [0xFFFD]
  | b :: rest =>
      let '(out, st') := utf8_step st b in out ++ utf8_decode st' rest
  end.

(** The UTF-16 code units of a code point. *)
Definition utf16_encode_cp (c : Z) : list Z :=
  if c <? 0x10000 then [c]
  else [0xD800 + (c - 0x10000) / 1024; 0xDC00 + (c - 0x10000) mod 1024].

(** [new TextDecoder().decode(bytes)]: UTF-8, replacement on error, and
    (the default, [ignoreBOM = false]) a leading byte order mark is
    removed from the output. *)
Definition TextDecoder_decode (bytes : list Z) : jsstring :=
  let cps := utf8_decode utf8_init bytes in
  flat_map utf16_encode_cp
    match cps with
    | c :: rest => if c =? 0xFEFF then rest else cps
    | [] => []
    end.

(** A Unicode scalar value. *)
Definition scalar (c : Z) : Prop :=
  0 <= c < 0xD800 \/ 0xE000 <= c < 0x110000.

(** A string all of whose code units are 16-bit values. *)
Definition codeUnits (s : jsstring) : Prop := Forall (fun u => 0 <= u < 0x10000) s.

(** An element of a [Uint8Array]. *)
Definition byte (b : Z) : Prop := 0 <= b < 256.

End JS.

(** ** Results, the world and the platform *)

(** The outcome of code that may throw: a value, or the message of the
    [Error] thrown. *)
Inductive result (A : Type) : Type :=
  | Ok (a : A)
  | Throw (message : string).
Arguments Ok {A} a.
Arguments Throw {A} message.

Definition rbind {A B : Type} (r : result A) (k : A -> result B) : result B :=
  match r with
  | Ok a => k a
  | Throw e => Throw e
  end.

Notation "'let?' x ':=' e 'in' k" := (rbind e (fun x => k))
  (at level 10, x pattern, e at level 100, k at level 200, only parsing).

Inductive CryptoDigestAlgorithm := SHA1 | SHA256 | SHA512.

(** The value of [CryptoUtils.encrypt]: the JSON text of an
    [EncryptionResult].  [JSON.stringify]/[JSON.parse] and [btoa]/[atob] are
    inverse to each other on these values, so the text is kept in parsed
    form: [Envelope bytes salt] stands for
    [{encrypted: btoa(bytes), salt: salt}], and [Unparseable] for any
    text that [JSON.parse] or [atob] rejects. *)
Inductive EncryptedData :=
  | Envelope (encrypted : list Z) (salt : JS.jsstring)
  | Unparseable.

Record TwoFAConfig := {
  enabled : bool;
  encryptedSecret : EncryptedData;
  encryptedRecoveryCodes : list EncryptedData;
  algorithm : string;
  digits : nat;
  period : Z;
  setupDate : JS.jsstring;
  deviceId : JS.jsstring
}.

(** An entry of the secure store.  The store holds strings; the entry
    written under ['twoFactorConfig'] is the JSON text of a [TwoFAConfig]
    and is kept in parsed form. *)
Inductive stored :=
  | Plain (s : JS.jsstring)
  | ConfigJSON (c : TwoFAConfig).

(** What the code reads and writes around it: the entries of the secure
    store, the clock ([Date.now()], in milliseconds) and the number of
    calls made so far to the random source. *)
Record World := {
  items : gmap string stored;
  clock : Z;
  draws : nat
}.

(** The external collaborators. *)
Class Platform := {
  (** the digest computed by [Crypto.digestStringAsync], as bytes *)
  digest : CryptoDigestAlgorithm -> JS.jsstring -> result (list Z);
  (** [Crypto.getRandomValues]: byte [i] of the [k]-th call *)
  randomByte : nat -> nat -> Z;
  (** [LocalAuthentication.authenticateAsync(...)]: its [success] field *)
  authenticateAsync : result bool;
  (** the keys on which [SecureStore] fails with a storage error *)
  getFails : string -> bool;
  setFails : string -> bool;
  deleteFails : string -> bool;
  (** [String.prototype.toUpperCase] *)
  toUpperCase : JS.jsstring -> JS.jsstring;
  (** [encodeURIComponent] *)
  encodeURIComponent : JS.jsstring -> JS.jsstring;
  (** [new Date(ms).toISOString()] *)
  toISOString : Z -> JS.jsstring;
  (** [JSON.stringify] of a configuration: the text between the braces,
      for the code that reads such an entry as plain text *)
  JSON_members : TwoFAConfig -> JS.jsstring
}.

(** The length in bytes of a digest. *)
Definition digestSize (algorithm : CryptoDigestAlgorithm) : nat :=
  match algorithm with
  | SHA1 => 20
  | SHA256 => 32
  | SHA512 => 64
  end.

(** The digest primitive does not fail for [algorithm] and returns a digest
    of the algorithm's length. *)
Definition digestWorks `{Platform} (algorithm : CryptoDigestAlgorithm) : Prop :=
  forall data, exists bytes,
    digest algorithm data = Ok bytes /\ length bytes = digestSize algorithm.

(** Asynchronous code: a computation over the world that returns or
    throws.  What was written before a throw stays written. *)
Definition M (A : Type) : Type := World -> result A * World.

Definition ret {A : Type} (a : A) : M A := fun w => (Ok a, w).

Definition bind {A B : Type} (m : M A) (k : A -> M B) : M B :=
  fun w =>
    match m w with
    | (Ok a, w') => k a w'
    | (Throw e, w') => (Throw e, w')
    end.

Definition throw {A : Type} (message : string) : M A :=
  fun w => (Throw message, w).

Definition lift {A : Type} (r : result A) : M A := fun w => (r, w).

(** [try { m } catch (error) { handler(error.message) }] *)
Definition try_catch {A : Type} (m : M A) (handler : string -> M A) : M A :=
  fun w =>
    match m w with
    | (Ok a, w') => (Ok a, w')
    | (Throw e, w') => handler e w'
    end.

Notation "'let*' x ':=' e 'in' k" := (bind e (fun x => k))
  (at level 10, x pattern, e at level 100, k at level 200, only parsing).

(** Truthiness of an optional string: [undefined], [null] and the empty
    string are falsy. *)
Definition truthy (o : option JS.jsstring) : bool :=
  match o with
  | Some (_ :: _) => true
  | _ => false
  end.

(** A typed array takes its elements modulo 256. *)
Definition Uint8Array_from (l : list Z) : list Z := map (fun x => x mod 256) l.

(** ** Text helpers of the source *)

Module Text.
Import JS.

(** The [n]-th character of [chars], as [chars[n]] for an index in range. *)
Definition charAt (chars : jsstring) (n : Z) : Z := nth (Z.to_nat n) chars 0.

Definition hexDigit (n : Z) : Z := if n <? 10 then 48 + n else 87 + n.

(** [b.toString(16).padStart(2, '0')] for a byte [b] *)
Definition toHex2 (b : Z) : jsstring := [hexDigit (b / 16); hexDigit (b mod 16)].

Definition hexValue (u : Z) : option Z :=
  if (48 <=? u) && (u <=? 57) then Some (u - 48)
  else if (97 <=? u) && (u <=? 102) then Some (u - 87)
  else if (65 <=? u) && (u <=? 70) then Some (u - 55)
  else None.

(** [parseInt(ab, 16)] for a two-character string, stored into a typed
    array ([NaN] is stored as 0).  The strings the code parses are the
    hexadecimal digests; a string that starts with a digit is read up to
    its first non-digit. *)
Definition parseInt16 (a b : Z) : Z :=
  match hexValue a, hexValue b with
  | Some x, Some y => 16 * x + y
  | Some x, None => x
  | None, _ => 0
  end.

Definition isLineTerminator (u : Z) : bool :=
  (u =? 10) || (u =? 13) || (u =? 0x2028) || (u =? 0x2029).

(** [s.match(/.{2}/g)]: the successive pairs of characters other than line
    terminators, scanning from the left. *)
Fixpoint matchPairs (s : jsstring) : list (Z * Z) :=
  match s with
  | a :: rest =>
      match rest with
      | b :: rest' =>
          if isLineTerminator a || isLineTerminator b then matchPairs rest
          else (a, b) :: matchPairs rest'
      | [] => []
      end
  | [] => []
  end.

(** The pairs [s.substr(i, 2)] for [i = 0, 2, 4, ...] that are two
    characters long. *)
Fixpoint alignedPairs (s : jsstring) : list (Z * Z) :=
  match s with
  | a :: b :: rest => (a, b) :: alignedPairs rest
  | _ => []
  end.

(** [s.padStart(n, '0')] *)
Definition padStart0 (n : nat) (s : jsstring) : jsstring :=
  repeat 48 (n - length s)%nat ++ s.

Fixpoint decimalDigits (fuel : nat) (n : Z) (acc : jsstring) : jsstring :=
  match fuel with
  | O => acc
  | S fuel' =>
      let acc' := (48 + n mod 10) :: acc in
      if n / 10 =? 0 then acc' else decimalDigits fuel' (n / 10) acc'
  end.

(** [n.toString()] for a non-negative integer [n] *)
Definition Number_toString (n : Z) : jsstring :=
  decimalDigits (S (Z.to_nat (Z.log2 n))) n [].

(** [digestStringAsync(algorithm, data, { encoding: HEX })]: the digest in
    lower-case hexadecimal. *)
Definition digestStringAsync `{Platform}
    (algorithm : CryptoDigestAlgorithm) (data : jsstring) : result jsstring :=
  let? bytes := digest algorithm data in
  Ok (flat_map toHex2 (Uint8Array_from bytes)).

(** [n.toString()] for a safe integer [n], one with [|n| < 2^53]: every
    such integer is a number of the language, and its text is the sign and
    the digits of its decimal expansion.  Above that range the language
    prints the shortest digits that read back as the same number, which are
    not those of the expansion; that is not modelled. *)
Definition Number_toString_signed (n : Z) : jsstring :=
  if n <? 0 then 45 :: Number_toString (- n) else Number_toString n.

(** The white space and line terminators that [parseInt] skips. *)
Definition isStrWhiteSpaceChar (u : Z) : bool :=
  (u =? 9) || (u =? 10) || (u =? 11) || (u =? 12) || (u =? 13) || (u =? 32)
  || (u =? 0xA0) || (u =? 0x1680) || ((0x2000 <=? u) && (u <=? 0x200A))
  || (u =? 0x2028) || (u =? 0x2029) || (u =? 0x202F) || (u =? 0x205F)
  || (u =? 0x3000) || (u =? 0xFEFF).

Fixpoint trimStart (s : jsstring) : jsstring :=
  match s with
  | u :: rest => if isStrWhiteSpaceChar u then trimStart rest else s
  | [] => []
  end.

(** The value of a digit in the given radix (10 or 16). *)
Definition digitOf (radix u : Z) : option Z :=
  match hexValue u with
  | Some d => if d <? radix then Some d else None
  | None => None
  end.

(** The value of the longest prefix of digits, [None] when there is no
    digit. *)
Fixpoint digitsValue (radix : Z) (s : jsstring) (acc : option Z) : option Z :=
  match s with
  | u :: rest =>
      match digitOf radix u with
      | Some d => digitsValue radix rest (Some (radix * default 0 acc + d))
      | None => acc
      end
  | [] => acc
  end.

(** [parseInt(s)], no radix given; [None] is [NaN]. *)
Definition parseInt (s : jsstring) : option Z :=
  let s1 := trimStart s in
  let '(sign, s2) :=
    match s1 with
    | 45 :: rest => (-1, rest)
    | 43 :: rest => (1, rest)
    | _ => (1, s1)
    end in
  let '(radix, s3) :=
    match s2 with
    | 48 :: x :: rest => if (x =? 120) || (x =? 88) then (16, rest) else (10, s2)
    | _ => (10, s2)
    end in
  match digitsValue radix s3 None with
  | Some v => Some (sign * v)
  | None => None
  end.

End Text.

(** ** CryptoUtils *)

Module CryptoUtils.
Import JS Text.

Record PasswordHashResult := {
  hash : jsstring;
  salt : jsstring
}.

Section WithPlatform.
Context `{Platform}.

(** [generateRandomBytes(length)] *)
Definition generateRandomBytes (length : nat) : M (list Z) :=
  fun w =>
    (Ok (Uint8Array_from (map (randomByte (draws w)) (seq 0 length))),
     {| items := items w; clock := clock w; draws := S (draws w) |}).

Definition alphanumeric : jsstring :=
  lit "ABCDEFGHIJKLMNOPQRSTUVWXYZabcdefghijklmnopqrstuvwxyz0123456789".

Definition base32Alphabet : jsstring := lit "ABCDEFGHIJKLMNOPQRSTUVWXYZ234567".

(** The loop [result += chars[randomBytes[i] % chars.length]]. *)
Definition pick (chars : jsstring) (randomBytes : list Z) : jsstring :=
  map (fun b => charAt chars (b mod Z.of_nat (length chars))) randomBytes.

(** [generateRandomString(length)] *)
Definition generateRandomString (length : nat) : M jsstring :=
  let* randomBytes := generateRandomBytes length in
  ret (pick alphanumeric randomBytes).

(** [generateSalt(length)] *)
Definition generateSalt (length : nat) : M jsstring :=
  generateRandomString length.

(** One turn of the loop of [deriveKey]: hash the buffer and read the
    hexadecimal digest back into bytes. *)
Definition rehash (derived : list Z) : result (list Z) :=
  let? hash := digestStringAsync SHA256 derived in
  match matchPairs hash with
  | [] => Throw "Cannot read properties of null (reading 'map')"
  | pairs => Ok (Uint8Array_from (map (fun p => parseInt16 (fst p) (snd p)) pairs))
  end.

Fixpoint deriveLoop (iterations : nat) (derived : list Z) : result (list Z) :=
  match iterations with
  | O => Ok derived
  | S n => let? derived' := rehash derived in deriveLoop n derived'
  end.

(** [array.slice(0, end)] *)
Definition slice0 (l : list Z) (end_ : Z) : list Z :=
  if end_ <? 0 then take (Z.to_nat (Z.of_nat (length l) + end_)) l
  else take (Z.to_nat end_) l.

(** [deriveKey(password, salt, iterations, keyLength)]; the defaults of the
    source are [iterations = 10000] and [keyLength = 32]. *)
Definition deriveKey (password salt : jsstring) (iterations keyLength : Z)
    : result jsstring :=
  let passwordData := TextEncoder_encode password in
  let saltData := TextEncoder_encode salt in
  let? derived := deriveLoop (Z.to_nat iterations) (passwordData ++ saltData) in
  Ok (flat_map toHex2 (slice0 derived keyLength)).

(** [bytes.map((byte, i) => byte ^ keyBytes[i % keyBytes.length])] on a
    typed array, which stores each result modulo 256; a missing key byte
    counts as 0. *)
Definition xorBytes (bytes keyBytes : list Z) : list Z :=
  imap (fun i byte =>
          Z.lxor byte (nth (i mod length keyBytes) keyBytes 0) mod 256)
       bytes.

(** [encrypt(text, password, salt?)] *)
Definition encrypt (text password : jsstring) (salt : option jsstring)
    : M EncryptedData :=
  let* salt := if truthy salt then ret (default [] salt) else generateSalt 32 in
  let* key := lift (deriveKey password salt 10000 32) in
  let textBytes := TextEncoder_encode text in
  let keyBytes := TextEncoder_encode key in
  let encrypted := xorBytes textBytes keyBytes in
  ret (Envelope encrypted salt).

(** [decrypt(encryptedData, password)] *)
Definition decrypt (encryptedData : EncryptedData) (password : jsstring)
    : result jsstring :=
  let attempt :=
    match encryptedData with
    | Unparseable => Throw "Unexpected token in JSON"
    | Envelope encrypted salt =>
        let? key := deriveKey password salt 10000 32 in
        let encryptedBytes := Uint8Array_from encrypted in
        let keyBytes := TextEncoder_encode key in
        let decrypted := xorBytes encryptedBytes keyBytes in
        Ok (TextDecoder_decode decrypted)
    end in
  match attempt with
  | Ok text => Ok text
  | Throw message => Throw ("Decryption failed: " +:+ message)
  end.

(** [hashPassword(password, salt?)] *)
Definition hashPassword (password : jsstring) (salt : option jsstring)
    : M PasswordHashResult :=
  let* salt := if truthy salt then ret (default [] salt) else generateSalt 32 in
  let* hash := lift (deriveKey password salt 10000 64) in
  ret {| hash := hash; salt := salt |}.

(** [verifyPassword(password, storedHash, salt)] *)
Definition verifyPassword (password storedHash salt : jsstring) : M bool :=
  let* r := hashPassword password (Some salt) in
  ret (bool_decide (hash r = storedHash)).

(** [generateRecoveryCodes(count)] *)
Fixpoint generateRecoveryCodes (count : nat) : M (list jsstring) :=
  match count with
  | O => ret []
  | S n =>
      let* code := generateRandomString 8 in
      let* codes := generateRecoveryCodes n in
      ret (toUpperCase code :: codes)
  end.

(** [generateTOTPSecret(length)] *)
Definition generateTOTPSecret (length : nat) : M jsstring :=
  let* randomBytes := generateRandomBytes length in
  ret (pick base32Alphabet randomBytes).

(** [generateSessionId()] *)
Definition generateSessionId : M jsstring := generateRandomString 64.

End WithPlatform.
End CryptoUtils.

(** ** TOTPManager *)

Module TOTPManager.
Import JS Text.

Record TOTPConfig := {
  secret : jsstring;
  digits : nat;
  period : Z;
  algorithm : string
}.

(** [Partial<TOTPConfig>], without the secret, which the callers pass
    separately. *)
Record PartialTOTPConfig := {
  digits_opt : option nat;
  period_opt : option Z;
  algorithm_opt : option string
}.

Record TOTPVerificationResult := {
  valid : bool;
  timeStep : option Z
}.

Definition DEFAULT_DIGITS : nat := 6.
Definition DEFAULT_PERIOD : Z := 30.
Definition DEFAULT_ALGORITHM : string := "SHA1".
Definition WINDOW_SIZE : Z := 1.

(** [config?.digits || DEFAULT_DIGITS] and its two siblings: a missing
    field, [0] and the empty string give the default. *)
Definition fullConfig (secret : jsstring) (config : option PartialTOTPConfig)
    : TOTPConfig :=
  {| secret := secret;
     digits :=
       match config ≫= digits_opt with
       | Some (S n) => S n
       | _ => DEFAULT_DIGITS
       end;
     period :=
       match config ≫= period_opt with
       | Some p => if p =? 0 then DEFAULT_PERIOD else p
       | None => DEFAULT_PERIOD
       end;
     algorithm :=
       match config ≫= algorithm_opt with
       | Some a => if String.eqb a "" then DEFAULT_ALGORITHM else a
       | None => DEFAULT_ALGORITHM
       end |}.

(** [Math.floor(Date.now() / 1000 / period)], the quotient being taken
    exactly *)
Definition currentTimeStep (now period : Z) : Z := now / (1000 * period).

(** [a[i]] read in a bitwise expression: a missing element counts as 0. *)
Definition elem (a : list Z) (i : Z) : Z :=
  if i <? 0 then 0 else nth (Z.to_nat i) a 0.

(** [constantTimeCompare(a, b)] *)
Definition constantTimeCompare (a b : jsstring) : bool :=
  if negb (length a =? length b)%nat then false
  else
    let result :=
      fold_left (fun result p => Z.lor result (Z.lxor (fst p) (snd p)))
                (combine a b) 0 in
    result =? 0.

Definition isBase32Char (u : Z) : bool :=
  ((65 <=? u) && (u <=? 90)) || ((50 <=? u) && (u <=? 55)).

(** [alphabet.indexOf(char)] on a character of the alphabet *)
Definition base32Index (u : Z) : Z :=
  if (65 <=? u) && (u <=? 90) then u - 65 else u - 50 + 26.

(** [index.toString(2).padStart(5, '0')], as bits *)
Definition bits5 (n : Z) : list Z :=
  [n / 16 mod 2; n / 8 mod 2; n / 4 mod 2; n / 2 mod 2; n mod 2].

(** [parseInt(bits.substr(i * 8, 8), 2)] for each whole group of 8 bits *)
Fixpoint bytesOfBits (bits : list Z) : list Z :=
  match bits with
  | b7 :: b6 :: b5 :: b4 :: b3 :: b2 :: b1 :: b0 :: rest =>
      (128 * b7 + 64 * b6 + 32 * b5 + 16 * b4 + 8 * b3 + 4 * b2 + 2 * b1 + b0)
        :: bytesOfBits rest
  | _ => []
  end.

Section WithPlatform.
Context `{Platform}.

(** [generateSecret(length)] *)
Definition generateSecret (length : nat) : M jsstring :=
  fun w =>
    let randomBytes := Uint8Array_from (map (randomByte (draws w)) (seq 0 length)) in
    (Ok (CryptoUtils.pick CryptoUtils.base32Alphabet randomBytes),
     {| items := items w; clock := clock w; draws := S (draws w) |}).

(** [base32Decode(encoded)] *)
Definition base32Decode (encoded : jsstring) : list Z :=
  let cleanInput := filter (fun u => isBase32Char u = true) (toUpperCase encoded) in
  let bits := flat_map (fun u => bits5 (base32Index u)) cleanInput in
  bytesOfBits bits.

(** [hash(data, algorithm)] *)
Definition hash (data : list Z) (algorithm : string) : result (list Z) :=
  let? cryptoAlgorithm :=
    if String.eqb algorithm "SHA1" then Ok SHA1
    else if String.eqb algorithm "SHA256" then Ok SHA256
    else if String.eqb algorithm "SHA512" then Ok SHA512
    else Throw ("Unsupported algorithm: " +:+ algorithm) in
  let? hashHex := digestStringAsync cryptoAlgorithm data in
  Ok (Uint8Array_from
        (map (fun p => parseInt16 (fst p) (snd p)) (alignedPairs hashHex))).

(** [hmac(key, data, algorithm)] *)
Definition hmac (key data : list Z) (algorithm : string) : result (list Z) :=
  let blockSize := 64%nat in
  let? keyBytes :=
    if (blockSize <? length key)%nat then hash key algorithm else Ok key in
  let? paddedKey :=
    if (blockSize <? length keyBytes)%nat then Throw "offset is out of bounds"
    else Ok (keyBytes ++ repeat 0 (blockSize - length keyBytes)) in
  let innerPad := Uint8Array_from (map (fun k => Z.lxor k 0x36) paddedKey) in
  let outerPad := Uint8Array_from (map (fun k => Z.lxor k 0x5c) paddedKey) in
  let? innerHash := hash (innerPad ++ data) algorithm in
  hash (outerPad ++ innerHash) algorithm.

(** The 8-byte buffer written by [timeView.setUint32(4, timeStep, false)]. *)
Definition timeBuffer (timeStep : Z) : list Z :=
  let u := timeStep mod 2 ^ 32 in
  [0; 0; 0; 0; u / 2 ^ 24; u / 2 ^ 16 mod 256; u / 2 ^ 8 mod 256; u mod 256].

(** [generateTOTPForTimeStep(config, timeStep)] *)
Definition generateTOTPForTimeStep (config : TOTPConfig) (timeStep : Z)
    : result jsstring :=
  let secretBytes := base32Decode (secret config) in
  let? hmac := hmac secretBytes (timeBuffer timeStep) (algorithm config) in
  let offset := Z.land (elem hmac (Z.of_nat (length hmac) - 1)) 0x0f in
  let code :=
    Z.rem
      (Z.lor (Z.lor (Z.lor
         (Z.shiftl (Z.land (elem hmac offset) 0x7f) 24)
         (Z.shiftl (Z.land (elem hmac (offset + 1)) 0xff) 16))
         (Z.shiftl (Z.land (elem hmac (offset + 2)) 0xff) 8))
         (Z.land (elem hmac (offset + 3)) 0xff))
      (10 ^ Z.of_nat (digits config)) in
  Ok (padStart0 (digits config) (Number_toString code)).

(** [Date.now()] *)
Definition Date_now : M Z := fun w => (Ok (clock w), w).

(** [generateTOTP(secret, config?)] *)
Definition generateTOTP (secret : jsstring) (config : option PartialTOTPConfig)
    : M jsstring :=
  let fullConfig := fullConfig secret config in
  let* now := Date_now in
  let timeStep := currentTimeStep now (period fullConfig) in
  lift (generateTOTPForTimeStep fullConfig timeStep).

(** The loop of [verifyTOTP] over the offsets still to try. *)
Fixpoint verifyWindow (fullConfig : TOTPConfig) (token : jsstring)
    (currentTimeStep : Z) (offsets : list Z) : result TOTPVerificationResult :=
  match offsets with
  | [] => Ok {| valid := false; timeStep := None |}
  | i :: rest =>
      let timeStep := currentTimeStep + i in
      let? expectedToken := generateTOTPForTimeStep fullConfig timeStep in
      if constantTimeCompare token expectedToken
      then Ok {| valid := true; timeStep := Some timeStep |}
      else verifyWindow fullConfig token currentTimeStep rest
  end.

(** The values of [i] in [for (i = -WINDOW_SIZE; i <= WINDOW_SIZE; i++)]. *)
Definition window : list Z :=
  map (fun k => Z.of_nat k - WINDOW_SIZE) (seq 0 (Z.to_nat (2 * WINDOW_SIZE + 1))).

(** [verifyTOTP(token, secret, config?)] *)
Definition verifyTOTP (token secret : jsstring)
    (config : option PartialTOTPConfig) : M TOTPVerificationResult :=
  let fullConfig := fullConfig secret config in
  let* now := Date_now in
  let currentTimeStep := currentTimeStep now (period fullConfig) in
  lift (verifyWindow fullConfig token currentTimeStep window).

(** [generateQRCodeData(secret, issuer, accountName)] with the default
    configuration *)
Definition generateQRCodeData (secret issuer accountName : jsstring) : jsstring :=
  let fullConfig := fullConfig secret None in
  let encodedIssuer := encodeURIComponent issuer in
  let encodedAccount := encodeURIComponent accountName in
  lit "otpauth://totp/" ++ encodedIssuer ++ lit ":" ++ encodedAccount
    ++ lit "?secret=" ++ secret ++ lit "&issuer=" ++ encodedIssuer
    ++ lit "&algorithm=" ++ lit (algorithm fullConfig)
    ++ lit "&digits=" ++ Number_toString (Z.of_nat (digits fullConfig))
    ++ lit "&period=" ++ Number_toString (period fullConfig).


(** The rest of a match of [/^[A-Z2-7]+=*$/] after its first character:
    characters of the alphabet, then equals signs up to the end. *)
Fixpoint base32Tail (s : jsstring) : bool :=
  match s with
  | [] => true
  | u :: rest =>
      if isBase32Char u then base32Tail rest else forallb (Z.eqb 61) s
  end.

(** [/^[A-Z2-7]+=*$/.test(s)] *)
Definition base32Regex (s : jsstring) : bool :=
  match s with
  | u :: rest => isBase32Char u && base32Tail rest
  | [] => false
  end.

(** [isValidSecret(secret)] *)
Definition isValidSecret (secret : jsstring) : bool :=
  base32Regex (toUpperCase secret) && (16 <=? length secret)%nat.

End WithPlatform.
End TOTPManager.

(** ** JSON texts of string arrays *)

Module JSON.
Import JS Text.

(** [\uXXXX] with lower-case digits *)
Definition unicodeEscape (u : Z) : jsstring :=
  [92; 117; hexDigit (u / 4096); hexDigit (u / 256 mod 16);
   hexDigit (u / 16 mod 16); hexDigit (u mod 16)].

(** The text of one code unit that is not half of a surrogate pair. *)
Definition quoteUnit (u : Z) : jsstring :=
  if u =? 8 then [92; 98]
  else if u =? 9 then [92; 116]
  else if u =? 10 then [92; 110]
  else if u =? 12 then [92; 102]
  else if u =? 13 then [92; 114]
  else if u =? 34 then [92; 34]
  else if u =? 92 then [92; 92]
  else if (u <? 32) || is_high u || is_low u then unicodeEscape u
  else [u].

(** The characters between the quotes of [JSON.stringify(s)]: surrogate
    pairs are copied, unpaired surrogates and control characters are
    escaped. *)
Fixpoint quoteBody (s : jsstring) : jsstring :=
  match s with
  | [] => []
  | u :: rest =>
      if is_high u then
        match rest with
        | v :: rest' =>
            if is_low v then u :: v :: quoteBody rest'
            else quoteUnit u ++ quoteBody rest
        | [] => quoteUnit u
        end
      else quoteUnit u ++ quoteBody rest
  end.

Definition quote (s : jsstring) : jsstring := 34 :: quoteBody s ++ [34].

Fixpoint joinComma (texts : list jsstring) : jsstring :=
  match texts with
  | [] => []
  | [t] => t
  | t :: rest => t ++ 44 :: joinComma rest
  end.

(** [JSON.stringify(codes)] for an array of strings *)
Definition stringify (codes : list jsstring) : jsstring :=
  91 :: joinComma (map quote codes) ++ [93].

(** The states of a reader of the JSON text of an array of strings.  The
    strings read so far and the characters of the string being read are
    kept in reverse. *)
Inductive state :=
  | Start
  | First
  | InString (done : list jsstring) (acc : jsstring)
  | Escape (done : list jsstring) (acc : jsstring)
  | Unicode (done : list jsstring) (acc : jsstring) (missing : nat) (value : Z)
  | After (done : list jsstring)
  | Next (done : list jsstring)
  | End (done : list jsstring).

Definition isWhitespace (u : Z) : bool :=
  (u =? 32) || (u =? 9) || (u =? 10) || (u =? 13).

Definition step (st : state) (u : Z) : option state :=
  match st with
  | Start =>
      if isWhitespace u then Some Start
      else if u =? 91 then Some First else None
  | First =>
      if isWhitespace u then Some First
      else if u =? 34 then Some (InString [] [])
      else if u =? 93 then Some (End []) else None
  | InString done acc =>
      if u =? 34 then Some (After (rev acc :: done))
      else if u =? 92 then Some (Escape done acc)
      else if u <? 32 then None
      else Some (InString done (u :: acc))
  | Escape done acc =>
      if u =? 34 then Some (InString done (34 :: acc))
      else if u =? 92 then Some (InString done (92 :: acc))
      else if u =? 47 then Some (InString done (47 :: acc))
      else if u =? 98 then Some (InString done (8 :: acc))
      else if u =? 102 then Some (InString done (12 :: acc))
      else if u =? 110 then Some (InString done (10 :: acc))
      else if u =? 114 then Some (InString done (13 :: acc))
      else if u =? 116 then Some (InString done (9 :: acc))
      else if u =? 117 then Some (Unicode done acc 4 0)
      else None
  | Unicode done acc missing value =>
      match hexValue u with
      | Some x =>
          match missing with
          | 1%nat => Some (InString done ((16 * value + x) :: acc))
          | _ => Some (Unicode done acc (pred missing) (16 * value + x))
          end
      | None => None
      end
  | After done =>
      if isWhitespace u then Some (After done)
      else if u =? 44 then Some (Next done)
      else if u =? 93 then Some (End done) else None
  | Next done =>
      if isWhitespace u then Some (Next done)
      else if u =? 34 then Some (InString done []) else None
  | End done => if isWhitespace u then Some (End done) else None
  end.

Fixpoint run (st : state) (text : jsstring) : option state :=
  match text with
  | [] => Some st
  | u :: rest =>
      match step st u with
      | Some st' => run st' rest
      | None => None
      end
  end.

(** [JSON.parse(text)] used as an array of strings: the array, when [text]
    is the JSON text of an array of string literals.  Any other text gives
    [None]: either [JSON.parse] throws a [SyntaxError], or the value is not
    such an array, which the application never stores. *)
Definition parse (text : jsstring) : option (list jsstring) :=
  match run Start text with
  | Some (End done) => Some (rev done)
  | _ => None
  end.

End JSON.

(** ** SecureStore *)

Module SecureStore.
Section WithPlatform.
Context `{Platform}.

Definition setItems (w : World) (m : gmap string stored) : World :=
  {| items := m; clock := clock w; draws := draws w |}.

Definition getItemAsync (key : string) : M (option stored) :=
  fun w =>
    if getFails key then (Throw "Could not read the item", w)
    else (Ok (items w !! key), w).

Definition setItemAsync (key : string) (value : stored) : M unit :=
  fun w =>
    if setFails key then (Throw "Could not store the item", w)
    else (Ok tt, setItems w (<[key := value]> (items w))).

Definition deleteItemAsync (key : string) : M unit :=
  fun w =>
    if deleteFails key then (Throw "Could not delete the item", w)
    else (Ok tt, setItems w (delete key (items w))).

(** The string that a read returned. *)
Definition text (v : stored) : JS.jsstring :=
  match v with
  | Plain s => s
  | ConfigJSON c => 123 :: JSON_members c ++ [125]
  end.

(** Truthiness of what a read returned: [null] and [''] are falsy. *)
Definition present (o : option stored) : bool :=
  match o with
  | Some (Plain (_ :: _)) | Some (ConfigJSON _) => true
  | _ => false
  end.

(** [value === 'true'] *)
Definition isTrue (o : option stored) : bool :=
  match o with
  | Some (Plain s) => bool_decide (s = JS.lit "true")
  | _ => false
  end.

(** [JSON.parse(value)] read as a [TwoFAConfig]; on a plain string either
    [JSON.parse] or the first access to a field throws. *)
Definition parseConfig (v : stored) : result TwoFAConfig :=
  match v with
  | ConfigJSON c => Ok c
  | Plain _ => Throw "Unexpected token in JSON"
  end.

End WithPlatform.
End SecureStore.

(** ** AuthenticationManager *)

Module AuthenticationManager.
Import JS Text SecureStore.

Record TwoFASetupResult := {
  config : TwoFAConfig;
  qrCodeData : jsstring;
  recoveryCodes : list jsstring;
  manualEntryKey : jsstring
}.

Record AuthCredentials := {
  password : option jsstring;
  requestBiometric : option bool;
  twoFactorCode : option jsstring;
  recoveryCode : option jsstring
}.

Record AuthResults := {
  passwordValid : bool;
  biometricValid : bool;
  twoFactorValid : bool;
  success : bool;
  error : option string
}.

Record AuthSettings := {
  hasPassword : bool;
  biometricEnabled : bool;
  twoFactorEnabled : bool
}.

(** [{ ...results, error: message }] *)
Definition withError (results : AuthResults) (message : string) : AuthResults :=
  {| passwordValid := passwordValid results;
     biometricValid := biometricValid results;
     twoFactorValid := twoFactorValid results;
     success := success results;
     error := Some message |}.

(** [config.encryptedRecoveryCodes = codes] *)
Definition withRecoveryCodes (c : TwoFAConfig) (codes : list EncryptedData)
    : TwoFAConfig :=
  {| enabled := enabled c;
     encryptedSecret := encryptedSecret c;
     encryptedRecoveryCodes := codes;
     algorithm := algorithm c;
     digits := digits c;
     period := period c;
     setupDate := setupDate c;
     deviceId := deviceId c |}.

(** A value that may be [undefined], converted to a string by [+]. *)
Definition toString (o : option jsstring) : jsstring :=
  match o with
  | Some s => s
  | None => lit "undefined"
  end.

(** [masterPassword + deviceId + 'RECOVERY_CODE_SALT'] for the device
    identifier that [getDeviceId] returns *)
Definition recoveryKey (masterPassword : jsstring) : jsstring :=
  masterPassword ++ lit "device_unique_id" ++ lit "RECOVERY_CODE_SALT".

(** [array.indexOf(x)]; [None] is [-1]. *)
Fixpoint indexOf (array : list jsstring) (x : jsstring) : option nat :=
  match array with
  | [] => None
  | y :: rest =>
      if bool_decide (y = x) then Some O else S <$> indexOf rest x
  end.

(** [getRequiredAuthMethods(authSettings)] *)
Definition getRequiredAuthMethods (authSettings : AuthSettings) : list string :=
  (if hasPassword authSettings then ["password"%string] else [])
    ++ (if biometricEnabled authSettings then ["biometric"%string] else [])
    ++ (if twoFactorEnabled authSettings then ["twoFactor"%string] else []).

(** [validateAuthenticationResults(results, requiredMethods)] *)
Fixpoint validateAuthenticationResults (results : AuthResults)
    (requiredMethods : list string) : bool :=
  match requiredMethods with
  | [] => true
  | method :: rest =>
      if String.eqb method "password" then
        if negb (passwordValid results) then false
        else validateAuthenticationResults results rest
      else if String.eqb method "biometric" then
        if negb (biometricValid results) then false
        else validateAuthenticationResults results rest
      else if String.eqb method "twoFactor" then
        if negb (twoFactorValid results) then false
        else validateAuthenticationResults results rest
      else validateAuthenticationResults results rest
  end.

(** The argument of [setupAuthentication]; the device identifier is the
    field [deviceId] of the source. *)
Record AuthConfig := {
  masterPassword : jsstring;
  enableBiometric : option bool;
  enable2FA : option bool;
  authDeviceId : jsstring
}.

Record BiometricSetupResult := {
  available : bool;
  enrolled : bool;
  types : list Z
}.

Record SessionData := {
  createdAt : jsstring;
  expiresAt : jsstring;
  sessionId : jsstring
}.

(** What [setupAuthentication] returns: the result of [setup2FA], or
    [{ success: true }]. *)
Inductive SetupOutcome :=
  | TwoFASetup (r : TwoFASetupResult)
  | Success.

(** [JSON.stringify(sessionData)] *)
Definition sessionJSON (s : SessionData) : jsstring :=
  lit "{" ++ JSON.quote (lit "createdAt") ++ lit ":" ++ JSON.quote (createdAt s)
    ++ lit "," ++ JSON.quote (lit "expiresAt") ++ lit ":" ++ JSON.quote (expiresAt s)
    ++ lit "," ++ JSON.quote (lit "sessionId") ++ lit ":" ++ JSON.quote (sessionId s)
    ++ lit "}".

(** The queries of [expo-local-authentication] that the setup makes. *)
Class LocalAuthentication := {
  hasHardwareAsync : result bool;
  isEnrolledAsync : result bool;
  supportedAuthenticationTypesAsync : result (list Z)
}.

Section WithPlatform.
Context `{Platform}.

(** [getDeviceId()] *)
Definition getDeviceId : M jsstring := ret (lit "device_unique_id").

(** [storeMasterPassword(password)] *)
Definition storeMasterPassword (password : jsstring) : M unit :=
  try_catch
    (let* r := CryptoUtils.hashPassword password None in
     let* _ := setItemAsync "masterPasswordHash" (Plain (CryptoUtils.hash r)) in
     let* _ := setItemAsync "passwordSalt" (Plain (CryptoUtils.salt r)) in
     setItemAsync "hasSetupPassword" (Plain (lit "true")))
    (fun message => throw ("Failed to store master password: " +:+ message)).

(** [setup2FA(masterPassword, deviceId)] *)
Definition setup2FA (masterPassword deviceId : jsstring) : M TwoFASetupResult :=
  try_catch
    (let* totpSecret := TOTPManager.generateSecret 32 in
     let* encryptedSecret :=
       CryptoUtils.encrypt totpSecret
         (masterPassword ++ deviceId ++ lit "TOTP_SECRET_SALT") None in
     let* recoveryCodes := CryptoUtils.generateRecoveryCodes 8 in
     let recoveryCodesJson := JSON.stringify recoveryCodes in
     let* encryptedRecoveryCodes :=
       CryptoUtils.encrypt recoveryCodesJson
         (masterPassword ++ deviceId ++ lit "RECOVERY_CODE_SALT") None in
     let* now := TOTPManager.Date_now in
     let config :=
       {| enabled := true;
          encryptedSecret := encryptedSecret;
          encryptedRecoveryCodes := [encryptedRecoveryCodes];
          algorithm := "SHA1";
          digits := 6;
          period := 30;
          setupDate := toISOString now;
          deviceId := deviceId |} in
     let* _ := setItemAsync "twoFactorConfig" (ConfigJSON config) in
     let qrCodeData :=
       TOTPManager.generateQRCodeData totpSecret (lit "SecureVault") (lit "User") in
     ret {| config := config;
            qrCodeData := qrCodeData;
            recoveryCodes := recoveryCodes;
            manualEntryKey := totpSecret |})
    (fun message => throw ("2FA setup failed: " +:+ message)).

(** [verifyMasterPassword(password)] *)
Definition verifyMasterPassword (password : jsstring) : M bool :=
  try_catch
    (let* storedHash := getItemAsync "masterPasswordHash" in
     let* salt := getItemAsync "passwordSalt" in
     match storedHash, salt with
     | Some storedHash', Some salt' =>
         if negb (present storedHash) || negb (present salt) then ret false
         else CryptoUtils.verifyPassword password (text storedHash') (text salt')
     | _, _ => ret false
     end)
    (fun _ => ret false).

(** [verifyBiometric()] *)
Definition verifyBiometric : M bool :=
  try_catch (lift authenticateAsync) (fun _ => ret false).

(** [verifyTOTPCode(providedCode, secret)] *)
Definition verifyTOTPCode (providedCode secret : jsstring) : M bool :=
  try_catch
    (let* result := TOTPManager.verifyTOTP providedCode secret None in
     ret (TOTPManager.valid result))
    (fun _ => ret false).


(** [verify2FA(providedCode, masterPassword)] *)
Definition verify2FA (providedCode masterPassword : jsstring) : M bool :=
  try_catch
    (let* twoFactorConfig := getItemAsync "twoFactorConfig" in
     match twoFactorConfig with
     | Some entry =>
         if negb (present twoFactorConfig) then ret false
         else
           let* config := lift (parseConfig entry) in
           let* deviceId := getDeviceId in
           let* decryptedSecret :=
             lift (CryptoUtils.decrypt (encryptedSecret config)
                     (masterPassword ++ deviceId ++ lit "TOTP_SECRET_SALT")) in
           verifyTOTPCode providedCode decryptedSecret
     | None => ret false
     end)
    (fun _ => ret false).

(** The loop over the blobs of the legacy format, from index [i] on.  The
    array shrinks when a code is removed, and the loop goes on with the
    next index when the write that follows the removal fails. *)
Fixpoint legacyLoop (fuel i : nat) (config : TwoFAConfig)
    (providedCode key : jsstring) : M bool :=
  match fuel with
  | O => ret false
  | S fuel' =>
      match encryptedRecoveryCodes config !! i with
      | None => ret false
      | Some blob =>
          match CryptoUtils.decrypt blob key with
          | Ok decryptedCode =>
              if bool_decide (decryptedCode = providedCode) then
                let config' :=
                  withRecoveryCodes config (delete i (encryptedRecoveryCodes config)) in
                try_catch
                  (let* _ := setItemAsync "twoFactorConfig" (ConfigJSON config') in
                   ret true)
                  (fun _ => legacyLoop fuel' (S i) config' providedCode key)
              else legacyLoop fuel' (S i) config providedCode key
          | Throw _ => legacyLoop fuel' (S i) config providedCode key
          end
      end
  end.

(** [verifyRecoveryCode(providedCode, masterPassword)] *)
Definition verifyRecoveryCode (providedCode masterPassword : jsstring) : M bool :=
  try_catch
    (let* twoFactorConfig := getItemAsync "twoFactorConfig" in
     match twoFactorConfig with
     | Some entry =>
         if negb (present twoFactorConfig) then ret false
         else
           let* config := lift (parseConfig entry) in
           let* deviceId := getDeviceId in
           let key := masterPassword ++ deviceId ++ lit "RECOVERY_CODE_SALT" in
           if (length (encryptedRecoveryCodes config) =? 1)%nat then
             try_catch
               (let* decryptedJson :=
                  lift (CryptoUtils.decrypt
                          (default Unparseable (head (encryptedRecoveryCodes config)))
                          key) in
                match JSON.parse decryptedJson with
                | None => throw "Unexpected token in JSON"
                | Some recoveryCodes =>
                    match indexOf recoveryCodes providedCode with
                    | Some codeIndex =>
                        let recoveryCodes' := delete codeIndex recoveryCodes in
                        let updatedJson := JSON.stringify recoveryCodes' in
                        let* reEncrypted := CryptoUtils.encrypt updatedJson key None in
                        let config' := withRecoveryCodes config [reEncrypted] in
                        let* _ := setItemAsync "twoFactorConfig" (ConfigJSON config') in
                        ret true
                    | None => ret false
                    end
                end)
               (fun _ => ret false)
           else
             legacyLoop (length (encryptedRecoveryCodes config)) 0 config
               providedCode key
     | None => ret false
     end)
    (fun _ => ret false).

(** [getAuthenticationSettings()] *)
Definition getAuthenticationSettings : M AuthSettings :=
  try_catch
    (let* biometricEnabled := getItemAsync "biometricEnabled" in
     let* hasPassword := getItemAsync "hasSetupPassword" in
     let* twoFactorConfig := getItemAsync "twoFactorConfig" in
     ret {| hasPassword := isTrue hasPassword;
            biometricEnabled := isTrue biometricEnabled;
            twoFactorEnabled := present twoFactorConfig |})
    (fun _ =>
       ret {| hasPassword := false;
              biometricEnabled := false;
              twoFactorEnabled := false |}).

(** [authenticateUser(credentials)] *)
Definition authenticateUser (credentials : AuthCredentials) : M AuthResults :=
  try_catch
    (let* authSettings := getAuthenticationSettings in
     let results :=
       {| passwordValid := false; biometricValid := false;
          twoFactorValid := false; success := false; error := None |} in
     (* 1. Verify master password *)
     let* passwordValid :=
       if truthy (password credentials)
       then verifyMasterPassword (toString (password credentials))
       else ret false in
     let results :=
       {| passwordValid := passwordValid; biometricValid := false;
          twoFactorValid := false; success := false; error := None |} in
     if truthy (password credentials) && negb passwordValid
     then ret (withError results "Invalid master password")
     else
     (* 2. Verify biometric if enabled and requested *)
     let attemptBiometric :=
       biometricEnabled authSettings
         && bool_decide (requestBiometric credentials = Some true) in
     let* biometricValid :=
       if attemptBiometric then verifyBiometric else ret false in
     let results :=
       {| passwordValid := passwordValid; biometricValid := biometricValid;
          twoFactorValid := false; success := false; error := None |} in
     if attemptBiometric && negb biometricValid
     then ret (withError results "Biometric authentication failed")
     else
     (* 3. Verify 2FA if enabled *)
     let* twoFactorValid :=
       if twoFactorEnabled authSettings then
         if truthy (twoFactorCode credentials) then
           verify2FA (toString (twoFactorCode credentials))
                     (toString (password credentials))
         else if truthy (recoveryCode credentials) then
           verifyRecoveryCode (toString (recoveryCode credentials))
                              (toString (password credentials))
         else ret false
       else ret false in
     let results :=
       {| passwordValid := passwordValid; biometricValid := biometricValid;
          twoFactorValid := twoFactorValid; success := false; error := None |} in
     if twoFactorEnabled authSettings && negb twoFactorValid
     then ret (withError results "Invalid 2FA code")
     else
     (* Check if all required authentication methods passed *)
     let requiredMethods := getRequiredAuthMethods authSettings in
     ret {| passwordValid := passwordValid; biometricValid := biometricValid;
            twoFactorValid := twoFactorValid;
            success := validateAuthenticationResults results requiredMethods;
            error := None |})
    (fun message =>
       ret {| passwordValid := false; biometricValid := false;
              twoFactorValid := false; success := false;
              error := Some ("Authentication failed: " +:+ message) |}).

(** The keys that [clearAllAuthenticationData] deletes, in its order. *)
Definition keysToDelete : list string :=
  ["masterPasswordHash"; "passwordSalt"; "hasSetupPassword";
   "biometricEnabled"; "twoFactorConfig"; "currentSession"]%string.

(** The loop [for (const key of keysToDelete) await deleteItemAsync(key)]. *)
Fixpoint deleteEach (keys : list string) : M unit :=
  match keys with
  | [] => ret tt
  | key :: rest =>
      let* _ := deleteItemAsync key in
      deleteEach rest
  end.

(** [clearAllAuthenticationData()] *)
Definition clearAllAuthenticationData : M unit :=
  try_catch (deleteEach keysToDelete) (fun _ => ret tt).

(** Time passes: the clock of the world moves on by [elapsed]
    milliseconds. *)
Definition passTime (elapsed : Z) : M unit :=
  fun w =>
    (Ok tt, {| items := items w; clock := clock w + elapsed; draws := draws w |}).

(** [createSession()].  The clock is read twice, by [new Date()] for
    [createdAt] and by [Date.now()] for [expiresAt]; [elapsed] is the time
    that passes between the two readings. *)
Definition createSession (elapsed : Z) : M SessionData :=
  try_catch
    (let* created := TOTPManager.Date_now in
     let* _ := passTime elapsed in
     let* now := TOTPManager.Date_now in
     let* sessionId := CryptoUtils.generateSessionId in
     let sessionData :=
       {| createdAt := toISOString created;
          expiresAt := toISOString (now + 24 * 60 * 60 * 1000);
          sessionId := sessionId |} in
     let* _ := setItemAsync "currentSession" (Plain (sessionJSON sessionData)) in
     ret sessionData)
    (fun message => throw ("Session creation failed: " +:+ message)).

Section WithLocalAuthentication.
Context `{LocalAuthentication}.

(** [setupBiometric()] *)
Definition setupBiometric : M BiometricSetupResult :=
  try_catch
    (let* isAvailable := lift hasHardwareAsync in
     if negb isAvailable then throw "Biometric hardware not available"
     else
     let* isEnrolled := lift isEnrolledAsync in
     if negb isEnrolled then throw "No biometric credentials enrolled"
     else
     let* supportedTypes := lift supportedAuthenticationTypesAsync in
     ret {| available := true; enrolled := true; types := supportedTypes |})
    (fun message => throw ("Biometric setup failed: " +:+ message)).

(** [setupAuthentication(config)] *)
Definition setupAuthentication (config : AuthConfig) : M SetupOutcome :=
  try_catch
    (let* _ := clearAllAuthenticationData in
     let masterPassword := masterPassword config in
     let enableBiometric := default false (enableBiometric config) in
     let enable2FA := default false (enable2FA config) in
     let deviceId := authDeviceId config in
     let* _ := storeMasterPassword masterPassword in
     let* _ :=
       if enableBiometric then (let* _ := setupBiometric in ret tt) else ret tt in
     let* _ :=
       setItemAsync "biometricEnabled"
         (Plain (lit (if enableBiometric then "true" else "false"))) in
     if enable2FA then
       let* twoFASetup := setup2FA masterPassword deviceId in
       ret (TwoFASetup twoFASetup)
     else
       let* _ := deleteItemAsync "twoFactorConfig" in
       ret Success)
    (fun message => throw ("Authentication setup failed: " +:+ message)).

End WithLocalAuthentication.

End WithPlatform.
End AuthenticationManager.

(** ** SecurityManager *)

Module SecurityManager.
Import SecureStore.

Record AuthenticationSettings := {
  requiresAuth : bool;
  biometricEnabled : bool;
  twoFactorEnabled : bool
}.

(** The callbacks that the class passes to [setTimeout]. *)
Inductive Callback :=
  | onSessionTimeout            (* () => this.handleSessionTimeout() *)
  | onGracePeriodEnd            (* () => { this.isAuthenticated = false } *)
  | onLogout                    (* () => this.performSecureLogout() *)
  | onReplace (href : string).  (* () => router.replace(href) *)

(** The calls that the class makes to the timers and to [Alert.alert]. *)
Inductive Effect :=
  | SetTimeout (handle : nat) (callback : Callback) (delay : option Z)
  | ClearTimeout (handle : nat)
  | AlertShown (title : string).

(** The application: the world, the static fields of the class (a number
    that may be [NaN] is an [option]), and the calls made so far to the
    timers and alerts, the latest first. *)
Record App := {
  world : World;
  sessionTimer : option nat;
  sessionTimeout : option Z;
  lastActivity : Z;
  isAppInBackground : bool;
  isAuthenticated : bool;
  effects : list Effect
}.

Definition authenticationGracePeriod : Z := 5000.

(** The application when the class is loaded. *)
Definition initial (w : World) : App :=
  {| world := w;
     sessionTimer := None;
     sessionTimeout := Some 300000;
     lastActivity := clock w;
     isAppInBackground := false;
     isAuthenticated := false;
     effects := [] |}.

Definition withWorld (a : App) (w : World) : App :=
  {| world := w;
     sessionTimer := sessionTimer a;
     sessionTimeout := sessionTimeout a;
     lastActivity := lastActivity a;
     isAppInBackground := isAppInBackground a;
     isAuthenticated := isAuthenticated a;
     effects := effects a |}.

Definition withSessionTimer (a : App) (handle : option nat) : App :=
  {| world := world a;
     sessionTimer := handle;
     sessionTimeout := sessionTimeout a;
     lastActivity := lastActivity a;
     isAppInBackground := isAppInBackground a;
     isAuthenticated := isAuthenticated a;
     effects := effects a |}.

Definition withSessionTimeout (a : App) (timeout : option Z) : App :=
  {| world := world a;
     sessionTimer := sessionTimer a;
     sessionTimeout := timeout;
     lastActivity := lastActivity a;
     isAppInBackground := isAppInBackground a;
     isAuthenticated := isAuthenticated a;
     effects := effects a |}.

Definition withLastActivity (a : App) (time : Z) : App :=
  {| world := world a;
     sessionTimer := sessionTimer a;
     sessionTimeout := sessionTimeout a;
     lastActivity := time;
     isAppInBackground := isAppInBackground a;
     isAuthenticated := isAuthenticated a;
     effects := effects a |}.

Definition withIsAppInBackground (a : App) (b : bool) : App :=
  {| world := world a;
     sessionTimer := sessionTimer a;
     sessionTimeout := sessionTimeout a;
     lastActivity := lastActivity a;
     isAppInBackground := b;
     isAuthenticated := isAuthenticated a;
     effects := effects a |}.

Definition withIsAuthenticated (a : App) (b : bool) : App :=
  {| world := world a;
     sessionTimer := sessionTimer a;
     sessionTimeout := sessionTimeout a;
     lastActivity := lastActivity a;
     isAppInBackground := isAppInBackground a;
     isAuthenticated := b;
     effects := effects a |}.

Definition withEffects (a : App) (l : list Effect) : App :=
  {| world := world a;
     sessionTimer := sessionTimer a;
     sessionTimeout := sessionTimeout a;
     lastActivity := lastActivity a;
     isAppInBackground := isAppInBackground a;
     isAuthenticated := isAuthenticated a;
     effects := l |}.

(** The session timers that have been set and not cleared since. *)
Fixpoint liveSessionTimers (effects : list Effect) : list nat :=
  match effects with
  | [] => []
  | SetTimeout handle onSessionTimeout _ :: earlier =>
      handle :: liveSessionTimers earlier
  | ClearTimeout handle :: earlier =>
      filter (fun h => h <> handle) (liveSessionTimers earlier)
  | _ :: earlier => liveSessionTimers earlier
  end.

Section WithPlatform.
Context `{Platform}.

(** The keys that [emergencyWipe] deletes. *)
Definition keys : list string :=
  ["masterPassword"; "vaultItems"; "biometricEnabled"; "twoFactorEnabled";
   "hasSetupPassword"; "hasCompletedOnboarding"; "sessionTimeout";
   "authSettings"]%string.

(** [clearSensitiveData()]: nothing is cached; the store is not touched. *)
Definition clearSensitiveData : M unit := ret tt.

(** The loop [for (const key of keys) { try { delete } catch { } }]. *)
Fixpoint deleteAll (keys : list string) : M unit :=
  match keys with
  | [] => ret tt
  | key :: rest =>
      let* _ := try_catch (deleteItemAsync key) (fun _ => ret tt) in
      deleteAll rest
  end.

(** The entries that the deletion loop leaves in a store, spelled out on
    the map. *)
Fixpoint remaining (keys : list string) (m : gmap string stored)
    : gmap string stored :=
  match keys with
  | [] => m
  | key :: rest => remaining rest (if deleteFails key then m else delete key m)
  end.

(** [emergencyWipe()], up to the alert it shows at the end *)
Definition emergencyWipe : M unit :=
  try_catch
    (let* _ := deleteAll keys in
     clearSensitiveData)
    (fun _ => ret tt).

(** [getAuthenticationSettings()] of this class *)
Definition getAuthenticationSettings : M AuthenticationSettings :=
  try_catch
    (let* biometricEnabled := getItemAsync "biometricEnabled" in
     let* twoFactorEnabled := getItemAsync "twoFactorEnabled" in
     let* hasPassword := getItemAsync "hasSetupPassword" in
     ret {| requiresAuth := isTrue hasPassword;
            biometricEnabled := isTrue biometricEnabled;
            twoFactorEnabled := isTrue twoFactorEnabled |})
    (fun _ =>
       ret {| requiresAuth := true;
              biometricEnabled := false;
              twoFactorEnabled := false |}).

(** [setTimeout(callback, delay)]: the handle returned is a fresh positive
    number. *)
Definition setTimeout (callback : Callback) (delay : option Z) (a : App)
    : nat * App :=
  let handle := S (length (effects a)) in
  (handle, withEffects a (SetTimeout handle callback delay :: effects a)).

(** [clearTimeout(handle)] *)
Definition clearTimeout (handle : nat) (a : App) : App :=
  withEffects a (ClearTimeout handle :: effects a).

(** [loadSessionTimeout()] *)
Definition loadSessionTimeout (a : App) : App :=
  match getItemAsync "sessionTimeout" (world a) with
  | (Ok timeout, w) =>
      match timeout with
      | Some value =>
          if present timeout
          then withSessionTimeout (withWorld a w) (Text.parseInt (text value))
          else withWorld a w
      | None => withWorld a w
      end
  | (Throw _, w) => withWorld a w
  end.

(** [resetSessionTimer()] *)
Definition resetSessionTimer (a : App) : App :=
  let a :=
    match sessionTimer a with
    | Some handle => clearTimeout handle a
    | None => a
    end in
  let a := withLastActivity a (clock (world a)) in
  let '(handle, a) := setTimeout onSessionTimeout (sessionTimeout a) a in
  withSessionTimer a (Some handle).

(** [trackUserActivity()] *)
Definition trackUserActivity (a : App) : App := resetSessionTimer a.

(** [setupSessionManagement()].  [loadSessionTimeout] is not awaited: when
    it is called it sends its read to the store, and it assigns the timeout
    read only after the two calls that follow it have run. *)
Definition setupSessionManagement (a : App) : App :=
  let a := resetSessionTimer a in
  let a := trackUserActivity a in
  loadSessionTimeout a.

(** [performSecureLogout()] *)
Definition performSecureLogout (a : App) : App :=
  match (let* _ := clearSensitiveData in
         deleteItemAsync "currentSession") (world a) with
  | (Ok _, w) => (setTimeout (onReplace "/") (Some 0) (withWorld a w)).2
  | (Throw _, w) => withWorld a w
  end.

(** [handleSessionTimeout()] *)
Definition handleSessionTimeout (a : App) : App :=
  if isAppInBackground a then withWorld a (clearSensitiveData (world a)).2
  else withEffects a (AlertShown "Session Expired" :: effects a).

(** The handler of the button of the alert that [handleSessionTimeout]
    shows. *)
Definition sessionExpiredOnPress (a : App) : App :=
  (setTimeout onLogout (Some 0) a).2.

(** [markAuthenticationCompleted()] *)
Definition markAuthenticationCompleted (a : App) : App :=
  let a := withIsAuthenticated a true in
  let a := withLastActivity a (clock (world a)) in
  let a := resetSessionTimer a in
  (setTimeout onGracePeriodEnd (Some authenticationGracePeriod) a).2.

(** [requireAuthentication()] *)
Definition requireAuthentication (a : App) : App :=
  match getAuthenticationSettings (world a) with
  | (Ok authSettings, w) =>
      if requiresAuth authSettings
      then (setTimeout (onReplace "/authenticate") (Some 0) (withWorld a w)).2
      else withWorld a w
  | (Throw _, w) => (setTimeout onLogout (Some 0) (withWorld a w)).2
  end.

(** [handleAppBackground()]: nothing is cached, and the privacy screen is
    a log line. *)
Definition handleAppBackground (a : App) : App :=
  withWorld a (clearSensitiveData (world a)).2.

(** [handleAppForeground()].  A comparison with [NaN] is false. *)
Definition handleAppForeground (a : App) : App :=
  if isAuthenticated a then a
  else
    let timeSinceLastActivity := clock (world a) - lastActivity a in
    let expired :=
      match sessionTimeout a with
      | Some timeout => timeout <? timeSinceLastActivity
      | None => false
      end in
    if expired then performSecureLogout a else requireAuthentication a.

(** The listener that [setupAppStateMonitoring] registers. *)
Definition appStateChange (nextAppState : string) (a : App) : App :=
  if String.eqb nextAppState "background" || String.eqb nextAppState "inactive"
  then handleAppBackground (withIsAppInBackground a true)
  else if String.eqb nextAppState "active"
  then handleAppForeground (withIsAppInBackground a false)
  else a.

(** [setSessionTimeout(timeoutMs)] *)
Definition setSessionTimeout (timeoutMs : Z) (a : App) : App :=
  let a := withSessionTimeout a (Some timeoutMs) in
  match setItemAsync "sessionTimeout"
          (Plain (Text.Number_toString_signed timeoutMs)) (world a) with
  | (Ok _, w) => resetSessionTimer (withWorld a w)
  | (Throw _, w) => withWorld a w
  end.

(** What a callback passed to [setTimeout] does when it runs. *)
Definition runCallback (callback : Callback) (a : App) : App :=
  match callback with
  | onSessionTimeout => handleSessionTimeout a
  | onGracePeriodEnd => withIsAuthenticated a false
  | onLogout => performSecureLogout a
  | onReplace _ => a
  end.

(** What can happen to the application: a call of one of the functions
    above, a timer that fires, or a change of the world around (time
    passes, another module writes to the store). *)
Inductive Operation :=
  | LoadSessionTimeout
  | ResetSessionTimer
  | TrackUserActivity
  | SetupSessionManagement
  | PerformSecureLogout
  | HandleSessionTimeout
  | SessionExpiredOnPress
  | MarkAuthenticationCompleted
  | RequireAuthentication
  | AppStateChange (nextAppState : string)
  | SetSessionTimeout (timeoutMs : Z)
  | RunCallback (callback : Callback)
  | WorldChange (w : World).

Definition perform (a : App) (operation : Operation) : App :=
  match operation with
  | LoadSessionTimeout => loadSessionTimeout a
  | ResetSessionTimer => resetSessionTimer a
  | TrackUserActivity => trackUserActivity a
  | SetupSessionManagement => setupSessionManagement a
  | PerformSecureLogout => performSecureLogout a
  | HandleSessionTimeout => handleSessionTimeout a
  | SessionExpiredOnPress => sessionExpiredOnPress a
  | MarkAuthenticationCompleted => markAuthenticationCompleted a
  | RequireAuthentication => requireAuthentication a
  | AppStateChange nextAppState => appStateChange nextAppState a
  | SetSessionTimeout timeoutMs => setSessionTimeout timeoutMs a
  | RunCallback callback => runCallback callback a
  | WorldChange w => withWorld a w
  end.

End WithPlatform.
End SecurityManager.

(** ** A small platform, for examples *)

Module Sample.
Import JS Text.

(** A stand-in for the digests: bytes computed from the sum of the input,
    of the length of the real digest. *)
Definition sampleDigest (algorithm : CryptoDigestAlgorithm) (data : jsstring)
    : result (list Z) :=
  let sum := fold_right Z.add 0 data in
  Ok (map (fun i => (sum + 7 * Z.of_nat i) mod 256) (seq 0 (digestSize algorithm))).

(** Upper case of the ASCII letters. *)
Definition asciiUpper (s : jsstring) : jsstring :=
  map (fun u => if (97 <=? u) && (u <=? 122) then u - 32 else u) s.

Definition platform : Platform :=
  {| digest := sampleDigest;
     randomByte := fun k i => Z.of_nat (17 * k + 5 * i);
     authenticateAsync := Ok true;
     getFails := fun _ => false;
     setFails := fun _ => false;
     deleteFails := fun _ => false;
     toUpperCase := asciiUpper;
     encodeURIComponent := fun s => s;
     toISOString := fun _ => lit "2024-12-01T00:00:00.000Z";
     JSON_members := fun _ => 34 :: lit "enabled" ++ 34 :: lit ":true" |}.


Definition emptyWorld : World := {| items := ∅; clock := 1700000000000; draws := 0 |}.

Definition masterPassword : jsstring := lit "correct horse".

(** What [encrypt] returns on the sample platform in the empty world. *)
Definition encrypted (text password : jsstring) : EncryptedData :=
  match (@CryptoUtils.encrypt platform text password None emptyWorld).1 with
  | Ok blob => blob
  | Throw _ => Unparseable
  end.

(** A configuration of the second factor that holds the given blobs of
    recovery codes. *)
Definition configWith (blobs : list EncryptedData) : TwoFAConfig :=
  {| enabled := true;
     encryptedSecret := Unparseable;
     encryptedRecoveryCodes := blobs;
     algorithm := "SHA1";
     digits := 6;
     period := 30;
     setupDate := lit "2024-12-01T00:00:00.000Z";
     deviceId := lit "device_unique_id" |}.

Definition worldWith (blobs : list EncryptedData) : World :=
  {| items := {["twoFactorConfig"%string := ConfigJSON (configWith blobs)]};
     clock := 1700000000000;
     draws := 0 |}.

(** A store in the batch format: one blob for the whole list. *)
Definition batchWorld (codes : list jsstring) : World :=
  worldWith
    [encrypted (JSON.stringify codes)
       (AuthenticationManager.recoveryKey masterPassword)].

(** A store in the legacy format: one blob for each code. *)
Definition legacyWorld (codes : list jsstring) : World :=
  worldWith
    (map (fun code => encrypted code (AuthenticationManager.recoveryKey masterPassword))
         codes).

Definition secretOf (r : result AuthenticationManager.TwoFASetupResult) : jsstring :=
  match r with
  | Ok r => AuthenticationManager.manualEntryKey r
  | Throw _ => []
  end.

Definition codeOf (r : result jsstring) : jsstring :=
  match r with
  | Ok code => code
  | Throw _ => []
  end.

(** The world after a master password and the second factor have been set
    up in the empty world, the secret that was generated, and the code of
    the current time step for it. *)
Definition afterSetup (password : jsstring) : World :=
  (@AuthenticationManager.setup2FA platform password (lit "device_unique_id")
     (@AuthenticationManager.storeMasterPassword platform password emptyWorld).2).2.

Definition totpSecret (password : jsstring) : jsstring :=
  secretOf
    (@AuthenticationManager.setup2FA platform password (lit "device_unique_id")
       (@AuthenticationManager.storeMasterPassword platform password emptyWorld).2).1.

Definition currentCode (password : jsstring) : jsstring :=
  codeOf
    (@TOTPManager.generateTOTP platform (totpSecret password) None
       (afterSetup password)).1.

(** A world in which biometric authentication alone is enabled. *)
Definition biometricWorld : World :=
  {| items := {["biometricEnabled"%string := Plain (lit "true")]};
     clock := 1700000000000;
     draws := 0 |}.

(** The store after the setup of a master password and of the second
    factor, with biometric authentication enabled besides. *)
Definition allFactorsWorld : World :=
  {| items :=
       <["biometricEnabled"%string := Plain (lit "true")]>
         (items (afterSetup masterPassword));
     clock := 1700000000000;
     draws := draws (afterSetup masterPassword) |}.

(** The same platform with a store that cannot be read. *)
Definition unreadableStore : Platform :=
  {| digest := sampleDigest;
     randomByte := fun k i => Z.of_nat (17 * k + 5 * i);
     authenticateAsync := Ok true;
     getFails := fun _ => true;
     setFails := fun _ => false;
     deleteFails := fun _ => false;
     toUpperCase := asciiUpper;
     encodeURIComponent := fun s => s;
     toISOString := fun _ => lit "2024-12-01T00:00:00.000Z";
     JSON_members := fun _ => 34 :: lit "enabled" ++ 34 :: lit ":true" |}.

(** A device with enrolled biometrics, and one without the hardware. *)
Definition biometrics : AuthenticationManager.LocalAuthentication :=
  {| AuthenticationManager.hasHardwareAsync := Ok true;
     AuthenticationManager.isEnrolledAsync := Ok true;
     AuthenticationManager.supportedAuthenticationTypesAsync := Ok [1; 2] |}.

Definition noBiometrics : AuthenticationManager.LocalAuthentication :=
  {| AuthenticationManager.hasHardwareAsync := Ok false;
     AuthenticationManager.isEnrolledAsync := Ok false;
     AuthenticationManager.supportedAuthenticationTypesAsync := Ok [] |}.

End Sample.

(** ** What is assumed of the platform's strings *)

(** [toUpperCase] acts on ASCII text as the language specifies. *)
Definition upperCaseWorks `{Platform} : Prop :=
  forall s : JS.jsstring,
    Forall (fun u => 0 <= u < 128) s -> toUpperCase s = Sample.asciiUpper s.

(** * Properties *)

(** ** The text codecs *)

Module JSFacts.
Import JS.

Lemma utf8_decode_encode_cp (c : Z) (rest : list Z) :
  scalar c ->
  utf8_decode utf8_init (utf8_encode_cp c ++ rest) = c :: utf8_decode utf8_init rest.
Proof.
  unfold scalar, utf8_encode_cp. intros Hc.
  destruct (Z.ltb_spec c 0x80).
  { cbn. unfold utf8_lead. decide_tests. reflexivity. }
  destruct (Z.ltb_spec c 0x800).
  { cbn. unfold utf8_lead. decide_tests. cbn. decide_tests. cbn.
    f_equal. lia. }
  destruct (Z.ltb_spec c 0x10000).
  { cbn. unfold utf8_lead. decide_tests.
    all: cbn; decide_tests; cbn; decide_tests; cbn; f_equal; lia. }
  cbn. unfold utf8_lead. decide_tests.
  all: cbn; decide_tests; cbn; decide_tests; cbn; decide_tests; cbn; f_equal; lia.
Qed.

Lemma utf8_decode_encode (cps : list Z) :
  Forall scalar cps ->
  utf8_decode utf8_init (flat_map utf8_encode_cp cps) = cps.
Proof.
  induction 1 as [|c cps Hc _ IH]; [reflexivity|].
  cbn [flat_map]. rewrite utf8_decode_encode_cp by assumption. now rewrite IH.
Qed.

Lemma utf8_encode_cp_bytes (c : Z) :
  scalar c -> Forall byte (utf8_encode_cp c).
Proof.
  unfold scalar, utf8_encode_cp, byte. intros Hc.
  decide_tests; repeat constructor; lia.
Qed.

(** Induction on strings that follows the recursion of [code_points]. *)
Lemma pairwise_ind (P : jsstring -> Prop) :
  P [] ->
  (forall u, P [u]) ->
  (forall u v s, P s -> P (v :: s) -> P (u :: v :: s)) ->
  forall s, P s.
Proof.
  intros Hnil Hone Hstep s.
  assert (H : P s /\ forall u, P (u :: s)); [|apply H].
  induction s as [|v s [IH1 IH2]]; split; auto.
Qed.

Lemma surrogate_tests (u : Z) :
  (is_high u = true <-> 0xD800 <= u <= 0xDBFF) /\
  (is_low u = true <-> 0xDC00 <= u <= 0xDFFF).
Proof. unfold is_high, is_low. lia. Qed.

Lemma isWellFormed_cons (u : Z) (s : jsstring) :
  isWellFormed (u :: s) =
  if is_high u then
    match s with
    | v :: s' => is_low v && isWellFormed s'
    | [] => false
    end
  else negb (is_low u) && (0 <=? u) && (u <? 0x10000) && isWellFormed s.
Proof. reflexivity. Qed.

Lemma code_points_cons (u : Z) (s : jsstring) :
  code_points (u :: s) =
  if is_high u then
    match s with
    | v :: s' =>
        if is_low v
        then (0x10000 + (u - 0xD800) * 0x400 + (v - 0xDC00)) :: code_points s'
        else 0xFFFD :: code_points s
    | [] => [0xFFFD]
    end
  else if is_low u then 0xFFFD :: code_points s
  else u :: code_points s.
Proof. reflexivity. Qed.

(** The shape of a well-formed string: empty, a pair of surrogates followed
    by a well-formed string, or a non-surrogate unit followed by one. *)
Lemma isWellFormed_inv (u : Z) (s : jsstring) :
  isWellFormed (u :: s) = true ->
  (is_high u = true /\ exists v s', s = v :: s' /\ is_low v = true /\
     isWellFormed s' = true) \/
  (is_high u = false /\ is_low u = false /\ 0 <= u < 0x10000 /\
     isWellFormed s = true).
Proof.
  rewrite isWellFormed_cons. destruct (is_high u).
  - destruct s as [|v s']; [discriminate|]. intros [Hv Hs]%andb_true_iff.
    left. split; [reflexivity|]. now exists v, s'.
  - intros [[[Hl H0]%andb_true_iff H1]%andb_true_iff Hs]%andb_true_iff.
    right. apply negb_true_iff in Hl. repeat split; auto; lia.
Qed.

Lemma code_points_scalar (s : jsstring) :
  isWellFormed s = true -> Forall scalar (code_points s).
Proof.
  induction s as [|u|u v s IH1 IH2] using pairwise_ind; intros Hwf.
  - constructor.
  - apply isWellFormed_inv in Hwf as [(_ & v & s' & [=] & _)|(Hh & Hl & Hu & _)].
    rewrite code_points_cons, Hh, Hl. constructor; [|constructor].
    unfold is_high, is_low, scalar in *. lia.
  - rewrite code_points_cons.
    apply isWellFormed_inv in Hwf as [(Hh & v' & s' & [= <- <-] & Hl & Hs)|(Hh & Hl & Hu & Hs)].
    + rewrite Hh, Hl. constructor; [|now apply IH1].
      unfold is_high, is_low, scalar in *. lia.
    + rewrite Hh, Hl. constructor; [|now apply IH2].
      unfold is_high, is_low, scalar in *. lia.
Qed.

Lemma utf16_code_points (s : jsstring) :
  isWellFormed s = true -> flat_map utf16_encode_cp (code_points s) = s.
Proof.
  induction s as [|u|u v s IH1 IH2] using pairwise_ind; intros Hwf.
  - reflexivity.
  - apply isWellFormed_inv in Hwf as [(_ & v & s' & [=] & _)|(Hh & Hl & Hu & _)].
    rewrite code_points_cons, Hh, Hl. cbn. unfold utf16_encode_cp.
    decide_tests. reflexivity.
  - rewrite code_points_cons.
    apply isWellFormed_inv in Hwf as [(Hh & v' & s' & [= <- <-] & Hl & Hs)|(Hh & Hl & Hu & Hs)].
    + rewrite Hh, Hl. cbn [flat_map]. rewrite IH1 by exact Hs.
      unfold is_high, is_low, utf16_encode_cp in *. decide_tests.
      cbn. f_equal; [lia|]. f_equal. lia.
    + rewrite Hh, Hl. cbn [flat_map]. rewrite IH2 by exact Hs.
      unfold utf16_encode_cp. decide_tests. reflexivity.
Qed.

(** The first code point of a well-formed string is a byte order mark
    only if its first code unit is. *)
Lemma code_points_no_bom (s : jsstring) :
  isWellFormed s = true -> head s <> Some 0xFEFF ->
  head (code_points s) <> Some 0xFEFF.
Proof.
  destruct s as [|u s]; [auto|]. intros Hwf Hu. rewrite code_points_cons.
  apply isWellFormed_inv in Hwf as [(Hh & v' & s' & -> & Hl & Hs)|(Hh & Hl & _)].
  - rewrite Hh, Hl. unfold is_high, is_low in *. cbn. intros [= E]. lia.
  - rewrite Hh, Hl. exact Hu.
Qed.

(** Decoding undoes encoding on well-formed text without a leading byte
    order mark. *)
Lemma TextDecoder_TextEncoder (s : jsstring) :
  isWellFormed s = true -> head s <> Some 0xFEFF ->
  TextDecoder_decode (TextEncoder_encode s) = s.
Proof.
  intros Hwf Hbom. unfold TextDecoder_decode, TextEncoder_encode.
  rewrite utf8_decode_encode by now apply code_points_scalar.
  pose proof (code_points_no_bom s Hwf Hbom) as Hcp.
  destruct (code_points s) as [|c cps] eqn:E.
  - rewrite <- (utf16_code_points s Hwf), E. reflexivity.
  - destruct (Z.eqb_spec c 0xFEFF) as [->|_]; [now elim Hcp|].
    rewrite <- E. now apply utf16_code_points.
Qed.

(** A leading byte order mark does not survive the round trip. *)
Lemma TextDecoder_drops_bom (s : jsstring) :
  isWellFormed s = true ->
  TextDecoder_decode (TextEncoder_encode (0xFEFF :: s)) = s.
Proof.
  intros Hwf. unfold TextDecoder_decode, TextEncoder_encode.
  assert (Hwf' : isWellFormed (0xFEFF :: s) = true) by (cbn; exact Hwf).
  rewrite utf8_decode_encode by now apply code_points_scalar.
  change (code_points (0xFEFF :: s)) with (0xFEFF :: code_points s).
  cbn [Z.eqb Pos.eqb]. now apply utf16_code_points.
Qed.

Lemma TextEncoder_bytes (s : jsstring) :
  isWellFormed s = true -> Forall byte (TextEncoder_encode s).
Proof.
  intros Hwf. unfold TextEncoder_encode.
  pose proof (code_points_scalar s Hwf) as Hs.
  induction Hs as [|c cps Hc _ IH]; [constructor|].
  cbn [flat_map]. apply Forall_app. split; [now apply utf8_encode_cp_bytes|exact IH].
Qed.

End JSFacts.

(** ** CryptoUtils *)

Module CryptoFacts.
Import JS Text JSFacts CryptoUtils.

Lemma mod_256_land (x : Z) : x mod 256 = Z.land x 255.
Proof. symmetry. apply (Z.land_ones x 8). lia. Qed.

(** Applying the same key byte twice gives the byte back. *)
Lemma xor_twice (b k : Z) :
  byte b -> Z.lxor (Z.lxor b k mod 256 mod 256) k mod 256 = b.
Proof.
  intros Hb. rewrite !mod_256_land.
  transitivity (Z.land b 255).
  - apply Z.bits_inj'. intros n _.
    rewrite !Z.land_spec, !Z.lxor_spec, !Z.land_spec, Z.lxor_spec.
    destruct (Z.testbit b n), (Z.testbit k n), (Z.testbit 255 n); reflexivity.
  - rewrite <- mod_256_land. apply Z.mod_small. exact Hb.
Qed.

Lemma xorBytes_twice (bytes keyBytes : list Z) :
  Forall byte bytes ->
  xorBytes (Uint8Array_from (xorBytes bytes keyBytes)) keyBytes = bytes.
Proof.
  unfold xorBytes, Uint8Array_from. intros Hb.
  apply list_eq. intros i.
  rewrite list_lookup_imap. change (map ?f ?l) with (f <$> l).
  rewrite list_lookup_fmap, list_lookup_imap.
  destruct (bytes !! i) as [b|] eqn:E; [|reflexivity].
  cbn. f_equal. apply xor_twice.
  rewrite Forall_forall in Hb. apply Hb.
  eapply list_elem_of_lookup_2. exact E.
Qed.

(** *** Hexadecimal digests *)

Lemma hexValue_hexDigit (n : Z) :
  0 <= n < 16 -> hexValue (hexDigit n) = Some n.
Proof.
  intros Hn. unfold hexValue, hexDigit.
  destruct (Z.ltb_spec n 10); decide_tests; f_equal; lia.
Qed.

Lemma hexDigit_not_terminator (n : Z) :
  0 <= n < 16 -> isLineTerminator (hexDigit n) = false.
Proof.
  intros Hn. unfold isLineTerminator, hexDigit.
  destruct (Z.ltb_spec n 10); decide_tests; reflexivity.
Qed.

Lemma parseInt16_toHex2 (b : Z) :
  byte b -> parseInt16 (hexDigit (b / 16)) (hexDigit (b mod 16)) = b.
Proof.
  unfold byte, parseInt16. intros Hb.
  rewrite !hexValue_hexDigit by lia. lia.
Qed.

Lemma matchPairs_hex (bytes : list Z) :
  Forall byte bytes ->
  matchPairs (flat_map toHex2 bytes) =
  map (fun b => (hexDigit (b / 16), hexDigit (b mod 16))) bytes.
Proof.
  induction 1 as [|b bytes Hb _ IH]; [reflexivity|].
  unfold byte in Hb. cbn [flat_map toHex2 app matchPairs map].
  rewrite !hexDigit_not_terminator by lia. cbn [orb]. now rewrite IH.
Qed.

Lemma alignedPairs_hex (bytes : list Z) :
  alignedPairs (flat_map toHex2 bytes) =
  map (fun b => (hexDigit (b / 16), hexDigit (b mod 16))) bytes.
Proof.
  induction bytes as [|b bytes IH]; [reflexivity|].
  cbn [flat_map toHex2 app alignedPairs map]. now rewrite IH.
Qed.

Lemma Uint8Array_from_bytes (l : list Z) : Forall byte (Uint8Array_from l).
Proof.
  unfold Uint8Array_from. induction l; constructor; [unfold byte; lia|assumption].
Qed.

Lemma Uint8Array_from_id (l : list Z) :
  Forall byte l -> Uint8Array_from l = l.
Proof.
  unfold Uint8Array_from. induction 1 as [|b l Hb _ IH]; [reflexivity|].
  cbn. rewrite IH. f_equal. apply Z.mod_small. exact Hb.
Qed.

Lemma length_Uint8Array_from (l : list Z) :
  length (Uint8Array_from l) = length l.
Proof. apply length_map. Qed.

(** Reading a hexadecimal digest back gives the digest. *)
Lemma parse_hex (bytes : list Z) :
  Forall byte bytes ->
  map (fun p => parseInt16 (fst p) (snd p))
      (map (fun b => (hexDigit (b / 16), hexDigit (b mod 16))) bytes) = bytes.
Proof.
  induction 1 as [|b bytes Hb _ IH]; [reflexivity|].
  cbn [map fst snd]. rewrite parseInt16_toHex2 by assumption. now rewrite IH.
Qed.

Lemma length_hex (bytes : list Z) :
  length (flat_map toHex2 bytes) = (2 * length bytes)%nat.
Proof. induction bytes as [|b bytes IH]; [reflexivity|]. cbn. lia. Qed.

Section WithPlatform.
Context `{Platform}.

(** *** Key derivation *)

Lemma rehash_digest (derived bytes : list Z) :
  digest SHA256 derived = Ok bytes -> bytes <> [] ->
  rehash derived = Ok (Uint8Array_from bytes).
Proof.
  intros Hd Hne. unfold rehash, digestStringAsync. rewrite Hd. cbn [rbind].
  rewrite matchPairs_hex by apply Uint8Array_from_bytes.
  destruct (map _ (Uint8Array_from bytes)) as [|p pairs] eqn:E.
  - apply map_eq_nil, map_eq_nil in E. contradiction.
  - rewrite <- E, parse_hex by apply Uint8Array_from_bytes.
    f_equal. apply Uint8Array_from_id, Uint8Array_from_bytes.
Qed.

Lemma rehash_works (derived : list Z) :
  digestWorks SHA256 ->
  exists derived', rehash derived = Ok derived' /\
    length derived' = 32%nat /\ Forall byte derived'.
Proof.
  intros Hw. destruct (Hw derived) as (bytes & Hd & Hlen).
  exists (Uint8Array_from bytes). split; [|split].
  - apply rehash_digest; [exact Hd|]. destruct bytes; [discriminate|congruence].
  - now rewrite length_Uint8Array_from.
  - apply Uint8Array_from_bytes.
Qed.

Lemma deriveLoop_works (iterations : nat) (derived : list Z) :
  digestWorks SHA256 ->
  exists derived', deriveLoop iterations derived = Ok derived' /\
    (iterations <> O -> length derived' = 32%nat).
Proof.
  intros Hw. revert derived.
  induction iterations as [|n IH]; intros derived.
  - exists derived. split; [reflexivity|congruence].
  - destruct (rehash_works derived Hw) as (d1 & Hd1 & Hlen1 & _).
    destruct (IH d1) as (d2 & Hd2 & Hlen2).
    exists d2. cbn [deriveLoop]. rewrite Hd1. cbn [rbind]. split; [exact Hd2|].
    intros _. destruct n as [|n]; [|now apply Hlen2].
    cbn in Hd2. congruence.
Qed.

Lemma length_slice0 (l : list Z) (n : Z) :
  0 <= n -> length (slice0 l n) = Nat.min (Z.to_nat n) (length l).
Proof.
  intros Hn. unfold slice0. rewrite (proj2 (Z.ltb_ge n 0)) by lia.
  apply length_take.
Qed.

(** The key is twice as long (in hexadecimal digits) as the number of
    bytes kept, which is at most the 32 bytes of the digest. *)
Lemma deriveKey_works (password salt : jsstring) (iterations keyLength : Z) :
  digestWorks SHA256 ->
  exists key, deriveKey password salt iterations keyLength = Ok key /\
    (1 <= iterations -> 0 <= keyLength ->
     length key = (2 * Nat.min (Z.to_nat keyLength) 32)%nat).
Proof.
  intros Hw. unfold deriveKey.
  destruct (deriveLoop_works (Z.to_nat iterations)
              (TextEncoder_encode password ++ TextEncoder_encode salt) Hw)
    as (derived & Hd & Hlen).
  rewrite Hd. cbn [rbind]. eexists. split; [reflexivity|].
  intros Hit Hk. rewrite length_hex, length_slice0 by exact Hk.
  rewrite Hlen by lia. reflexivity.
Qed.

(** *** Encryption *)

(** The salt that [encrypt] and [hashPassword] use. *)
Lemma choose_salt (salt : option jsstring) (w : World) :
  exists salt' w',
    (if truthy salt then ret (default [] salt) else generateSalt 32) w
      = (Ok salt', w') /\
    items w' = items w /\ clock w' = clock w /\
    (truthy salt = true -> Some salt' = salt /\ w' = w).
Proof.
  destruct (truthy salt) eqn:E.
  - exists (default [] salt), w. repeat split; try reflexivity.
    destruct salt as [s|]; [reflexivity|discriminate].
  - eexists _, _. unfold generateSalt, generateRandomString, generateRandomBytes, bind, ret.
    cbn. split; [reflexivity|]. repeat split; discriminate.
Qed.

Lemma encrypt_returns (text password : jsstring) (salt : option jsstring) (w : World)
    (blob : EncryptedData) (w' : World) :
  encrypt text password salt w = (Ok blob, w') ->
  exists salt' key,
    deriveKey password salt' 10000 32 = Ok key /\
    blob = Envelope (xorBytes (TextEncoder_encode text) (TextEncoder_encode key)) salt' /\
    items w' = items w /\ clock w' = clock w.
Proof.
  unfold encrypt, bind at 1.
  destruct (choose_salt salt w) as (salt' & w1 & -> & Hi & Hc & _).
  unfold bind, lift, ret.
  destruct (deriveKey password salt' 10000 32) as [key|e] eqn:Hk; [|discriminate].
  intros [= <- <-]. now exists salt', key.
Qed.

Lemma encrypt_works (text password : jsstring) (salt : option jsstring) (w : World) :
  digestWorks SHA256 ->
  exists blob w', encrypt text password salt w = (Ok blob, w').
Proof.
  intros Hw. unfold encrypt, bind at 1.
  destruct (choose_salt salt w) as (salt' & w1 & -> & _).
  destruct (deriveKey_works password salt' 10000 32 Hw) as (key & Hk & _).
  unfold bind, lift, ret. rewrite Hk. eauto.
Qed.

(** Decryption of what [encrypt] returned: the plaintext, through the
    text encoder and decoder. *)
Lemma decrypt_after_encrypt (text password : jsstring) (salt : option jsstring)
    (w : World) (blob : EncryptedData) (w' : World) :
  Forall byte (TextEncoder_encode text) ->
  encrypt text password salt w = (Ok blob, w') ->
  decrypt blob password = Ok (TextDecoder_decode (TextEncoder_encode text)).
Proof.
  intros Hb (salt' & key & Hk & -> & _)%encrypt_returns.
  unfold decrypt. rewrite Hk. cbn [rbind].
  now rewrite xorBytes_twice.
Qed.

(** Decryption of a well-formed envelope returns, whatever the
    password. *)
Lemma decrypt_total (encrypted : list Z) (salt password : jsstring) :
  digestWorks SHA256 ->
  exists text, decrypt (Envelope encrypted salt) password = Ok text.
Proof.
  intros Hw. unfold decrypt.
  destruct (deriveKey_works password salt 10000 32 Hw) as (key & -> & _).
  cbn [rbind]. eauto.
Qed.

End WithPlatform.

Lemma sample_digestWorks (algorithm : CryptoDigestAlgorithm) :
  @digestWorks Sample.platform algorithm.
Proof.
  intros data. eexists. split; [reflexivity|].
  now rewrite length_map, length_seq.
Qed.

End CryptoFacts.

(** ** SecurityManager *)

Module WipeFacts.
Import SecureStore SecurityManager.

Section WithPlatform.
Context `{Platform}.

Lemma deleteAll_run (keys : list string) (w : World) :
  deleteAll keys w = (Ok tt, setItems w (remaining keys (items w))).
Proof.
  revert w. induction keys as [|key rest IH]; intros w.
  - destruct w. reflexivity.
  - cbn [deleteAll remaining]. unfold bind, try_catch, deleteItemAsync at 1, ret.
    destruct (deleteFails key); rewrite IH; reflexivity.
Qed.

Lemma lookup_remaining (keys : list string) (m : gmap string stored) (key : string) :
  remaining keys m !! key =
  if bool_decide (key ∈ keys) && negb (deleteFails key) then None else m !! key.
Proof.
  revert m. induction keys as [|k rest IH]; intros m; [reflexivity|].
  cbn [remaining]. rewrite IH.
  destruct (decide (key = k)) as [->|Hne].
  - rewrite (bool_decide_eq_true_2 (k ∈ k :: rest)) by apply list_elem_of_here.
    destruct (deleteFails k); cbn [negb andb].
    + now rewrite andb_false_r.
    + rewrite lookup_delete_eq. now destruct (bool_decide _).
  - assert (E : bool_decide (key ∈ k :: rest) = bool_decide (key ∈ rest))
      by (apply bool_decide_ext; rewrite elem_of_cons; tauto).
    rewrite E. destruct (deleteFails k); [reflexivity|].
    now rewrite lookup_delete_ne by congruence.
Qed.

Lemma emergencyWipe_run (w : World) :
  emergencyWipe w = (Ok tt, setItems w (remaining keys (items w))).
Proof.
  unfold emergencyWipe, try_catch, bind, clearSensitiveData, ret.
  now rewrite deleteAll_run.
Qed.

(** C3: [emergencyWipe] returns normally and removes from the store exactly
    the entries [masterPassword], [vaultItems], [biometricEnabled],
    [twoFactorEnabled], [hasSetupPassword], [hasCompletedOnboarding],
    [sessionTimeout] and [authSettings] (those of them whose deletion the
    store carries out); every other entry is as before.  In particular
    [masterPasswordHash], [passwordSalt] and [twoFactorConfig], the entries
    under which [storeMasterPassword] and [setup2FA] keep the password hash,
    its salt, the encrypted TOTP secret and the recovery codes, are still
    in the store after the wipe. *)
Theorem emergencyWipe_frame (w : World) :
  let w' := (emergencyWipe w).2 in
  (emergencyWipe w).1 = Ok tt /\
  (forall key : string,
     items w' !! key =
     if bool_decide
          (key ∈ ["masterPassword"; "vaultItems"; "biometricEnabled";
                  "twoFactorEnabled"; "hasSetupPassword";
                  "hasCompletedOnboarding"; "sessionTimeout";
                  "authSettings"]%string)
        && negb (deleteFails key)
     then None else items w !! key) /\
  items w' !! "masterPasswordHash"%string = items w !! "masterPasswordHash"%string /\
  items w' !! "passwordSalt"%string = items w !! "passwordSalt"%string /\
  items w' !! "twoFactorConfig"%string = items w !! "twoFactorConfig"%string.
Proof.
  rewrite emergencyWipe_run. cbn [fst snd setItems items].
  split; [reflexivity|].
  assert (Hall : forall key, remaining keys (items w) !! key = _)
    by (intros key; apply lookup_remaining).
  split; [exact Hall|].
  repeat split; rewrite Hall; reflexivity.
Qed.

End WithPlatform.
End WipeFacts.

(** ** Claims about CryptoUtils *)

Module CryptoClaims.
Import JS Text JSFacts CryptoUtils CryptoFacts.

(** C1, as amended: for every well-formed text (no unpaired surrogate)
    that does not begin with the byte order mark U+FEFF, every password and
    every optional salt, [encrypt] returns a blob that [decrypt] turns back
    into exactly that text under the same password, whenever the SHA-256
    primitive works.  The empty text and texts with multi-byte characters
    are included. *)
Theorem decrypt_encrypt `{Platform} (text password : jsstring)
    (salt : option jsstring) (w : World) :
  digestWorks SHA256 ->
  isWellFormed text = true ->
  head text <> Some 0xFEFF ->
  exists blob w',
    encrypt text password salt w = (Ok blob, w') /\
    decrypt blob password = Ok text.
Proof.
  intros Hw Hwf Hbom.
  destruct (encrypt_works text password salt w Hw) as (blob & w' & He).
  exists blob, w'. split; [exact He|].
  rewrite (decrypt_after_encrypt _ _ _ _ _ _ (TextEncoder_bytes text Hwf) He).
  now rewrite TextDecoder_TextEncoder.
Qed.

(** A text of a two-byte character (U+00E4) and a four-byte character
    (U+1F510, a surrogate pair) survives the round trip on the sample
    platform. *)
Lemma decrypt_encrypt_witness :
  @digestWorks Sample.platform SHA256 /\
  isWellFormed [0xE4; 0xD83D; 0xDD10] = true /\
  head [0xE4; 0xD83D; 0xDD10] <> Some 0xFEFF /\
  exists blob w',
    @encrypt Sample.platform [0xE4; 0xD83D; 0xDD10] (lit "correct horse") None
      Sample.emptyWorld = (Ok blob, w') /\
    @decrypt Sample.platform blob (lit "correct horse") = Ok [0xE4; 0xD83D; 0xDD10].
Proof.
  split; [apply sample_digestWorks|].
  split; [reflexivity|].
  split; [discriminate|].
  apply (@decrypt_encrypt Sample.platform);
    [apply sample_digestWorks | reflexivity | discriminate].
Defined.

(** C1, as stated, fails: the text made of U+FEFF and the letter a is
    encrypted without error, and decrypting the result under the same
    password gives the letter a alone. *)
Lemma decrypt_encrypt_drops_bom :
  exists blob w',
    @encrypt Sample.platform [0xFEFF; 97] (lit "correct horse") None
      Sample.emptyWorld = (Ok blob, w') /\
    @decrypt Sample.platform blob (lit "correct horse") = Ok [97] /\
    @decrypt Sample.platform blob (lit "correct horse") <> Ok [0xFEFF; 97].
Proof.
  destruct (@encrypt_works Sample.platform [0xFEFF; 97] (lit "correct horse") None
              Sample.emptyWorld (sample_digestWorks SHA256)) as (blob & w' & He).
  exists blob, w'. split; [exact He|].
  assert (Hd : @decrypt Sample.platform blob (lit "correct horse") = Ok [97]).
  { rewrite (@decrypt_after_encrypt Sample.platform _ _ _ _ _ _
               (TextEncoder_bytes [0xFEFF; 97] eq_refl) He).
    reflexivity. }
  split; [exact Hd|]. rewrite Hd. discriminate.
Qed.

(** An unpaired surrogate does not survive either: it comes back as
    U+FFFD. *)
Lemma lone_surrogate_is_replaced :
  exists blob w',
    @encrypt Sample.platform [0xD800] (lit "correct horse") None
      Sample.emptyWorld = (Ok blob, w') /\
    @decrypt Sample.platform blob (lit "correct horse") = Ok [0xFFFD].
Proof.
  destruct (@encrypt_works Sample.platform [0xD800] (lit "correct horse") None
              Sample.emptyWorld (sample_digestWorks SHA256)) as (blob & w' & He).
  exists blob, w'. split; [exact He|].
  assert (Hb : Forall byte (TextEncoder_encode [0xD800])).
  { change (TextEncoder_encode [0xD800]) with [0xEF; 0xBF; 0xBD].
    repeat constructor; unfold byte; lia. }
  rewrite (@decrypt_after_encrypt Sample.platform _ _ _ _ _ _ Hb He).
  reflexivity.
Qed.

(** C2: under a working SHA-256, [deriveKey] with at least one iteration
    returns a key of hexadecimal digits for [min keyLength 32] bytes: the
    requested number of bytes up to the 32 of the digest, and only 32 for
    any longer request, such as the 64 that [hashPassword] asks for.  The
    output is not extended. *)
Theorem deriveKey_length `{Platform} (password salt : jsstring)
    (iterations keyLength : Z) :
  digestWorks SHA256 ->
  1 <= iterations ->
  1 <= keyLength ->
  exists key,
    deriveKey password salt iterations keyLength = Ok key /\
    length key = (2 * Z.to_nat (Z.min keyLength 32))%nat /\
    (32 < keyLength -> (length key < 2 * Z.to_nat keyLength)%nat).
Proof.
  intros Hw Hit Hk.
  destruct (deriveKey_works password salt iterations keyLength Hw)
    as (key & Hkey & Hlen).
  exists key. split; [exact Hkey|].
  rewrite Hlen by lia. split; lia.
Qed.

(** The key derived for [hashPassword] has 64 hexadecimal digits, that is
    32 bytes, where 64 bytes were requested. *)
Lemma deriveKey_length_witness :
  @digestWorks Sample.platform SHA256 /\ 1 <= 10000 /\ 1 <= 64 /\
  exists key,
    @deriveKey Sample.platform (lit "password") (lit "salt") 10000 64 = Ok key /\
    length key = (2 * Z.to_nat (Z.min 64 32))%nat /\
    (32 < 64 -> (length key < 2 * Z.to_nat 64)%nat).
Proof.
  split; [apply sample_digestWorks|].
  split; [lia|]. split; [lia|].
  apply (@deriveKey_length Sample.platform); [apply sample_digestWorks|lia|lia].
Defined.

End CryptoClaims.

(** ** TOTPManager *)

Module TOTPFacts.
Import JS Text TOTPManager.

Lemma fold_lor_zero (pairs : list (Z * Z)) (result : Z) :
  fold_left (fun result p => Z.lor result (Z.lxor (fst p) (snd p))) pairs result = 0
  <-> result = 0 /\ Forall (fun p => fst p = snd p) pairs.
Proof.
  revert result. induction pairs as [|[x y] pairs IH]; intros result; cbn.
  - split; [intros ->; split; [reflexivity|constructor]|now intros [-> _]].
  - rewrite IH, Z.lor_eq_0_iff. split.
    + intros [[-> Hxy] Hall]. split; [reflexivity|].
      constructor; [now apply Z.lxor_eq|exact Hall].
    + intros [-> Hall]. inversion Hall as [|? ? Hxy Hall']; subst. cbn in Hxy. subst.
      now rewrite Z.lxor_nilpotent.
Qed.

Lemma combine_equal (a b : jsstring) :
  length a = length b ->
  Forall (fun p => fst p = snd p) (combine a b) -> a = b.
Proof.
  revert b. induction a as [|x a IH]; intros [|y b] Hlen Hall; try discriminate.
  - reflexivity.
  - cbn in *. inversion Hall as [|? ? Hxy Hall']; subst. cbn in Hxy. subst.
    f_equal. apply IH; [lia|assumption].
Qed.

Lemma combine_diag (a : jsstring) :
  Forall (fun p => fst p = snd p) (combine a a).
Proof. induction a; constructor; auto. Qed.

(** The comparison in constant time decides equality of strings. *)
Lemma constantTimeCompare_eq (a b : jsstring) :
  constantTimeCompare a b = bool_decide (a = b).
Proof.
  unfold constantTimeCompare.
  destruct (Nat.eqb_spec (length a) (length b)) as [Hlen|Hlen]; cbn [negb].
  - destruct (Z.eqb_spec (fold_left (fun result p => Z.lor result (Z.lxor p.1 p.2))
                            (combine a b) 0) 0) as [E|E].
    + apply fold_lor_zero in E as [_ E].
      symmetry. apply bool_decide_eq_true_2. now apply combine_equal.
    + symmetry. apply bool_decide_eq_false_2. intros ->. apply E.
      apply fold_lor_zero. split; [reflexivity|apply combine_diag].
  - symmetry. apply bool_decide_eq_false_2. congruence.
Qed.

Lemma window_values : window = [-1; 0; 1].
Proof. reflexivity. Qed.

Section WithPlatform.
Context `{Platform}.

(** [verifyTOTP] and [generateTOTP] read the clock and leave the world as
    it is. *)
Lemma verifyTOTP_run (token secret : jsstring) (config : option PartialTOTPConfig)
    (w : World) :
  verifyTOTP token secret config w =
  (verifyWindow (fullConfig secret config) token
     (currentTimeStep (clock w) (period (fullConfig secret config))) window, w).
Proof. reflexivity. Qed.

Lemma generateTOTP_run (secret : jsstring) (config : option PartialTOTPConfig)
    (w : World) :
  generateTOTP secret config w =
  (generateTOTPForTimeStep (fullConfig secret config)
     (currentTimeStep (clock w) (period (fullConfig secret config))), w).
Proof. reflexivity. Qed.

(** The outcome of the window when the three codes can be computed. *)
Lemma verifyWindow_codes (fullConfig : TOTPConfig) (token : jsstring) (step : Z)
    (before current after : jsstring) :
  generateTOTPForTimeStep fullConfig (step - 1) = Ok before ->
  generateTOTPForTimeStep fullConfig step = Ok current ->
  generateTOTPForTimeStep fullConfig (step + 1) = Ok after ->
  verifyWindow fullConfig token step window =
  Ok (if bool_decide (token = before)
      then {| valid := true; timeStep := Some (step - 1) |}
      else if bool_decide (token = current)
      then {| valid := true; timeStep := Some step |}
      else if bool_decide (token = after)
      then {| valid := true; timeStep := Some (step + 1) |}
      else {| valid := false; timeStep := None |}).
Proof.
  intros Hb Hc Ha. rewrite window_values. cbn [verifyWindow].
  replace (step + -1) with (step - 1) by lia.
  replace (step + 0) with step by lia.
  rewrite Hb, Hc, Ha. cbn [rbind]. rewrite !constantTimeCompare_eq.
  repeat case_bool_decide; reflexivity.
Qed.

(** With a working SHA-1 the codes of the default configuration can be
    computed. *)
Lemma hash_works (data : list Z) :
  digestWorks SHA1 ->
  exists h, hash data "SHA1" = Ok h /\ length h = 20%nat.
Proof.
  intros Hw. destruct (Hw data) as (bytes & Hd & Hlen).
  unfold hash, digestStringAsync. cbn [String.eqb Ascii.eqb Bool.eqb rbind].
  rewrite Hd. cbn [rbind]. eexists. split; [reflexivity|].
  rewrite CryptoFacts.length_Uint8Array_from, length_map,
    CryptoFacts.alignedPairs_hex, length_map,
    CryptoFacts.length_Uint8Array_from.
  exact Hlen.
Qed.

Lemma hmac_works (key data : list Z) :
  digestWorks SHA1 -> exists h, hmac key data "SHA1" = Ok h.
Proof.
  intros Hw. unfold hmac.
  assert (Hkey : exists keyBytes,
            (if (64 <? length key)%nat then hash key "SHA1" else Ok key)
              = Ok keyBytes /\ (length keyBytes <= 64)%nat).
  { destruct (Nat.ltb_spec 64 (length key)).
    - destruct (hash_works key Hw) as (h & -> & Hlen). exists h. split; [reflexivity|lia].
    - exists key. split; [reflexivity|lia]. }
  destruct Hkey as (keyBytes & -> & Hlen). cbn [rbind].
  rewrite (proj2 (Nat.ltb_ge 64 (length keyBytes))) by lia. cbn [rbind].
  match goal with
  | |- context [hash ?d "SHA1"] => destruct (hash_works d Hw) as (inner & -> & _)
  end.
  cbn [rbind].
  match goal with
  | |- context [hash ?d "SHA1"] => destruct (hash_works d Hw) as (outer & -> & _)
  end.
  eauto.
Qed.

Lemma generateTOTPForTimeStep_works (secret : jsstring) (timeStep : Z) :
  digestWorks SHA1 ->
  exists code, generateTOTPForTimeStep (fullConfig secret None) timeStep = Ok code.
Proof.
  intros Hw. unfold generateTOTPForTimeStep.
  change (algorithm (fullConfig secret None)) with "SHA1"%string.
  destruct (hmac_works (base32Decode (TOTPManager.secret (fullConfig secret None)))
              (timeBuffer timeStep) Hw) as (h & ->).
  cbn [rbind]. eauto.
Qed.

(** The code of the current time step is accepted. *)
Lemma verifyTOTP_current (secret code : jsstring) (w : World) :
  digestWorks SHA1 ->
  generateTOTP secret None w = (Ok code, w) ->
  exists matched,
    verifyTOTP code secret None w =
    (Ok {| valid := true; timeStep := Some matched |}, w).
Proof.
  intros Hw Hgen. rewrite generateTOTP_run in Hgen. injection Hgen as Hgen.
  set (cfg := fullConfig secret None) in *.
  set (step := currentTimeStep (clock w) (period cfg)) in *.
  destruct (generateTOTPForTimeStep_works secret (step - 1) Hw) as (before & Hb).
  destruct (generateTOTPForTimeStep_works secret (step + 1) Hw) as (after & Ha).
  rewrite verifyTOTP_run. fold cfg. fold step.
  rewrite (verifyWindow_codes cfg code step before code after Hb Hgen Ha).
  case_bool_decide; [eauto|].
  rewrite bool_decide_eq_true_2 by reflexivity. eauto.
Qed.

Lemma length_padStart0 (n : nat) (s : jsstring) :
  (n <= length (padStart0 n s))%nat.
Proof. unfold padStart0. rewrite length_app, repeat_length. lia. Qed.

Lemma generateTOTPForTimeStep_length (config : TOTPConfig) (timeStep : Z)
    (code : jsstring) :
  generateTOTPForTimeStep config timeStep = Ok code ->
  (digits config <= length code)%nat.
Proof.
  unfold generateTOTPForTimeStep.
  destruct (hmac _ _ _) as [h|e]; [|discriminate]. cbn [rbind].
  intros [= <-]. apply length_padStart0.
Qed.

(** A token that the window accepts is as long as a code. *)
Lemma verifyWindow_valid (config : TOTPConfig) (token : jsstring) (step : Z)
    (offsets : list Z) (r : TOTPVerificationResult) :
  verifyWindow config token step offsets = Ok r ->
  valid r = true ->
  (digits config <= length token)%nat.
Proof.
  induction offsets as [|i offsets IH]; cbn [verifyWindow].
  - intros [= <-]. discriminate.
  - destruct (generateTOTPForTimeStep config (step + i)) as [code|e] eqn:E;
      [|discriminate]. cbn [rbind].
    rewrite constantTimeCompare_eq. case_bool_decide as Heq; [|exact IH].
    intros _ _. subst token. eapply generateTOTPForTimeStep_length. exact E.
Qed.

End WithPlatform.
End TOTPFacts.

Module TOTPClaims.
Import JS Text TOTPManager TOTPFacts.

(** C5: let [step] be the time step of the verification time, and let the
    codes of [step - 1], [step] and [step + 1] be computable.  Then
    [verifyTOTP] returns [valid = true] with the first of these three time
    steps whose code equals the token, and [valid = false] without a time
    step when the token equals none of the three codes.  In particular a
    code generated at a time whose step is within one of [step] verifies. *)
Theorem verifyTOTP_window `{Platform} (token secret : jsstring)
    (config : option PartialTOTPConfig) (w : World)
    (before current after : jsstring) :
  let cfg := fullConfig secret config in
  let step := currentTimeStep (clock w) (period cfg) in
  generateTOTPForTimeStep cfg (step - 1) = Ok before ->
  generateTOTPForTimeStep cfg step = Ok current ->
  generateTOTPForTimeStep cfg (step + 1) = Ok after ->
  verifyTOTP token secret config w =
    (Ok (if bool_decide (token = before)
         then {| valid := true; timeStep := Some (step - 1) |}
         else if bool_decide (token = current)
         then {| valid := true; timeStep := Some step |}
         else if bool_decide (token = after)
         then {| valid := true; timeStep := Some (step + 1) |}
         else {| valid := false; timeStep := None |}), w) /\
  (forall (w0 : World) (code : jsstring),
     generateTOTP secret config w0 = (Ok code, w0) ->
     step - 1 <= currentTimeStep (clock w0) (period cfg) <= step + 1 ->
     exists matched,
       verifyTOTP code secret config w =
         (Ok {| valid := true; timeStep := Some matched |}, w) /\
       step - 1 <= matched <= step + 1).
Proof.
  intros cfg step Hb Hc Ha.
  assert (Hrun : forall token', verifyTOTP token' secret config w = (_, w))
    by (intros token'; rewrite verifyTOTP_run;
        fold cfg; fold step;
        rewrite (verifyWindow_codes _ _ _ _ _ _ Hb Hc Ha); reflexivity).
  split; [apply Hrun|].
  intros w0 code Hgen Hnear. rewrite generateTOTP_run in Hgen.
  set (step0 := currentTimeStep (clock w0) (period cfg)) in *.
  assert (Hcode : generateTOTPForTimeStep cfg step0 = Ok code)
    by (injection Hgen as Hgen; exact Hgen).
  rewrite Hrun.
  destruct (decide (code = before)) as [Eb|Nb].
  { rewrite (bool_decide_eq_true_2 _ Eb).
    exists (step - 1). split; [reflexivity|lia]. }
  rewrite (bool_decide_eq_false_2 _ Nb).
  destruct (decide (code = current)) as [Ec|Nc].
  { rewrite (bool_decide_eq_true_2 _ Ec).
    exists step. split; [reflexivity|lia]. }
  rewrite (bool_decide_eq_false_2 _ Nc).
  destruct (decide (code = after)) as [Ea|Na].
  { rewrite (bool_decide_eq_true_2 _ Ea).
    exists (step + 1). split; [reflexivity|lia]. }
  exfalso.
  assert (Hcases : step0 = step - 1 \/ step0 = step \/ step0 = step + 1) by lia.
  destruct Hcases as [E|[E|E]]; rewrite E in Hcode; congruence.
Qed.

(** On the sample platform at the sample time (step 56666666) the codes of
    the secret JBSWY3DPEHPK3PXP are 730960, 711744 and 176176; the code of
    the next step is accepted with that step. *)
Lemma verifyTOTP_window_witness :
  let cfg := fullConfig (lit "JBSWY3DPEHPK3PXP") None in
  let step := currentTimeStep (clock Sample.emptyWorld) (period cfg) in
  @generateTOTPForTimeStep Sample.platform cfg (step - 1) = Ok (lit "730960") /\
  @generateTOTPForTimeStep Sample.platform cfg step = Ok (lit "711744") /\
  @generateTOTPForTimeStep Sample.platform cfg (step + 1) = Ok (lit "176176") /\
  @verifyTOTP Sample.platform (lit "176176") (lit "JBSWY3DPEHPK3PXP") None
     Sample.emptyWorld =
    (Ok {| valid := true; timeStep := Some 56666667 |}, Sample.emptyWorld).
Proof.
  intros cfg step.
  assert (Hb : @generateTOTPForTimeStep Sample.platform cfg (step - 1)
               = Ok (lit "730960")) by (vm_compute; reflexivity).
  assert (Hc : @generateTOTPForTimeStep Sample.platform cfg step
               = Ok (lit "711744")) by (vm_compute; reflexivity).
  assert (Ha : @generateTOTPForTimeStep Sample.platform cfg (step + 1)
               = Ok (lit "176176")) by (vm_compute; reflexivity).
  split; [exact Hb|]. split; [exact Hc|]. split; [exact Ha|].
  exact (proj1 (@verifyTOTP_window Sample.platform (lit "176176")
                  (lit "JBSWY3DPEHPK3PXP") None Sample.emptyWorld
                  _ _ _ Hb Hc Ha)).
Defined.

End TOTPClaims.

(** ** JSON texts of string arrays *)

Module JSONFacts.
Import JS Text JSFacts CryptoFacts JSON.

Lemma run_app (st : state) (a b : jsstring) :
  run st (a ++ b) =
  match run st a with
  | Some st' => run st' b
  | None => None
  end.
Proof.
  revert st. induction a as [|u a IH]; intros st; [reflexivity|].
  cbn [app run]. destruct (step st u); [apply IH|reflexivity].
Qed.

Lemma step_plain (done : list jsstring) (acc : jsstring) (u : Z) :
  32 <= u -> u <> 34 -> u <> 92 ->
  step (InString done acc) u = Some (InString done (u :: acc)).
Proof. intros H1 H2 H3. cbn [step]. decide_tests. reflexivity. Qed.

Lemma run_unicodeEscape (done : list jsstring) (acc rest : jsstring) (u : Z) :
  0 <= u < 0x10000 ->
  run (InString done acc) (unicodeEscape u ++ rest) =
  run (InString done (u :: acc)) rest.
Proof.
  intros Hu. unfold unicodeEscape.
  cbn [app run step Z.eqb Pos.eqb Z.ltb Z.compare Pos.compare Pos.compare_cont].
  do 4 (rewrite hexValue_hexDigit by lia; cbn [Nat.pred run step]).
  do 3 f_equal. lia.
Qed.

Lemma run_quoteUnit (done : list jsstring) (acc rest : jsstring) (u : Z) :
  0 <= u < 0x10000 ->
  run (InString done acc) (quoteUnit u ++ rest) =
  run (InString done (u :: acc)) rest.
Proof.
  intros Hu. unfold quoteUnit.
  destruct (Z.eqb_spec u 8) as [->|]; [reflexivity|].
  destruct (Z.eqb_spec u 9) as [->|]; [reflexivity|].
  destruct (Z.eqb_spec u 10) as [->|]; [reflexivity|].
  destruct (Z.eqb_spec u 12) as [->|]; [reflexivity|].
  destruct (Z.eqb_spec u 13) as [->|]; [reflexivity|].
  destruct (Z.eqb_spec u 34) as [->|]; [reflexivity|].
  destruct (Z.eqb_spec u 92) as [->|]; [reflexivity|].
  destruct ((u <? 32) || is_high u || is_low u) eqn:E.
  - now apply run_unicodeEscape.
  - apply orb_false_iff in E as [[E _]%orb_false_iff _].
    cbn [app run]. rewrite step_plain by lia. reflexivity.
Qed.

Lemma rev_cons_app {A : Type} (x : A) (l acc : list A) :
  rev (x :: l) ++ acc = rev l ++ x :: acc.
Proof. cbn [rev]. now rewrite <- app_assoc. Qed.

Lemma codeUnits_inv (u : Z) (s : jsstring) :
  codeUnits (u :: s) -> 0 <= u < 0x10000 /\ codeUnits s.
Proof. intros Hs. inversion Hs; subst. auto. Qed.

(** Reading the characters of a quoted string gives the string back. *)
Lemma run_quoteBody (s : jsstring) :
  codeUnits s ->
  forall (done : list jsstring) (acc rest : jsstring),
    run (InString done acc) (quoteBody s ++ rest) =
    run (InString done (rev s ++ acc)) rest.
Proof.
  induction s as [|u|u v s IH1 IH2] using pairwise_ind; intros Hs done acc rest.
  - reflexivity.
  - apply codeUnits_inv in Hs as [Hu _].
    cbn [quoteBody]. destruct (is_high u); [|rewrite app_nil_r];
      now rewrite run_quoteUnit.
  - apply codeUnits_inv in Hs as [Hu Hs].
    pose proof Hs as Hvs. apply codeUnits_inv in Hs as [Hv Hs].
    rewrite !rev_cons_app.
    change (quoteBody (u :: v :: s)) with
      (if is_high u
       then if is_low v then u :: v :: quoteBody s
            else quoteUnit u ++ quoteBody (v :: s)
       else quoteUnit u ++ quoteBody (v :: s)).
    destruct (is_high u) eqn:Hh; [destruct (is_low v) eqn:Hl|].
    + unfold is_high, is_low in Hh, Hl. cbn [app run].
      rewrite !step_plain by lia. now apply IH1.
    + rewrite <- app_assoc, run_quoteUnit by exact Hu.
      rewrite (IH2 Hvs). now rewrite rev_cons_app.
    + rewrite <- app_assoc, run_quoteUnit by exact Hu.
      rewrite (IH2 Hvs). now rewrite rev_cons_app.
Qed.

Lemma run_quote_Next (s : jsstring) (done : list jsstring) (rest : jsstring) :
  codeUnits s ->
  run (Next done) (quote s ++ rest) = run (After (s :: done)) rest.
Proof.
  intros Hs. unfold quote. cbn [app run step isWhitespace Z.eqb Pos.eqb orb].
  rewrite <- app_assoc, run_quoteBody by exact Hs.
  cbn [app run step Z.eqb Pos.eqb]. now rewrite app_nil_r, rev_involutive.
Qed.

Lemma run_quote_First (s : jsstring) (rest : jsstring) :
  codeUnits s ->
  run First (quote s ++ rest) = run (After [s]) rest.
Proof.
  intros Hs. unfold quote. cbn [app run step isWhitespace Z.eqb Pos.eqb orb].
  rewrite <- app_assoc, run_quoteBody by exact Hs.
  cbn [app run step Z.eqb Pos.eqb]. now rewrite app_nil_r, rev_involutive.
Qed.

Lemma joinComma_cons (t : jsstring) (texts : list jsstring) :
  joinComma (t :: texts) = t ++ flat_map (fun t' => 44 :: t') texts.
Proof.
  revert t. induction texts as [|t' texts IH]; intros t.
  - cbn. now rewrite app_nil_r.
  - change (joinComma (t :: t' :: texts)) with (t ++ 44 :: joinComma (t' :: texts)).
    now rewrite IH.
Qed.

Lemma run_more (codes : list jsstring) (done : list jsstring) (rest : jsstring) :
  Forall codeUnits codes ->
  run (After done) (flat_map (fun t => 44 :: t) (map quote codes) ++ rest) =
  run (After (rev codes ++ done)) rest.
Proof.
  intros Hc. revert done. induction Hc as [|c codes Hs _ IH]; intros done.
  - reflexivity.
  - cbn [map flat_map]. rewrite <- app_assoc.
    change ((44 :: quote c) ++ ?x) with (44 :: (quote c ++ x)).
    cbn [run step isWhitespace Z.eqb Pos.eqb orb].
    rewrite run_quote_Next by exact Hs. rewrite IH. now rewrite rev_cons_app.
Qed.

(** [JSON.parse] undoes [JSON.stringify] on arrays of strings. *)
Lemma parse_stringify (codes : list jsstring) :
  Forall codeUnits codes -> parse (stringify codes) = Some codes.
Proof.
  intros Hc. unfold parse, stringify.
  cbn [run step isWhitespace Z.eqb Pos.eqb orb].
  destruct Hc as [|c codes Hs Hc]; [reflexivity|].
  cbn [map]. rewrite joinComma_cons, <- !app_assoc.
  rewrite run_quote_First by exact Hs. rewrite run_more by exact Hc.
  cbn [run step isWhitespace Z.eqb Pos.eqb orb].
  now rewrite rev_app_distr, rev_involutive.
Qed.

(** *** The text is well formed *)

Lemma isWellFormed_app (a b : jsstring) :
  isWellFormed a = true -> isWellFormed b = true -> isWellFormed (a ++ b) = true.
Proof.
  intros Ha Hb. induction a as [|u|u v a IH1 IH2] using pairwise_ind.
  - exact Hb.
  - apply isWellFormed_inv in Ha as [(_ & v & s' & [=] & _)|(Hh & Hl & Hu & _)].
    cbn [app]. rewrite isWellFormed_cons, Hh, Hl, Hb.
    cbn [negb andb]. lia.
  - cbn [app]. rewrite isWellFormed_cons.
    apply isWellFormed_inv in Ha
      as [(Hh & v' & s' & [= <- <-] & Hl & Hs)|(Hh & Hl & Hu & Hs)].
    + rewrite Hh, Hl. now apply IH1.
    + rewrite Hh, Hl. change (v :: a ++ b) with ((v :: a) ++ b).
      rewrite (IH2 Hs). cbn [negb andb]. lia.
Qed.

Lemma isWellFormed_ascii (s : jsstring) :
  Forall (fun u => 0 <= u < 128) s -> isWellFormed s = true.
Proof.
  induction 1 as [|u s Hu _ IH]; [reflexivity|].
  rewrite isWellFormed_cons, IH. unfold is_high, is_low. decide_tests.
  reflexivity.
Qed.

Lemma hexDigit_ascii (n : Z) : 0 <= n < 16 -> 0 <= hexDigit n < 128.
Proof. intros Hn. unfold hexDigit. destruct (n <? 10); lia. Qed.

Lemma isWellFormed_quoteUnit (u : Z) :
  0 <= u < 0x10000 -> isWellFormed (quoteUnit u) = true.
Proof.
  intros Hu. unfold quoteUnit.
  repeat match goal with
         | |- context [Z.eqb u ?k] => destruct (Z.eqb_spec u k); [reflexivity|]
         end.
  destruct ((u <? 32) || is_high u || is_low u) eqn:E.
  - apply isWellFormed_ascii. unfold unicodeEscape.
    repeat constructor; try lia; apply hexDigit_ascii; lia.
  - apply orb_false_iff in E as [[E Hh]%orb_false_iff Hl].
    rewrite isWellFormed_cons, Hh, Hl. decide_tests. reflexivity.
Qed.

Lemma isWellFormed_quoteBody (s : jsstring) :
  codeUnits s -> isWellFormed (quoteBody s) = true.
Proof.
  induction s as [|u|u v s IH1 IH2] using pairwise_ind; intros Hs.
  - reflexivity.
  - apply codeUnits_inv in Hs as [Hu _]. cbn [quoteBody].
    destruct (is_high u); [|rewrite app_nil_r]; now apply isWellFormed_quoteUnit.
  - apply codeUnits_inv in Hs as [Hu Hs].
    pose proof Hs as Hvs. apply codeUnits_inv in Hs as [Hv Hs].
    change (quoteBody (u :: v :: s)) with
      (if is_high u
       then if is_low v then u :: v :: quoteBody s
            else quoteUnit u ++ quoteBody (v :: s)
       else quoteUnit u ++ quoteBody (v :: s)).
    destruct (is_high u) eqn:Hh; [destruct (is_low v) eqn:Hl|].
    + rewrite isWellFormed_cons, Hh, Hl. now apply IH1.
    + apply isWellFormed_app; [now apply isWellFormed_quoteUnit|now apply IH2].
    + apply isWellFormed_app; [now apply isWellFormed_quoteUnit|now apply IH2].
Qed.

Lemma isWellFormed_quote (s : jsstring) :
  codeUnits s -> isWellFormed (quote s) = true.
Proof.
  intros Hs. unfold quote. change (34 :: ?x) with ([34] ++ x).
  repeat apply isWellFormed_app; try reflexivity.
  now apply isWellFormed_quoteBody.
Qed.

Lemma isWellFormed_stringify (codes : list jsstring) :
  Forall codeUnits codes -> isWellFormed (stringify codes) = true.
Proof.
  intros Hc. unfold stringify. change (91 :: ?x) with ([91] ++ x).
  repeat apply isWellFormed_app; try reflexivity.
  induction Hc as [|c codes Hs Hc IH]; [reflexivity|].
  cbn [map]. rewrite joinComma_cons.
  apply isWellFormed_app; [now apply isWellFormed_quote|].
  clear IH. induction Hc as [|c' codes Hs' _ IH]; [reflexivity|].
  cbn [map flat_map]. change (44 :: ?x) with ([44] ++ x). rewrite <- app_assoc.
  apply isWellFormed_app; [reflexivity|].
  apply isWellFormed_app; [now apply isWellFormed_quote|exact IH].
Qed.

(** The JSON text of a batch survives encryption and decryption. *)
Lemma decrypt_stringified_batch `{Platform} (codes : list jsstring)
    (password : jsstring) (salt : option jsstring) (w w' : World)
    (blob : EncryptedData) :
  Forall codeUnits codes ->
  CryptoUtils.encrypt (stringify codes) password salt w = (Ok blob, w') ->
  CryptoUtils.decrypt blob password = Ok (stringify codes).
Proof.
  intros Hc He.
  pose proof (isWellFormed_stringify codes Hc) as Hwf.
  rewrite (decrypt_after_encrypt _ _ _ _ _ _ (TextEncoder_bytes _ Hwf) He).
  rewrite TextDecoder_TextEncoder; [reflexivity|exact Hwf|discriminate].
Qed.

(** A text that starts with another character than a bracket or white
    space, such as a recovery code, is not the text of an array. *)
Lemma parse_not_array (u : Z) (text : jsstring) :
  isWhitespace u = false -> u <> 91 -> parse (u :: text) = None.
Proof.
  intros Hws Hu. unfold parse. cbn [run step]. rewrite Hws.
  now rewrite (proj2 (Z.eqb_neq u 91)).
Qed.

End JSONFacts.

(** ** AuthenticationManager *)

Module AuthFacts.
Import JS Text JSFacts SecureStore CryptoUtils CryptoFacts TOTPManager TOTPFacts
  AuthenticationManager.

Section WithPlatform.
Context `{Platform}.

Lemma present_text (v : stored) : present (Some v) = true <-> text v <> [].
Proof.
  destruct v as [[|u s]|c]; cbn; split; congruence.
Qed.

(** Reading the settings never throws and leaves the world as it is. *)
Lemma getAuthenticationSettings_run (w : World) :
  getAuthenticationSettings w =
  (Ok (if getFails "biometricEnabled" || getFails "hasSetupPassword"
          || getFails "twoFactorConfig"
       then {| hasPassword := false; biometricEnabled := false;
               twoFactorEnabled := false |}
       else {| hasPassword := isTrue (items w !! "hasSetupPassword"%string);
               biometricEnabled := isTrue (items w !! "biometricEnabled"%string);
               twoFactorEnabled := present (items w !! "twoFactorConfig"%string) |}),
   w).
Proof.
  unfold getAuthenticationSettings, try_catch, bind, getItemAsync, ret.
  destruct (getFails "biometricEnabled"); [reflexivity|].
  destruct (getFails "hasSetupPassword"); [reflexivity|].
  destruct (getFails "twoFactorConfig"); reflexivity.
Qed.

(** [hashPassword] with a salt that is not empty derives the key for that
    salt and draws no randomness. *)
Lemma hashPassword_salt (password salt : jsstring) (w : World) :
  salt <> [] ->
  hashPassword password (Some salt) w =
  match deriveKey password salt 10000 64 with
  | Ok key => (Ok {| CryptoUtils.hash := key; CryptoUtils.salt := salt |}, w)
  | Throw e => (Throw e, w)
  end.
Proof.
  intros Hs. unfold hashPassword, bind, lift, ret.
  destruct salt as [|u s]; [congruence|]. cbn [truthy].
  change (default [] (Some (u :: s))) with (u :: s).
  destruct (deriveKey password (u :: s) 10000 64); reflexivity.
Qed.

Lemma verifyPassword_salt (password storedHash salt : jsstring) (w : World) :
  salt <> [] ->
  verifyPassword password storedHash salt w =
  match deriveKey password salt 10000 64 with
  | Ok key => (Ok (bool_decide (key = storedHash)), w)
  | Throw e => (Throw e, w)
  end.
Proof.
  intros Hs. unfold verifyPassword, bind. rewrite hashPassword_salt by exact Hs.
  destruct (deriveKey password salt 10000 64); reflexivity.
Qed.

(** What [verifyMasterPassword] returns: it never throws, it leaves the
    world as it is, and it answers [true] exactly when both entries were
    read, neither is empty, and the stored hash is the key derived from the
    candidate and the stored salt. *)
Lemma verifyMasterPassword_run (password : jsstring) (w : World) :
  exists verified,
    verifyMasterPassword password w = (Ok verified, w) /\
    (verified = true <->
     getFails "masterPasswordHash" = false /\
     getFails "passwordSalt" = false /\
     exists storedHash salt,
       items w !! "masterPasswordHash"%string = Some storedHash /\
       items w !! "passwordSalt"%string = Some salt /\
       text storedHash <> [] /\ text salt <> [] /\
       deriveKey password (text salt) 10000 64 = Ok (text storedHash)).
Proof.
  unfold verifyMasterPassword, try_catch, bind, getItemAsync, ret.
  destruct (getFails "masterPasswordHash") eqn:G1.
  { exists false. split; [reflexivity|]. split; [discriminate|]. now intros [? _]. }
  destruct (getFails "passwordSalt") eqn:G2.
  { exists false. split; [reflexivity|]. split; [discriminate|]. now intros (_ & ? & _). }
  destruct (items w !! "masterPasswordHash"%string) as [h|] eqn:Eh.
  2: { exists false. split; [reflexivity|]. split; [discriminate|].
       now intros (_ & _ & ? & ? & ? & _). }
  destruct (items w !! "passwordSalt"%string) as [s|] eqn:Es.
  2: { exists false. split; [reflexivity|]. split; [discriminate|].
       now intros (_ & _ & ? & ? & _ & ? & _). }
  destruct (present (Some h)) eqn:Ph.
  2: { exists false. split; [reflexivity|]. split; [discriminate|].
       intros (_ & _ & h' & s' & [= <-] & _ & Hh & _).
       apply present_text in Hh. congruence. }
  destruct (present (Some s)) eqn:Ps.
  2: { exists false. split; [reflexivity|]. split; [discriminate|].
       intros (_ & _ & h' & s' & _ & [= <-] & _ & Hs & _).
       apply present_text in Hs. congruence. }
  cbn [negb orb]. apply present_text in Ph, Ps.
  rewrite verifyPassword_salt by exact Ps.
  destruct (deriveKey password (text s) 10000 64) as [key|e] eqn:Ek.
  2: { exists false. split; [reflexivity|]. split; [discriminate|].
       intros (_ & _ & h' & s' & _ & [= <-] & _ & _ & Hk). congruence. }
  exists (bool_decide (key = text h)). split; [reflexivity|]. split.
  - intros Hv%bool_decide_eq_true_1. subst key.
    repeat split. exists h, s. repeat split; assumption.
  - intros (_ & _ & h' & s' & [= <-] & [= <-] & _ & _ & Hk).
    apply bool_decide_eq_true_2. congruence.
Qed.

(** [verifyBiometric] never throws. *)
Lemma verifyBiometric_run (w : World) :
  verifyBiometric w =
  (Ok match authenticateAsync with Ok b => b | Throw _ => false end, w).
Proof.
  unfold verifyBiometric, try_catch, lift, ret.
  destruct authenticateAsync; reflexivity.
Qed.

(** [verifyTOTPCode] turns a failure of the computation into an invalid
    code. *)
Lemma verifyTOTPCode_run (providedCode secret : jsstring) (w : World) :
  verifyTOTPCode providedCode secret w =
  (Ok match (verifyTOTP providedCode secret None w).1 with
      | Ok r => valid r
      | Throw _ => false
      end, w).
Proof.
  unfold verifyTOTPCode, try_catch, bind, ret. rewrite verifyTOTP_run. cbn [fst].
  destruct (verifyWindow _ _ _ _); reflexivity.
Qed.

(** [verify2FA] never throws and leaves the world as it is. *)
Lemma verify2FA_run (providedCode masterPassword : jsstring) (w : World) :
  exists verified, verify2FA providedCode masterPassword w = (Ok verified, w).
Proof.
  unfold verify2FA, try_catch, bind, getItemAsync, getDeviceId, lift, ret.
  destruct (getFails "twoFactorConfig"); [now exists false|].
  destruct (items w !! "twoFactorConfig"%string) as [entry|]; [|now exists false].
  destruct (present (Some entry)); [|now exists false]. cbn [negb].
  destruct (parseConfig entry) as [c|e]; [|now exists false].
  destruct (decrypt _ _) as [secret|e]; [|now exists false].
  rewrite verifyTOTPCode_run. eauto.
Qed.

Lemma bind_ok {A B : Type} (m : M A) (k : A -> M B) (w w' : World) (a : A) :
  m w = (Ok a, w') -> bind m k w = k a w'.
Proof. intros E. unfold bind. now rewrite E. Qed.

Lemma hashPassword_works (password : jsstring) (salt : option jsstring) (w : World) :
  digestWorks SHA256 ->
  exists r w', hashPassword password salt w = (Ok r, w') /\
    length (CryptoUtils.hash r) = 64%nat.
Proof.
  intros Hw. unfold hashPassword.
  destruct (choose_salt salt w) as (salt' & w1 & Hs & _).
  rewrite (bind_ok _ _ _ _ _ Hs).
  destruct (deriveKey_works password salt' 10000 64 Hw) as (key & Hk & Hlen).
  unfold bind, lift, ret. rewrite Hk. eexists _, _. split; [reflexivity|].
  cbn. rewrite Hlen by lia. reflexivity.
Qed.

(** Only a code that is not empty passes [verify2FA]. *)
Lemma verify2FA_true (providedCode masterPassword : jsstring) (w w' : World) :
  verify2FA providedCode masterPassword w = (Ok true, w') -> providedCode <> [].
Proof.
  unfold verify2FA, try_catch, bind, getItemAsync, getDeviceId, lift, ret.
  destruct (getFails "twoFactorConfig"); [discriminate|].
  destruct (items w !! "twoFactorConfig"%string) as [entry|]; [|discriminate].
  destruct (present (Some entry)); [|discriminate]. cbn [negb].
  destruct (parseConfig entry) as [c|e]; [|discriminate].
  destruct (decrypt _ _) as [secret|e]; [|discriminate].
  rewrite verifyTOTPCode_run, verifyTOTP_run. cbn [fst].
  destruct (verifyWindow _ _ _ _) as [r|e] eqn:E; [|discriminate].
  intros [= Hv _] ->. apply verifyWindow_valid in E; [|exact Hv].
  change (6 <= 0)%nat in E. lia.
Qed.

(** The legacy loop never throws. *)
Lemma legacyLoop_run (fuel i : nat) (config : TwoFAConfig)
    (providedCode key : jsstring) (w : World) :
  exists verified w', legacyLoop fuel i config providedCode key w = (Ok verified, w').
Proof.
  revert i config w. induction fuel as [|fuel IH]; intros i config w; cbn [legacyLoop].
  - now exists false, w.
  - destruct (encryptedRecoveryCodes config !! i) as [blob|]; [|now exists false, w].
    destruct (decrypt blob key) as [code|e]; [|apply IH].
    case_bool_decide; [|apply IH].
    unfold try_catch, bind, setItemAsync, ret.
    destruct (setFails "twoFactorConfig"); [apply IH|eauto].
Qed.

(** [verifyRecoveryCode] never throws. *)
Lemma verifyRecoveryCode_run (providedCode masterPassword : jsstring) (w : World) :
  exists verified w',
    verifyRecoveryCode providedCode masterPassword w = (Ok verified, w').
Proof.
  unfold verifyRecoveryCode, try_catch at 1, bind at 1, getItemAsync.
  destruct (getFails "twoFactorConfig"); [now exists false, w|].
  destruct (items w !! "twoFactorConfig"%string) as [entry|]; [|now exists false, w].
  destruct (present (Some entry)); [|now exists false, w]. cbn [negb].
  unfold bind at 1, lift.
  destruct (parseConfig entry) as [c|e]; [|now exists false, w].
  unfold bind at 1, getDeviceId, ret at 1.
  destruct (length (encryptedRecoveryCodes c) =? 1)%nat.
  - match goal with
    | |- context [try_catch ?m ?h w] => destruct (try_catch m h w) as [r w'] eqn:E
    end.
    unfold try_catch in E.
    match type of E with
    | context [match ?x with _ => _ end] => destruct x as [[b|e] w1]
    end; injection E as <- <-; eauto.
  - destruct (legacyLoop_run (length (encryptedRecoveryCodes c)) 0 c providedCode
                (masterPassword ++ lit "device_unique_id" ++ lit "RECOVERY_CODE_SALT") w)
      as (b & w' & E).
    rewrite E. eauto.
Qed.

(** The key under which the recovery codes are encrypted. *)
Lemma recovery_key (masterPassword : jsstring) :
  masterPassword ++ lit "device_unique_id" ++ lit "RECOVERY_CODE_SALT" =
  recoveryKey masterPassword.
Proof. reflexivity. Qed.

(** [verifyRecoveryCode] on a stored batch: the candidate is looked up in
    the decrypted list; when found, its first occurrence is removed, the rest
    is encrypted again and stored. *)
Lemma verifyRecoveryCode_batch (candidate masterPassword : jsstring) (w : World)
    (c : TwoFAConfig) (blob : EncryptedData) (codes : list jsstring) :
  getFails "twoFactorConfig" = false ->
  items w !! "twoFactorConfig"%string = Some (ConfigJSON c) ->
  encryptedRecoveryCodes c = [blob] ->
  decrypt blob (recoveryKey masterPassword) = Ok (JSON.stringify codes) ->
  Forall codeUnits codes ->
  verifyRecoveryCode candidate masterPassword w =
  match indexOf codes candidate with
  | None => (Ok false, w)
  | Some i =>
      match encrypt (JSON.stringify (delete i codes))
                    (recoveryKey masterPassword) None w with
      | (Ok blob', w1) =>
          if setFails "twoFactorConfig" then (Ok false, w1)
          else (Ok true,
                setItems w1 (<["twoFactorConfig"%string :=
                                 ConfigJSON (withRecoveryCodes c [blob'])]> (items w1)))
      | (Throw _, w1) => (Ok false, w1)
      end
  end.
Proof.
  intros Hget Hitem Hone Hdec Hcodes.
  unfold verifyRecoveryCode, try_catch at 1, bind at 1, getItemAsync.
  rewrite Hget, Hitem. cbn [present negb parseConfig].
  unfold bind at 1, lift. unfold bind at 1, getDeviceId, ret at 1.
  rewrite Hone. cbn [length Nat.eqb head default from_option id].
  rewrite recovery_key.
  unfold try_catch, bind at 1, lift. rewrite Hdec.
  rewrite JSONFacts.parse_stringify by exact Hcodes.
  destruct (indexOf codes candidate) as [i|]; [|reflexivity].
  unfold bind at 1.
  destruct (encrypt _ _ None w) as [[blob'|e] w1]; [|reflexivity].
  unfold bind, setItemAsync, ret.
  destruct (setFails "twoFactorConfig"); reflexivity.
Qed.

Lemma indexOf_None (codes : list jsstring) (x : jsstring) :
  indexOf codes x = None <-> x ∉ codes.
Proof.
  induction codes as [|y codes IH]; cbn [indexOf].
  - split; [intros _; apply not_elem_of_nil|reflexivity].
  - case_bool_decide as E.
    + split; [discriminate|]. intros Hn. elim Hn. subst. apply list_elem_of_here.
    + destruct (indexOf codes x) as [i|] eqn:Ei; cbn.
      * split; [discriminate|]. intros Hn. exfalso.
        assert (Hc : x ∉ codes) by (intros Hin; apply Hn; now apply list_elem_of_further).
        apply IH in Hc. discriminate.
      * split; [|reflexivity]. intros _ Hin.
        apply elem_of_cons in Hin as [->|Hin]; [congruence|].
        now apply (proj1 IH).
Qed.

Lemma indexOf_Some (codes : list jsstring) (x : jsstring) (i : nat) :
  indexOf codes x = Some i -> codes !! i = Some x.
Proof.
  revert i. induction codes as [|y codes IH]; intros i; cbn [indexOf]; [discriminate|].
  case_bool_decide as E.
  - intros [= <-]. now subst.
  - destruct (indexOf codes x) as [j|]; [|discriminate]. cbn.
    intros [= <-]. now apply IH.
Qed.

(** Without duplicates, a code that was removed is no longer there. *)
Lemma removed_NoDup (codes : list jsstring) (x : jsstring) (i : nat) :
  NoDup codes -> codes !! i = Some x -> x ∉ delete i codes.
Proof.
  intros Hnd. revert i. induction Hnd as [|y codes Hy Hnd IH]; intros i Hi.
  - discriminate.
  - destruct i as [|i]; cbn in *.
    + injection Hi as ->. exact Hy.
    + intros Hin. apply elem_of_cons in Hin as [->|Hin].
      * apply Hy. eapply list_elem_of_lookup_2. exact Hi.
      * now apply (IH i Hi).
Qed.

Lemma codeUnits_delete (codes : list jsstring) (i : nat) :
  Forall codeUnits codes -> Forall codeUnits (delete i codes).
Proof.
  intros Hc. revert i. induction Hc as [|c codes Hs Hc IH]; intros [|i]; cbn;
    try constructor; auto.
Qed.

(** Consuming a code from a stored batch, when the store and SHA-256
    work. *)
Lemma consume_batch (candidate masterPassword : jsstring) (w : World)
    (c : TwoFAConfig) (blob : EncryptedData) (codes : list jsstring) :
  digestWorks SHA256 ->
  getFails "twoFactorConfig" = false ->
  setFails "twoFactorConfig" = false ->
  items w !! "twoFactorConfig"%string = Some (ConfigJSON c) ->
  encryptedRecoveryCodes c = [blob] ->
  decrypt blob (recoveryKey masterPassword) = Ok (JSON.stringify codes) ->
  Forall codeUnits codes ->
  match indexOf codes candidate with
  | Some i =>
      exists blob' w',
        verifyRecoveryCode candidate masterPassword w = (Ok true, w') /\
        items w' =
          <["twoFactorConfig"%string := ConfigJSON (withRecoveryCodes c [blob'])]>
            (items w) /\
        decrypt blob' (recoveryKey masterPassword) =
          Ok (JSON.stringify (delete i codes))
  | None => verifyRecoveryCode candidate masterPassword w = (Ok false, w)
  end.
Proof.
  intros Hw Hget Hset Hitem Hone Hdec Hcodes.
  rewrite (verifyRecoveryCode_batch _ _ _ _ _ _ Hget Hitem Hone Hdec Hcodes).
  destruct (indexOf codes candidate) as [i|]; [|reflexivity].
  destruct (encrypt_works (JSON.stringify (delete i codes))
              (recoveryKey masterPassword) None w Hw) as (blob' & w1 & He).
  rewrite He, Hset. eexists blob', _. split; [reflexivity|].
  pose proof (encrypt_returns _ _ _ _ _ _ He) as (_ & _ & _ & _ & Hi & _).
  cbn [items setItems]. rewrite Hi. split; [reflexivity|].
  eapply JSONFacts.decrypt_stringified_batch; [|exact He].
  now apply codeUnits_delete.
Qed.

(** A store that holds a single blob which decrypts to something else
    than the text of an array: the code is refused. *)
Lemma single_blob_not_array (candidate masterPassword : jsstring) (w : World)
    (c : TwoFAConfig) (blob : EncryptedData) (text : jsstring) :
  getFails "twoFactorConfig" = false ->
  items w !! "twoFactorConfig"%string = Some (ConfigJSON c) ->
  encryptedRecoveryCodes c = [blob] ->
  decrypt blob (recoveryKey masterPassword) = Ok text ->
  JSON.parse text = None ->
  verifyRecoveryCode candidate masterPassword w = (Ok false, w).
Proof.
  intros Hget Hitem Hone Hdec Hparse.
  unfold verifyRecoveryCode, try_catch at 1, bind at 1, getItemAsync.
  rewrite Hget, Hitem. cbn [present negb parseConfig].
  unfold bind at 1, lift. unfold bind at 1, getDeviceId, ret at 1.
  rewrite Hone. cbn [length Nat.eqb head default from_option id].
  rewrite recovery_key.
  unfold try_catch, bind at 1, lift. rewrite Hdec, Hparse.
  reflexivity.
Qed.

(** *** Setting up and then verifying *)

Lemma pick_length (chars : jsstring) (bytes : list Z) :
  length (pick chars bytes) = length bytes.
Proof. apply length_map. Qed.

Lemma pick_ascii (chars : jsstring) (bytes : list Z) :
  chars <> [] ->
  Forall (fun u => 0 <= u < 128) chars ->
  Forall (fun u => 0 <= u < 128) (pick chars bytes).
Proof.
  intros Hne Hc. unfold pick, charAt.
  induction bytes as [|b bytes IH]; constructor; [|exact IH].
  rewrite Forall_forall in Hc. apply Hc, list_elem_of_In, nth_In.
  assert (0 < Z.of_nat (length chars)) by (destruct chars; [congruence|cbn; lia]).
  pose proof (Z.mod_pos_bound b (Z.of_nat (length chars))). lia.
Qed.

Lemma base32Alphabet_ascii : Forall (fun u => 0 <= u < 128) base32Alphabet.
Proof.
  assert (Hb : forallb (fun u => (0 <=? u) && (u <? 128)) base32Alphabet = true)
    by reflexivity.
  rewrite forallb_forall in Hb. apply Forall_forall. intros u Hu.
  apply list_elem_of_In, Hb in Hu. lia.
Qed.

Lemma ascii_no_bom (s : jsstring) :
  Forall (fun u => 0 <= u < 128) s -> head s <> Some 0xFEFF.
Proof. intros Hs. destruct Hs as [|u s Hu _]; cbn; [discriminate|]. intros [= ->]. lia. Qed.

(** [hashPassword] without a salt draws one, which is not empty, and
    derives the hash for it. *)
Lemma hashPassword_fresh (password : jsstring) (w : World) :
  digestWorks SHA256 ->
  exists r w',
    hashPassword password None w = (Ok r, w') /\
    CryptoUtils.salt r <> [] /\ CryptoUtils.hash r <> [] /\
    deriveKey password (CryptoUtils.salt r) 10000 64 = Ok (CryptoUtils.hash r) /\
    items w' = items w /\ clock w' = clock w.
Proof.
  intros Hw. unfold hashPassword. cbn [truthy].
  unfold bind at 1, generateSalt, generateRandomString, bind at 1,
    generateRandomBytes, ret at 1.
  match goal with
  | |- context [deriveKey password ?s 10000 64] =>
      destruct (deriveKey_works password s 10000 64 Hw) as (key & Hk & Hlen);
      set (salt0 := s) in *
  end.
  unfold bind, lift, ret. rewrite Hk. eexists _, _. split; [reflexivity|].
  cbn [CryptoUtils.salt CryptoUtils.hash items clock].
  assert (Hsalt : length salt0 = 32%nat).
  { unfold salt0. now rewrite pick_length, length_Uint8Array_from, length_map, length_seq. }
  specialize (Hlen ltac:(lia) ltac:(lia)).
  repeat split; try reflexivity.
  - intros E. rewrite E in Hsalt. discriminate.
  - intros E. rewrite E in Hlen. discriminate.
  - exact Hk.
Qed.

Lemma storeMasterPassword_works (password : jsstring) (w : World) :
  digestWorks SHA256 ->
  setFails "masterPasswordHash" = false ->
  setFails "passwordSalt" = false ->
  setFails "hasSetupPassword" = false ->
  exists hash salt w',
    storeMasterPassword password w = (Ok tt, w') /\
    items w' =
      <["hasSetupPassword"%string := Plain (lit "true")]>
        (<["passwordSalt"%string := Plain salt]>
           (<["masterPasswordHash"%string := Plain hash]> (items w))) /\
    clock w' = clock w /\
    salt <> [] /\ hash <> [] /\
    deriveKey password salt 10000 64 = Ok hash.
Proof.
  intros Hw H1 H2 H3.
  destruct (hashPassword_fresh password w Hw) as (r & w1 & Hr & Hs & Hh & Hk & Hi & Hc).
  unfold storeMasterPassword, try_catch.
  rewrite (bind_ok _ _ _ _ _ Hr).
  unfold bind, setItemAsync. rewrite H1, H2, H3.
  exists (CryptoUtils.hash r), (CryptoUtils.salt r). eexists. split; [reflexivity|].
  cbn [items clock setItems]. rewrite Hi, Hc. auto.
Qed.

(** The password that was stored verifies, in any world that holds the
    two entries. *)
Lemma verifyMasterPassword_correct (password hash salt : jsstring) (w : World) :
  getFails "masterPasswordHash" = false ->
  getFails "passwordSalt" = false ->
  items w !! "masterPasswordHash"%string = Some (Plain hash) ->
  items w !! "passwordSalt"%string = Some (Plain salt) ->
  salt <> [] -> hash <> [] ->
  deriveKey password salt 10000 64 = Ok hash ->
  verifyMasterPassword password w = (Ok true, w).
Proof.
  intros G1 G2 Hh Hs Hsne Hhne Hk.
  unfold verifyMasterPassword, try_catch, bind, getItemAsync, ret.
  rewrite G1, G2, Hh, Hs.
  destruct hash as [|h0 hash]; [congruence|].
  destruct salt as [|s0 salt]; [congruence|].
  cbn [present negb orb text].
  rewrite verifyPassword_salt by discriminate. rewrite Hk.
  now rewrite bool_decide_eq_true_2.
Qed.

Lemma generateRandomString_run (length : nat) (w : World) :
  generateRandomString length w =
  (Ok (pick alphanumeric
         (Uint8Array_from (map (randomByte (draws w)) (seq 0 length)))),
   {| items := items w; clock := clock w; draws := S (draws w) |}).
Proof. reflexivity. Qed.

Lemma generateRecoveryCodes_run (count : nat) (w : World) :
  exists codes w',
    generateRecoveryCodes count w = (Ok codes, w') /\
    items w' = items w /\ clock w' = clock w.
Proof.
  revert w. induction count as [|n IH]; intros w.
  - now exists [], w.
  - cbn [generateRecoveryCodes].
    rewrite (bind_ok _ _ _ _ _ (generateRandomString_run 8 w)).
    destruct (IH {| items := items w; clock := clock w; draws := S (draws w) |})
      as (codes & w' & Hrun & Hi & Hc).
    rewrite (bind_ok _ _ _ _ _ Hrun). unfold ret. eexists _, _.
    split; [reflexivity|]. split; assumption.
Qed.

(** [setup2FA] stores a configuration whose secret blob decrypts, under the
    key of [verify2FA], to the secret that it returns. *)
Lemma setup2FA_works (masterPassword : jsstring) (w : World) :
  digestWorks SHA256 ->
  setFails "twoFactorConfig" = false ->
  exists r w',
    setup2FA masterPassword (lit "device_unique_id") w = (Ok r, w') /\
    items w' = <["twoFactorConfig"%string := ConfigJSON (config r)]> (items w) /\
    clock w' = clock w /\
    decrypt (encryptedSecret (config r))
      (masterPassword ++ lit "device_unique_id" ++ lit "TOTP_SECRET_SALT")
      = Ok (manualEntryKey r).
Proof.
  intros Hw Hset. unfold setup2FA, try_catch.
  set (wA := {| items := items w; clock := clock w; draws := S (draws w) |}).
  set (totpSecret :=
         pick base32Alphabet
           (Uint8Array_from (map (randomByte (draws w)) (seq 0 32)))).
  assert (HA : TOTPManager.generateSecret 32 w = (Ok totpSecret, wA))
    by reflexivity.
  rewrite (bind_ok _ _ _ _ _ HA).
  destruct (encrypt_works totpSecret
              (masterPassword ++ lit "device_unique_id" ++ lit "TOTP_SECRET_SALT")
              None wA Hw) as (blobS & wB & HeS).
  rewrite (bind_ok _ _ _ _ _ HeS).
  destruct (generateRecoveryCodes_run 8 wB) as (codes & wC & Hcodes & HiC & HcC).
  rewrite (bind_ok _ _ _ _ _ Hcodes).
  destruct (encrypt_works (JSON.stringify codes)
              (masterPassword ++ lit "device_unique_id" ++ lit "RECOVERY_CODE_SALT")
              None wC Hw) as (blobR & wD & HeR).
  rewrite (bind_ok _ _ _ _ _ HeR).
  unfold bind, TOTPManager.Date_now, setItemAsync, ret. rewrite Hset.
  eexists _, _. split; [reflexivity|].
  pose proof (encrypt_returns _ _ _ _ _ _ HeS) as (_ & _ & _ & _ & HiB & HcB).
  pose proof (encrypt_returns _ _ _ _ _ _ HeR) as (_ & _ & _ & _ & HiD & HcD).
  cbn [items clock setItems config manualEntryKey encryptedSecret] in *.
  rewrite HiD, HiC, HiB, HcD, HcC, HcB. split; [reflexivity|]. split; [reflexivity|].
  assert (Hascii : Forall (fun u => 0 <= u < 128) totpSecret).
  { apply pick_ascii; [discriminate|apply base32Alphabet_ascii]. }
  rewrite (decrypt_after_encrypt _ _ _ _ _ _
             (TextEncoder_bytes _ (JSONFacts.isWellFormed_ascii _ Hascii)) HeS).
  f_equal. apply TextDecoder_TextEncoder;
    [now apply JSONFacts.isWellFormed_ascii|now apply ascii_no_bom].
Qed.

(** A code that [verifyTOTP] accepts for the stored secret passes
    [verify2FA]. *)
Lemma verify2FA_correct (code masterPassword secret : jsstring) (w : World)
    (c : TwoFAConfig) (r : TOTPVerificationResult) :
  getFails "twoFactorConfig" = false ->
  items w !! "twoFactorConfig"%string = Some (ConfigJSON c) ->
  decrypt (encryptedSecret c)
    (masterPassword ++ lit "device_unique_id" ++ lit "TOTP_SECRET_SALT")
    = Ok secret ->
  verifyTOTP code secret None w = (Ok r, w) ->
  valid r = true ->
  verify2FA code masterPassword w = (Ok true, w).
Proof.
  intros Hget Hitem Hdec Hver Hvalid.
  unfold verify2FA, try_catch, bind, getItemAsync, getDeviceId, lift, ret.
  rewrite Hget, Hitem. cbn [present negb parseConfig]. rewrite Hdec.
  rewrite verifyTOTPCode_run, Hver. cbn [fst]. now rewrite Hvalid.
Qed.

(** After [storeMasterPassword] and [setup2FA], the settings say password
    and 2FA, the password verifies, and so does the code of the current time
    step. *)
Lemma after_setup (masterPassword code : jsstring) (w w1 w2 : World)
    (r : TwoFASetupResult) :
  digestWorks SHA256 -> digestWorks SHA1 ->
  (forall key, getFails key = false) ->
  (forall key, setFails key = false) ->
  isTrue (items w !! "biometricEnabled"%string) = false ->
  storeMasterPassword masterPassword w = (Ok tt, w1) ->
  setup2FA masterPassword (lit "device_unique_id") w1 = (Ok r, w2) ->
  (generateTOTP (manualEntryKey r) None w2).1 = Ok code ->
  (getAuthenticationSettings w2).1 =
    Ok {| hasPassword := true; biometricEnabled := false;
          twoFactorEnabled := true |} /\
  verifyMasterPassword masterPassword w2 = (Ok true, w2) /\
  verify2FA code masterPassword w2 = (Ok true, w2).
Proof.
  intros H256 H1 Hget Hset Hbio Hstore Hsetup Hcode.
  destruct (storeMasterPassword_works masterPassword w H256
              (Hset _) (Hset _) (Hset _))
    as (hash & salt & w1' & Hstore' & Hi1 & Hc1 & Hsalt & Hhash & Hk).
  rewrite Hstore in Hstore'. injection Hstore' as <-.
  destruct (setup2FA_works masterPassword w1 H256 (Hset _))
    as (r' & w2' & Hsetup' & Hi2 & Hc2 & Hdec).
  rewrite Hsetup in Hsetup'. injection Hsetup' as <- <-.
  split; [|split].
  - rewrite getAuthenticationSettings_run, !Hget. cbn [orb fst].
    rewrite Hi2, Hi1.
    rewrite (lookup_insert_eq _ "twoFactorConfig"%string).
    rewrite !(lookup_insert_ne _ "twoFactorConfig"%string) by discriminate.
    rewrite (lookup_insert_eq _ "hasSetupPassword"%string).
    rewrite !(lookup_insert_ne _ _ "biometricEnabled"%string) by discriminate.
    rewrite Hbio. reflexivity.
  - apply (verifyMasterPassword_correct _ hash salt);
      [apply Hget|apply Hget| | |exact Hsalt|exact Hhash|exact Hk];
      rewrite Hi2, Hi1.
    + rewrite !(lookup_insert_ne _ "twoFactorConfig"%string) by discriminate.
      rewrite !(lookup_insert_ne _ "hasSetupPassword"%string) by discriminate.
      rewrite !(lookup_insert_ne _ "passwordSalt"%string) by discriminate.
      apply lookup_insert_eq.
    + rewrite !(lookup_insert_ne _ "twoFactorConfig"%string) by discriminate.
      rewrite !(lookup_insert_ne _ "hasSetupPassword"%string) by discriminate.
      apply lookup_insert_eq.
  - rewrite generateTOTP_run in Hcode. cbn [fst] in Hcode.
    assert (Hgen : generateTOTP (manualEntryKey r) None w2 = (Ok code, w2))
      by (rewrite generateTOTP_run; now rewrite Hcode).
    destruct (verifyTOTP_current _ _ _ H1 Hgen) as (matched & Hver).
    eapply verify2FA_correct; [apply Hget| |exact Hdec|exact Hver|reflexivity].
    rewrite Hi2. apply lookup_insert_eq.
Qed.

(** *** The legacy format with more than one blob *)

(** The loop accepts the candidate at the first blob, from index [i] on,
    that decrypts to it, and stores the array without that blob. *)
Lemma legacyLoop_accepts (candidate key : jsstring) (fuel : nat) :
  setFails "twoFactorConfig" = false ->
  forall (i m : nat) (c : TwoFAConfig) (w : World) (blob : EncryptedData),
    (i <= m < i + fuel)%nat ->
    encryptedRecoveryCodes c !! m = Some blob ->
    decrypt blob key = Ok candidate ->
    exists m' blob',
      (i <= m' <= m)%nat /\
      encryptedRecoveryCodes c !! m' = Some blob' /\
      decrypt blob' key = Ok candidate /\
      legacyLoop fuel i c candidate key w =
      (Ok true,
       setItems w
         (<["twoFactorConfig"%string :=
              ConfigJSON (withRecoveryCodes c (delete m' (encryptedRecoveryCodes c)))]>
            (items w))).
Proof.
  intros Hset. induction fuel as [|fuel IH]; intros i m c w blob Hm Hblob Hdec.
  - lia.
  - cbn [legacyLoop].
    destruct (encryptedRecoveryCodes c !! i) as [b|] eqn:Eb.
    2: { apply lookup_ge_None in Eb. apply lookup_lt_Some in Hblob. lia. }
    assert (Hnext : i <> m ->
              exists m' blob',
                (i <= m' <= m)%nat /\
                encryptedRecoveryCodes c !! m' = Some blob' /\
                decrypt blob' key = Ok candidate /\
                legacyLoop fuel (S i) c candidate key w =
                (Ok true,
                 setItems w
                   (<["twoFactorConfig"%string :=
                        ConfigJSON
                          (withRecoveryCodes c
                             (delete m' (encryptedRecoveryCodes c)))]>
                      (items w)))).
    { intros Hne. destruct (IH (S i) m c w blob ltac:(lia) Hblob Hdec)
        as (m' & blob' & Hm' & Hb' & Hd' & Hrun).
      exists m', blob'. repeat split; try assumption; lia. }
    destruct (decrypt b key) as [code|e] eqn:Ed.
    + case_bool_decide as Hcode.
      * subst code. exists i, b. repeat split; try assumption; try lia.
        unfold try_catch, bind, setItemAsync, ret. now rewrite Hset.
      * apply Hnext. intros ->. rewrite Eb in Hblob. injection Hblob as <-.
        congruence.
    + apply Hnext. intros ->. rewrite Eb in Hblob. injection Hblob as <-.
      congruence.
Qed.

(** A store in the legacy format with another number of blobs than one:
    a candidate to which one of the blobs decrypts is accepted, and the
    first such blob is removed from the stored array. *)
Lemma legacy_code_accepted (candidate masterPassword : jsstring) (w : World)
    (c : TwoFAConfig) (m : nat) (blob : EncryptedData) :
  getFails "twoFactorConfig" = false ->
  setFails "twoFactorConfig" = false ->
  items w !! "twoFactorConfig"%string = Some (ConfigJSON c) ->
  length (encryptedRecoveryCodes c) <> 1%nat ->
  encryptedRecoveryCodes c !! m = Some blob ->
  decrypt blob (recoveryKey masterPassword) = Ok candidate ->
  exists m' blob',
    (m' <= m)%nat /\
    encryptedRecoveryCodes c !! m' = Some blob' /\
    decrypt blob' (recoveryKey masterPassword) = Ok candidate /\
    verifyRecoveryCode candidate masterPassword w =
    (Ok true,
     setItems w
       (<["twoFactorConfig"%string :=
            ConfigJSON (withRecoveryCodes c (delete m' (encryptedRecoveryCodes c)))]>
          (items w))).
Proof.
  intros Hget Hset Hitem Hlen Hblob Hdec.
  destruct (legacyLoop_accepts candidate (recoveryKey masterPassword)
              (length (encryptedRecoveryCodes c)) Hset 0 m c w blob)
    as (m' & blob' & Hm' & Hb' & Hd' & Hrun); [|exact Hblob|exact Hdec|].
  { apply lookup_lt_Some in Hblob. lia. }
  exists m', blob'. repeat split; try assumption; try lia.
  unfold verifyRecoveryCode, try_catch, bind at 1, getItemAsync.
  rewrite Hget, Hitem. cbn [present negb parseConfig].
  unfold bind at 1, lift. unfold bind at 1, getDeviceId, ret at 1.
  rewrite (proj2 (Nat.eqb_neq _ _) Hlen), recovery_key, Hrun. reflexivity.
Qed.

(** *** What a wipe leaves behind *)

(** After [storeMasterPassword] and [setup2FA], [emergencyWipe] removes the
    flag [hasSetupPassword] and leaves the hash, the salt and the
    configuration of the second factor in the store. *)
Lemma credentials_survive_wipe (masterPassword : jsstring) (w : World) :
  digestWorks SHA256 ->
  (forall key, setFails key = false) ->
  (forall key, deleteFails key = false) ->
  exists hash salt r w1 w2 w3,
    storeMasterPassword masterPassword w = (Ok tt, w1) /\
    setup2FA masterPassword (lit "device_unique_id") w1 = (Ok r, w2) /\
    SecurityManager.emergencyWipe w2 = (Ok tt, w3) /\
    items w3 !! "hasSetupPassword"%string = None /\
    items w3 !! "masterPasswordHash"%string = Some (Plain hash) /\
    items w3 !! "passwordSalt"%string = Some (Plain salt) /\
    items w3 !! "twoFactorConfig"%string = Some (ConfigJSON (config r)) /\
    deriveKey masterPassword salt 10000 64 = Ok hash.
Proof.
  intros H256 Hset Hdel.
  destruct (storeMasterPassword_works masterPassword w H256
              (Hset _) (Hset _) (Hset _))
    as (hash & salt & w1 & Hstore & Hi1 & _ & _ & _ & Hk).
  destruct (setup2FA_works masterPassword w1 H256 (Hset _))
    as (r & w2 & Hsetup & Hi2 & _).
  exists hash, salt, r, w1, w2. eexists.
  split; [exact Hstore|]. split; [exact Hsetup|].
  split; [apply WipeFacts.emergencyWipe_run|].
  cbn [items setItems]. rewrite !WipeFacts.lookup_remaining, !Hdel.
  cbn [negb andb]. rewrite Hi2, Hi1.
  repeat split; try exact Hk.
  - rewrite (lookup_insert_ne _ "twoFactorConfig"%string) by discriminate.
    rewrite (lookup_insert_ne _ "hasSetupPassword"%string) by discriminate.
    rewrite (lookup_insert_ne _ "passwordSalt"%string) by discriminate.
    apply lookup_insert_eq.
  - rewrite (lookup_insert_ne _ "twoFactorConfig"%string) by discriminate.
    rewrite (lookup_insert_ne _ "hasSetupPassword"%string) by discriminate.
    apply lookup_insert_eq.
  - apply lookup_insert_eq.
Qed.

(** The final check, spelled out. *)
Lemma validate_required (results : AuthResults) (settings : AuthSettings) :
  validateAuthenticationResults results (getRequiredAuthMethods settings) =
  implb (hasPassword settings) (passwordValid results)
  && implb (biometricEnabled settings) (biometricValid results)
  && implb (twoFactorEnabled settings) (twoFactorValid results).
Proof.
  destruct settings as [[] [] []], results as [[] [] [] ? ?]; reflexivity.
Qed.

(** With an empty password in the credentials the password step is
    skipped, and the final check fails when a password is set up. *)
Lemma authenticateUser_empty_password (w : World) (code : jsstring)
    (biometric : option bool) (recovery : option jsstring) :
  (getAuthenticationSettings w).1 =
    Ok {| hasPassword := true; biometricEnabled := false;
          twoFactorEnabled := true |} ->
  verify2FA code [] w = (Ok true, w) ->
  authenticateUser
    {| password := Some []; requestBiometric := biometric;
       twoFactorCode := Some code; recoveryCode := recovery |} w =
  (Ok {| passwordValid := false; biometricValid := false;
         twoFactorValid := true; success := false; error := None |}, w).
Proof.
  intros Hset H2fa.
  pose proof (verify2FA_true _ _ _ _ H2fa) as Hcode.
  rewrite getAuthenticationSettings_run in Hset. cbn [fst] in Hset.
  injection Hset as Hset.
  unfold authenticateUser, try_catch.
  rewrite (bind_ok _ _ _ _ _ (getAuthenticationSettings_run w)), Hset.
  cbn [password requestBiometric twoFactorCode recoveryCode toString
       hasPassword biometricEnabled twoFactorEnabled].
  destruct code as [|c code]; [congruence|].
  cbn [truthy andb negb].
  unfold bind at 1, ret at 1. cbn [andb negb].
  unfold bind at 1, ret at 1. cbn [andb negb].
  rewrite (bind_ok _ _ _ _ _ H2fa). cbn [andb negb].
  reflexivity.
Qed.

(** When the settings cannot be read, nothing is required: empty
    credentials are accepted, whatever the store holds. *)
Lemma authenticateUser_settings_unreadable (w : World) :
  getFails "biometricEnabled" = true ->
  authenticateUser
    {| password := None; requestBiometric := None;
       twoFactorCode := None; recoveryCode := None |} w =
  (Ok {| passwordValid := false; biometricValid := false;
         twoFactorValid := false; success := true; error := None |}, w).
Proof.
  intros Hfail. unfold authenticateUser, try_catch.
  rewrite (bind_ok _ _ _ _ _ (getAuthenticationSettings_run w)), Hfail.
  reflexivity.
Qed.

(** The final check, spelled out again for the claims. *)
End WithPlatform.

(** *** The sample worlds *)

Lemma sample_after_setup (password : jsstring) :
  (@getAuthenticationSettings Sample.platform (Sample.afterSetup password)).1 =
    Ok {| hasPassword := true; biometricEnabled := false;
          twoFactorEnabled := true |} /\
  @verifyMasterPassword Sample.platform password (Sample.afterSetup password)
    = (Ok true, Sample.afterSetup password) /\
  @verify2FA Sample.platform (Sample.currentCode password) password
    (Sample.afterSetup password) = (Ok true, Sample.afterSetup password).
Proof.
  destruct (@storeMasterPassword_works Sample.platform password
              Sample.emptyWorld (sample_digestWorks SHA256) eq_refl eq_refl eq_refl)
    as (hash & salt & w1 & Hstore & _).
  destruct (@setup2FA_works Sample.platform password w1
              (sample_digestWorks SHA256) eq_refl)
    as (r & w2 & Hsetup & _).
  destruct (@generateTOTPForTimeStep_works Sample.platform (manualEntryKey r)
              (currentTimeStep (clock w2) 30) (sample_digestWorks SHA1))
    as (code & Hcode).
  assert (Ew2 : Sample.afterSetup password = w2)
    by (unfold Sample.afterSetup; rewrite Hstore; cbn [snd]; now rewrite Hsetup).
  assert (Esecret : Sample.totpSecret password = manualEntryKey r)
    by (unfold Sample.totpSecret; rewrite Hstore; cbn [snd]; now rewrite Hsetup).
  assert (Hgen : (@generateTOTP Sample.platform (manualEntryKey r) None w2).1 = Ok code)
    by (rewrite generateTOTP_run; exact Hcode).
  assert (Ecode : Sample.currentCode password = code)
    by (unfold Sample.currentCode; rewrite Esecret, Ew2, Hgen; reflexivity).
  rewrite Ew2, Ecode.
  apply (@after_setup Sample.platform password code Sample.emptyWorld w1 w2 r);
    first [ assumption | apply sample_digestWorks | reflexivity ].
Qed.

Lemma sample_encrypted (text password : jsstring) :
  isWellFormed text = true -> head text <> Some 0xFEFF ->
  @decrypt Sample.platform (Sample.encrypted text password) password = Ok text.
Proof.
  intros Hwf Hbom. unfold Sample.encrypted.
  destruct (@encrypt_works Sample.platform text password None Sample.emptyWorld
              (sample_digestWorks SHA256)) as (blob & w' & He).
  rewrite He. cbn [fst].
  rewrite (@decrypt_after_encrypt Sample.platform _ _ _ _ _ _
             (TextEncoder_bytes text Hwf) He).
  now rewrite TextDecoder_TextEncoder.
Qed.

Lemma sample_batch (codes : list jsstring) :
  Forall codeUnits codes ->
  @decrypt Sample.platform
    (Sample.encrypted (JSON.stringify codes) (recoveryKey Sample.masterPassword))
    (recoveryKey Sample.masterPassword) = Ok (JSON.stringify codes).
Proof.
  intros Hc. apply sample_encrypted; [|discriminate].
  now apply JSONFacts.isWellFormed_stringify.
Qed.

End AuthFacts.

Module AuthClaims.
Import JS Text SecureStore CryptoUtils CryptoFacts TOTPManager TOTPFacts
  AuthenticationManager AuthFacts.



(** The sibling path: when the computation throws during verification, the
    code is reported as invalid. *)
Lemma verifyTOTPCode_invalid_on_failure `{Platform} (providedCode secret : jsstring)
    (w : World) (message : string) :
  (verifyTOTP providedCode secret None w).1 = Throw message ->
  verifyTOTPCode providedCode secret w = (Ok false, w).
Proof. intros E. now rewrite verifyTOTPCode_run, E. Qed.

(** C8: [verifyMasterPassword] never throws and leaves the world as it is.
    It answers [true] exactly if the store let both entries be read, both
    are present and not empty, and the stored hash is the key derived from
    the candidate and the stored salt; so a missing or malformed record, a
    failure of the store while reading and a failure of the derivation all
    give [false], never [true].
    [verifyPassword], given any stored hash and salt, returns without
    throwing when SHA-256 works, and returns [false] for a stored hash that
    does not have the 64 characters of a hash. *)
Theorem verifyMasterPassword_fails_closed `{Platform} (password : jsstring)
    (w : World) :
  (exists verified,
     verifyMasterPassword password w = (Ok verified, w) /\
     (verified = true <->
      getFails "masterPasswordHash" = false /\
      getFails "passwordSalt" = false /\
      exists storedHash salt,
        items w !! "masterPasswordHash"%string = Some storedHash /\
        items w !! "passwordSalt"%string = Some salt /\
        text storedHash <> [] /\ text salt <> [] /\
        deriveKey password (text salt) 10000 64 = Ok (text storedHash))) /\
  (forall storedHash salt : jsstring,
     digestWorks SHA256 ->
     exists verified w',
       verifyPassword password storedHash salt w = (Ok verified, w') /\
       (length storedHash <> 64%nat -> verified = false)).
Proof.
  split; [apply verifyMasterPassword_run|].
  intros storedHash salt Hw. unfold verifyPassword.
  destruct (hashPassword_works password (Some salt) w Hw) as (r & w' & Hr & Hlen).
  rewrite (bind_ok _ _ _ _ _ Hr). eexists _, _. split; [reflexivity|].
  intros Hne. apply bool_decide_eq_false_2. congruence.
Qed.

(** C9, as amended: when the settings read from the store say that a
    password is set up, biometric authentication is disabled and 2FA is
    enabled, and the credentials carry a master password that is not empty
    and verifies, and a TOTP code that verifies, [authenticateUser] returns
    [success = true]. *)
Theorem authenticateUser_password_and_2FA `{Platform} (w : World)
    (masterPassword code : jsstring) (biometric : option bool)
    (recovery : option jsstring) :
  (getAuthenticationSettings w).1 =
    Ok {| hasPassword := true; biometricEnabled := false;
          twoFactorEnabled := true |} ->
  masterPassword <> [] ->
  verifyMasterPassword masterPassword w = (Ok true, w) ->
  verify2FA code masterPassword w = (Ok true, w) ->
  authenticateUser
    {| password := Some masterPassword; requestBiometric := biometric;
       twoFactorCode := Some code; recoveryCode := recovery |} w =
  (Ok {| passwordValid := true; biometricValid := false;
         twoFactorValid := true; success := true; error := None |}, w).
Proof.
  intros Hset Hpw Hverify H2fa.
  pose proof (verify2FA_true _ _ _ _ H2fa) as Hcode.
  rewrite getAuthenticationSettings_run in Hset. cbn [fst] in Hset.
  injection Hset as Hset.
  unfold authenticateUser, try_catch.
  rewrite (bind_ok _ _ _ _ _ (getAuthenticationSettings_run w)), Hset.
  cbn [password requestBiometric twoFactorCode recoveryCode toString
       hasPassword biometricEnabled twoFactorEnabled].
  destruct masterPassword as [|u pw]; [congruence|].
  destruct code as [|c code]; [congruence|].
  cbn [truthy andb negb].
  rewrite (bind_ok _ _ _ _ _ Hverify). cbn [andb negb].
  unfold bind at 1, ret at 1. cbn [andb negb].
  rewrite (bind_ok _ _ _ _ _ H2fa). cbn [andb negb].
  reflexivity.
Qed.

(** After the password and the second factor have been set up on the
    sample platform, the password and the code of the current time step
    authenticate. *)
Lemma authenticateUser_password_and_2FA_witness :
  let w := Sample.afterSetup Sample.masterPassword in
  let code := Sample.currentCode Sample.masterPassword in
  (@getAuthenticationSettings Sample.platform w).1 =
    Ok {| hasPassword := true; biometricEnabled := false;
          twoFactorEnabled := true |} /\
  Sample.masterPassword <> [] /\
  @verifyMasterPassword Sample.platform Sample.masterPassword w = (Ok true, w) /\
  @verify2FA Sample.platform code Sample.masterPassword w = (Ok true, w) /\
  @authenticateUser Sample.platform
    {| password := Some Sample.masterPassword; requestBiometric := None;
       twoFactorCode := Some code; recoveryCode := None |} w =
  (Ok {| passwordValid := true; biometricValid := false;
         twoFactorValid := true; success := true; error := None |}, w).
Proof.
  intros w code.
  destruct (sample_after_setup Sample.masterPassword) as (Hs & Hp & H2).
  assert (Hne : Sample.masterPassword <> []) by (cbv; discriminate).
  split; [exact Hs|]. split; [exact Hne|]. split; [exact Hp|]. split; [exact H2|].
  exact (@authenticateUser_password_and_2FA Sample.platform w
           Sample.masterPassword code None None Hs Hne Hp H2).
Defined.

(** C9, as stated, fails for the empty master password: after it has been
    set up together with the second factor, it verifies and so does the code
    of the current time step, yet [authenticateUser] skips the password step
    for the empty string and returns [success = false]. *)
Lemma authenticateUser_empty_master_password :
  let w := Sample.afterSetup [] in
  let code := Sample.currentCode [] in
  (@getAuthenticationSettings Sample.platform w).1 =
    Ok {| hasPassword := true; biometricEnabled := false;
          twoFactorEnabled := true |} /\
  @verifyMasterPassword Sample.platform [] w = (Ok true, w) /\
  @verify2FA Sample.platform code [] w = (Ok true, w) /\
  @authenticateUser Sample.platform
    {| password := Some []; requestBiometric := None;
       twoFactorCode := Some code; recoveryCode := None |} w =
  (Ok {| passwordValid := false; biometricValid := false;
         twoFactorValid := true; success := false; error := None |}, w).
Proof.
  intros w code.
  destruct (sample_after_setup []) as (Hs & Hp & H2).
  split; [exact Hs|]. split; [exact Hp|]. split; [exact H2|].
  now apply (@authenticateUser_empty_password Sample.platform).
Qed.

Lemma truthy_Some (o : option jsstring) :
  truthy o = true -> exists s, o = Some s /\ s <> [] /\ toString o = s.
Proof.
  destruct o as [[|u s]|]; try discriminate. intros _.
  exists (u :: s). repeat split. discriminate.
Qed.

(** What a success of [authenticateUser] implies, in terms of the settings
    that [getAuthenticationSettings] returned at the start of the call:
    every factor that they enable was verified in that call. *)
Lemma authenticateUser_success_inv `{Platform}
    (credentials : AuthCredentials) (w w' : World) (settings : AuthSettings)
    (results : AuthResults) :
  (getAuthenticationSettings w).1 = Ok settings ->
  authenticateUser credentials w = (Ok results, w') ->
  success results = true ->
  (hasPassword settings = true ->
   exists pw,
     password credentials = Some pw /\ pw <> [] /\
     verifyMasterPassword pw w = (Ok true, w)) /\
  (biometricEnabled settings = true ->
   requestBiometric credentials = Some true /\
   verifyBiometric w = (Ok true, w)) /\
  (twoFactorEnabled settings = true ->
   (exists code,
      twoFactorCode credentials = Some code /\ code <> [] /\
      verify2FA code (toString (password credentials)) w = (Ok true, w)) \/
   (exists code,
      truthy (twoFactorCode credentials) = false /\
      recoveryCode credentials = Some code /\ code <> [] /\
      (verifyRecoveryCode code (toString (password credentials)) w).1 = Ok true)).
Proof.
  intros Hset Hrun Hsucc.
  rewrite getAuthenticationSettings_run in Hset. cbn [fst] in Hset.
  injection Hset as Hset.
  unfold authenticateUser, try_catch in Hrun.
  rewrite (bind_ok _ _ _ _ _ (getAuthenticationSettings_run w)), Hset in Hrun.
  (* the password step *)
  destruct (verifyMasterPassword_run (toString (password credentials)) w)
    as (pv & Hpv & _).
  assert (Hstep1 : exists pv',
    (if truthy (password credentials)
     then verifyMasterPassword (toString (password credentials))
     else ret false) w = (Ok pv', w) /\
    (pv' = true -> truthy (password credentials) = true /\ pv = true)).
  { destruct (truthy (password credentials)).
    - exists pv. split; [exact Hpv|]. auto.
    - exists false. split; [reflexivity|discriminate]. }
  destruct Hstep1 as (pv' & Hstep1 & Hpv').
  rewrite (bind_ok _ _ _ _ _ Hstep1) in Hrun.
  destruct (truthy (password credentials) && negb pv') eqn:Efail1.
  { injection Hrun as <- _. discriminate. }
  (* the biometric step *)
  set (attempt := biometricEnabled settings
                  && bool_decide (requestBiometric credentials = Some true)) in *.
  assert (Hstep2 : exists bv,
    (if attempt then verifyBiometric else ret false) w = (Ok bv, w) /\
    (bv = true -> attempt = true /\ verifyBiometric w = (Ok true, w))).
  { destruct attempt.
    - rewrite verifyBiometric_run. eexists. split; [reflexivity|].
      intros ->. auto.
    - exists false. split; [reflexivity|discriminate]. }
  destruct Hstep2 as (bv & Hstep2 & Hbv).
  rewrite (bind_ok _ _ _ _ _ Hstep2) in Hrun.
  destruct (attempt && negb bv) eqn:Efail2.
  { injection Hrun as <- _. discriminate. }
  (* the 2FA step *)
  match type of Hrun with
  | context [bind ?m _ w] => destruct (m w) as [[tv|e] w2] eqn:Hstep3
  end; unfold bind in Hrun; rewrite Hstep3 in Hrun.
  2: { injection Hrun as <- _. discriminate. }
  destruct (twoFactorEnabled settings && negb tv) eqn:Efail3.
  { injection Hrun as <- _. discriminate. }
  injection Hrun as <- _. cbn [success] in Hsucc.
  rewrite validate_required in Hsucc.
  cbn [passwordValid biometricValid twoFactorValid] in Hsucc.
  apply andb_true_iff in Hsucc as [[Hp Hb]%andb_true_iff Ht].
  split; [|split].
  - intros Hen. rewrite Hen in Hp. cbn in Hp.
    destruct (Hpv' Hp) as [Tp ->].
    apply truthy_Some in Tp as (pw & Epw & Hne & Es).
    exists pw. rewrite Es in Hpv. auto.
  - intros Hen. rewrite Hen in Hb. cbn in Hb.
    destruct (Hbv Hb) as [Hat Hbio]. split; [|exact Hbio].
    unfold attempt in Hat. apply andb_true_iff in Hat as [_ Hreq].
    now apply bool_decide_eq_true_1 in Hreq.
  - intros Hen. rewrite Hen in Ht, Hstep3. cbn in Ht. subst tv.
    destruct (truthy (twoFactorCode credentials)) eqn:Tc.
    + left. apply truthy_Some in Tc as (code & Ec & Hne & Es).
      exists code. rewrite Es in Hstep3.
      destruct (verify2FA_run code (toString (password credentials)) w)
        as (b & Hb2).
      rewrite Hb2 in Hstep3. injection Hstep3 as -> _. auto.
    + right. destruct (truthy (recoveryCode credentials)) eqn:Tr;
        [|discriminate].
      apply truthy_Some in Tr as (code & Ec & Hne & Es).
      exists code. rewrite Es in Hstep3. rewrite Hstep3. auto.
Qed.

(** C10, as amended: when the three entries of the settings can be read
    from the store, [authenticateUser] returns [success = true] only if
    every factor that the store enables was verified in that call: the
    password of the credentials (present and not empty) passed
    [verifyMasterPassword] when the entry hasSetupPassword is the text true;
    biometric was requested and passed when the entry biometricEnabled is
    the text true; and, when there is an entry twoFactorConfig, the TOTP
    code of the credentials passed [verify2FA] or, no TOTP code being given,
    their recovery code passed [verifyRecoveryCode].  So credentials that
    leave out an enabled factor give [success = false]. *)
Theorem authenticateUser_requires_enabled_factors `{Platform}
    (credentials : AuthCredentials) (w w' : World) (results : AuthResults) :
  getFails "biometricEnabled" = false ->
  getFails "hasSetupPassword" = false ->
  getFails "twoFactorConfig" = false ->
  authenticateUser credentials w = (Ok results, w') ->
  success results = true ->
  (isTrue (items w !! "hasSetupPassword"%string) = true ->
   exists pw,
     password credentials = Some pw /\ pw <> [] /\
     verifyMasterPassword pw w = (Ok true, w)) /\
  (isTrue (items w !! "biometricEnabled"%string) = true ->
   requestBiometric credentials = Some true /\
   verifyBiometric w = (Ok true, w)) /\
  (present (items w !! "twoFactorConfig"%string) = true ->
   (exists code,
      twoFactorCode credentials = Some code /\ code <> [] /\
      verify2FA code (toString (password credentials)) w = (Ok true, w)) \/
   (exists code,
      truthy (twoFactorCode credentials) = false /\
      recoveryCode credentials = Some code /\ code <> [] /\
      (verifyRecoveryCode code (toString (password credentials)) w).1 = Ok true)).
Proof.
  intros Hb Hp Ht Hrun Hsucc.
  pose proof (getAuthenticationSettings_run w) as Hset.
  rewrite Hb, Hp, Ht in Hset. cbn [orb] in Hset.
  apply (f_equal fst) in Hset. cbn [fst] in Hset.
  exact (authenticateUser_success_inv credentials w w' _ results Hset Hrun Hsucc).
Qed.

(** With biometric authentication alone enabled, credentials that request
    it authenticate on the sample platform, whose prompt succeeds. *)
Lemma authenticateUser_requires_enabled_factors_witness :
  let credentials :=
    {| password := None; requestBiometric := Some true;
       twoFactorCode := None; recoveryCode := None |} in
  let results :=
    {| passwordValid := false; biometricValid := true;
       twoFactorValid := false; success := true; error := None |} in
  @getFails Sample.platform "biometricEnabled" = false /\
  @getFails Sample.platform "hasSetupPassword" = false /\
  @getFails Sample.platform "twoFactorConfig" = false /\
  @authenticateUser Sample.platform credentials Sample.biometricWorld
    = (Ok results, Sample.biometricWorld) /\
  success results = true /\
  isTrue (items Sample.biometricWorld !! "biometricEnabled"%string) = true /\
  requestBiometric credentials = Some true /\
  @verifyBiometric Sample.platform Sample.biometricWorld
    = (Ok true, Sample.biometricWorld).
Proof.
  intros credentials results.
  assert (Hrun : @authenticateUser Sample.platform credentials Sample.biometricWorld
                 = (Ok results, Sample.biometricWorld)) by reflexivity.
  assert (Hon : isTrue (items Sample.biometricWorld !! "biometricEnabled"%string)
                = true) by reflexivity.
  do 3 (split; [reflexivity|]). split; [exact Hrun|]. split; [reflexivity|].
  split; [exact Hon|].
  exact (proj1 (proj2 (@authenticateUser_requires_enabled_factors Sample.platform
                         credentials Sample.biometricWorld Sample.biometricWorld
                         results eq_refl eq_refl eq_refl Hrun eq_refl)) Hon).
Defined.

(** C10, as stated, fails when the settings cannot be read.  The store
    holds what the setup of a master password and of the second factor left,
    and biometric authentication is enabled besides, so that all three
    factors are enabled in it; but its reads fail, [getAuthenticationSettings]
    then reports that none is enabled, and [authenticateUser] returns
    [success = true] for credentials that carry no factor at all. *)
Lemma authenticateUser_accepts_without_factors :
  let w := Sample.allFactorsWorld in
  let credentials :=
    {| password := None; requestBiometric := None;
       twoFactorCode := None; recoveryCode := None |} in
  isTrue (items w !! "hasSetupPassword"%string) = true /\
  isTrue (items w !! "biometricEnabled"%string) = true /\
  present (items w !! "twoFactorConfig"%string) = true /\
  @authenticateUser Sample.unreadableStore credentials w =
    (Ok {| passwordValid := false; biometricValid := false;
           twoFactorValid := false; success := true; error := None |}, w).
Proof.
  intros w credentials.
  split; [vm_compute; reflexivity|].
  split; [vm_compute; reflexivity|].
  split; [vm_compute; reflexivity|].
  exact (@authenticateUser_settings_unreadable Sample.unreadableStore w eq_refl).
Qed.

(** C6, as amended: let the store hold a batch of recovery codes (one blob
    that decrypts to the JSON text of the list [codes]), and let the store
    and SHA-256 work.  If the candidate is one of the codes,
    [verifyRecoveryCode] returns [true] and stores, in place of the batch, a
    blob of the list with the first occurrence of the candidate removed, all
    other entries being as before; a second call with the same candidate
    then returns [false], provided the candidate does not occur again in
    what is left.  If the candidate is none of the codes, it returns [false]
    and the world is as before. *)
Theorem consume_recovery_code `{Platform} (candidate masterPassword : jsstring)
    (w : World) (c : TwoFAConfig) (blob : EncryptedData) (codes : list jsstring) :
  digestWorks SHA256 ->
  getFails "twoFactorConfig" = false ->
  setFails "twoFactorConfig" = false ->
  items w !! "twoFactorConfig"%string = Some (ConfigJSON c) ->
  encryptedRecoveryCodes c = [blob] ->
  decrypt blob (recoveryKey masterPassword) = Ok (JSON.stringify codes) ->
  Forall codeUnits codes ->
  (candidate ∈ codes ->
   exists i blob' w',
     indexOf codes candidate = Some i /\
     verifyRecoveryCode candidate masterPassword w = (Ok true, w') /\
     items w' =
       <["twoFactorConfig"%string := ConfigJSON (withRecoveryCodes c [blob'])]>
         (items w) /\
     decrypt blob' (recoveryKey masterPassword) =
       Ok (JSON.stringify (delete i codes)) /\
     (candidate ∉ delete i codes ->
      verifyRecoveryCode candidate masterPassword w' = (Ok false, w'))) /\
  (candidate ∉ codes ->
   verifyRecoveryCode candidate masterPassword w = (Ok false, w)).
Proof.
  intros Hw Hget Hset Hitem Hone Hdec Hcodes.
  pose proof (consume_batch candidate masterPassword w c blob codes
                Hw Hget Hset Hitem Hone Hdec Hcodes) as Hfirst.
  split.
  - intros Hin. destruct (indexOf codes candidate) as [i|] eqn:Ei.
    2: { apply indexOf_None in Ei. contradiction. }
    destruct Hfirst as (blob' & w' & Hrun & Hitems & Hdec').
    exists i, blob', w'. repeat split; try assumption.
    intros Hgone.
    pose proof (consume_batch candidate masterPassword w'
                  (withRecoveryCodes c [blob']) blob' (delete i codes)
                  Hw Hget Hset) as Hsecond.
    rewrite (proj2 (indexOf_None _ _) Hgone) in Hsecond.
    apply Hsecond; [|reflexivity|exact Hdec'|now apply codeUnits_delete].
    rewrite Hitems. apply lookup_insert_eq.
  - intros Hout. now rewrite (proj2 (indexOf_None _ _) Hout) in Hfirst.
Qed.

(** Of the batch ABCD1234, WXYZ5678 the second code is consumed once. *)
Lemma consume_recovery_code_witness :
  let codes := [lit "ABCD1234"; lit "WXYZ5678"] in
  let w := Sample.batchWorld codes in
  let blob :=
    Sample.encrypted (JSON.stringify codes) (recoveryKey Sample.masterPassword) in
  @digestWorks Sample.platform SHA256 /\
  @getFails Sample.platform "twoFactorConfig" = false /\
  @setFails Sample.platform "twoFactorConfig" = false /\
  items w !! "twoFactorConfig"%string = Some (ConfigJSON (Sample.configWith [blob])) /\
  encryptedRecoveryCodes (Sample.configWith [blob]) = [blob] /\
  @decrypt Sample.platform blob (recoveryKey Sample.masterPassword) =
    Ok (JSON.stringify codes) /\
  Forall codeUnits codes /\
  lit "WXYZ5678" ∈ codes /\
  exists w',
    @verifyRecoveryCode Sample.platform (lit "WXYZ5678") Sample.masterPassword w
      = (Ok true, w') /\
    @verifyRecoveryCode Sample.platform (lit "WXYZ5678") Sample.masterPassword w'
      = (Ok false, w').
Proof.
  intros codes w blob.
  assert (Hcodes : Forall codeUnits codes)
    by (repeat constructor; lia).
  assert (Hdec : @decrypt Sample.platform blob (recoveryKey Sample.masterPassword)
                 = Ok (JSON.stringify codes)) by (apply sample_batch; exact Hcodes).
  assert (Hitem : items w !! "twoFactorConfig"%string
                  = Some (ConfigJSON (Sample.configWith [blob])))
    by apply lookup_singleton_eq.
  assert (Hin : lit "WXYZ5678" ∈ codes)
    by (apply list_elem_of_further, list_elem_of_here).
  split; [apply sample_digestWorks|]. split; [reflexivity|].
  split; [reflexivity|]. split; [exact Hitem|]. split; [reflexivity|].
  split; [exact Hdec|]. split; [exact Hcodes|]. split; [exact Hin|].
  destruct (proj1 (@consume_recovery_code Sample.platform (lit "WXYZ5678")
                     Sample.masterPassword w (Sample.configWith [blob]) blob codes
                     (sample_digestWorks SHA256) eq_refl eq_refl Hitem eq_refl
                     Hdec Hcodes) Hin)
    as (i & blob' & w' & Hi & Hrun & _ & _ & Hsecond).
  exists w'. split; [exact Hrun|]. apply Hsecond.
  injection Hi as <-. cbn. intros Hbad.
  apply list_elem_of_singleton in Hbad. discriminate.
Defined.

(** C6, as stated, fails on a batch that holds the same code twice: the
    code is accepted a second time. *)
Lemma consume_duplicate_twice :
  exists w' w'',
    @verifyRecoveryCode Sample.platform (lit "ABCD1234") Sample.masterPassword
      (Sample.batchWorld [lit "ABCD1234"; lit "ABCD1234"]) = (Ok true, w') /\
    @verifyRecoveryCode Sample.platform (lit "ABCD1234") Sample.masterPassword w'
      = (Ok true, w'').
Proof.
  set (codes := [lit "ABCD1234"; lit "ABCD1234"]).
  set (blob := Sample.encrypted (JSON.stringify codes)
                 (recoveryKey Sample.masterPassword)).
  assert (Hcodes : Forall codeUnits codes) by (repeat constructor; lia).
  pose proof (@consume_batch Sample.platform (lit "ABCD1234") Sample.masterPassword
                (Sample.batchWorld codes) (Sample.configWith [blob]) blob codes
                (sample_digestWorks SHA256) eq_refl eq_refl
                (lookup_singleton_eq _ _) eq_refl (sample_batch codes Hcodes) Hcodes)
    as (blob' & w' & Hrun & Hitems & Hdec').
  exists w'.
  pose proof (@consume_batch Sample.platform (lit "ABCD1234") Sample.masterPassword
                w' (withRecoveryCodes (Sample.configWith [blob]) [blob']) blob'
                [lit "ABCD1234"]
                (sample_digestWorks SHA256) eq_refl eq_refl) as Hsecond.
  destruct Hsecond as (blob'' & w'' & Hrun' & _).
  - rewrite Hitems. apply lookup_insert_eq.
  - reflexivity.
  - exact Hdec'.
  - repeat constructor; lia.
  - exists w''. split; [exact Hrun|exact Hrun'].
Qed.

(** C7, at the place where the code departs from it: a store in the legacy
    format with a single blob left, which decrypts to a recovery code (a
    text that is not the JSON text of an array), is read as a batch, and the
    code is refused. *)
Theorem legacy_single_code_refused `{Platform} (code masterPassword : jsstring)
    (w : World) (c : TwoFAConfig) (blob : EncryptedData) :
  getFails "twoFactorConfig" = false ->
  items w !! "twoFactorConfig"%string = Some (ConfigJSON c) ->
  encryptedRecoveryCodes c = [blob] ->
  decrypt blob (recoveryKey masterPassword) = Ok code ->
  JSON.parse code = None ->
  verifyRecoveryCode code masterPassword w = (Ok false, w).
Proof. apply single_blob_not_array. Qed.

(** The single legacy code ABCD1234 is refused. *)
Lemma legacy_single_code_refused_witness :
  let blob := Sample.encrypted (lit "ABCD1234") (recoveryKey Sample.masterPassword) in
  let w := Sample.legacyWorld [lit "ABCD1234"] in
  @getFails Sample.platform "twoFactorConfig" = false /\
  items w !! "twoFactorConfig"%string = Some (ConfigJSON (Sample.configWith [blob])) /\
  encryptedRecoveryCodes (Sample.configWith [blob]) = [blob] /\
  @decrypt Sample.platform blob (recoveryKey Sample.masterPassword)
    = Ok (lit "ABCD1234") /\
  JSON.parse (lit "ABCD1234") = None /\
  @verifyRecoveryCode Sample.platform (lit "ABCD1234") Sample.masterPassword w
    = (Ok false, w).
Proof.
  intros blob w.
  assert (Hdec : @decrypt Sample.platform blob (recoveryKey Sample.masterPassword)
                 = Ok (lit "ABCD1234"))
    by (apply sample_encrypted; [reflexivity|discriminate]).
  assert (Hitem : items w !! "twoFactorConfig"%string
                  = Some (ConfigJSON (Sample.configWith [blob])))
    by apply lookup_singleton_eq.
  split; [reflexivity|]. split; [exact Hitem|]. split; [reflexivity|].
  split; [exact Hdec|]. split; [reflexivity|].
  exact (@legacy_single_code_refused Sample.platform (lit "ABCD1234")
           Sample.masterPassword w (Sample.configWith [blob]) blob
           eq_refl Hitem eq_refl Hdec eq_refl).
Defined.

End AuthClaims.

(** * Further properties of the code *)

(** ** The text encoder *)

Module TextProperties.
Import JS Text JSFacts.

Lemma code_points_codeUnits (s : jsstring) :
  codeUnits s -> Forall scalar (code_points s).
Proof.
  induction s as [|u|u v s IH1 IH2] using pairwise_ind; intros Hs.
  - constructor.
  - apply Forall_cons in Hs as [Hu _]. rewrite code_points_cons.
    destruct (is_high u) eqn:E1; [constructor; [unfold scalar; lia|constructor]|].
    destruct (is_low u) eqn:E2; (constructor; [|constructor]).
    + unfold scalar; lia.
    + unfold is_high, is_low, scalar in *. lia.
  - pose proof Hs as Hs'.
    apply Forall_cons in Hs as [Hu Hvs]. pose proof Hvs as Hvs'.
    apply Forall_cons in Hvs as [Hv Hss].
    rewrite code_points_cons.
    destruct (is_high u) eqn:E1.
    + destruct (is_low v) eqn:E2.
      * constructor; [|now apply IH1].
        unfold is_high, is_low, scalar in *. lia.
      * constructor; [unfold scalar; lia|now apply IH2].
    + destruct (is_low u) eqn:E2.
      * constructor; [unfold scalar; lia|now apply IH2].
      * constructor; [|now apply IH2].
        unfold is_high, is_low, scalar in *. lia.
Qed.

Lemma TextEncoder_codeUnits (s : jsstring) :
  codeUnits s -> Forall byte (TextEncoder_encode s).
Proof.
  intros Hs%code_points_codeUnits. unfold TextEncoder_encode.
  induction Hs as [|c cps Hc _ IH]; [constructor|].
  cbn [flat_map]. apply Forall_app. split; [|exact IH].
  now apply utf8_encode_cp_bytes.
Qed.

Lemma TextEncoder_ascii (s : jsstring) :
  Forall (fun u => 0 <= u < 128) s -> TextEncoder_encode s = s.
Proof.
  unfold TextEncoder_encode.
  induction 1 as [|u s Hu _ IH]; [reflexivity|].
  rewrite code_points_cons.
  assert (is_high u = false) as -> by (unfold is_high; lia).
  assert (is_low u = false) as -> by (unfold is_low; lia).
  cbn [flat_map]. rewrite IH. unfold utf8_encode_cp.
  assert ((u <? 128) = true) as -> by lia. reflexivity.
Qed.

Lemma code_points_app (a b : jsstring) :
  isWellFormed a = true ->
  code_points (a ++ b) = code_points a ++ code_points b.
Proof.
  induction a as [|u|u v s IH1 IH2] using pairwise_ind; intros Hwf.
  - reflexivity.
  - apply isWellFormed_inv in Hwf as [(_ & v & s' & [=] & _)|(Hh & Hl & Hu & _)].
    cbn [app]. rewrite !code_points_cons, Hh, Hl. reflexivity.
  - apply isWellFormed_inv in Hwf as [(Hh & v' & s' & [= <- <-] & Hl & Hs)|(Hh & Hl & Hu & Hs)].
    + cbn [app]. rewrite !code_points_cons, Hh, Hl.
      rewrite IH1 by exact Hs. reflexivity.
    + change ((u :: v :: s) ++ b) with (u :: ((v :: s) ++ b)).
      rewrite (code_points_cons u (v :: s)), (code_points_cons u ((v :: s) ++ b)).
      rewrite Hh, Hl.
      rewrite IH2 by exact Hs. reflexivity.
Qed.

Lemma TextEncoder_app (a b : jsstring) :
  isWellFormed a = true ->
  TextEncoder_encode (a ++ b) = TextEncoder_encode a ++ TextEncoder_encode b.
Proof.
  intros Hwf. unfold TextEncoder_encode.
  now rewrite code_points_app, flat_map_app.
Qed.

End TextProperties.

(** ** CryptoUtils *)

Module CryptoProperties.
Import JS Text JSFacts CryptoUtils CryptoFacts TextProperties.

Lemma lxor_bound (n a b : Z) :
  0 <= n -> 0 <= a < 2 ^ n -> 0 <= b < 2 ^ n -> 0 <= Z.lxor a b < 2 ^ n.
Proof.
  intros Hn Ha Hb.
  assert (H0 : 0 <= Z.lxor a b) by (apply Z.lxor_nonneg; lia).
  split; [exact H0|].
  destruct (Z.eq_dec (Z.lxor a b) 0) as [->|Hx]; [lia|].
  apply Z.log2_lt_pow2; [lia|].
  pose proof (Z.log2_lxor a b ltac:(lia) ltac:(lia)) as Hl.
  assert (0 < n).
  { destruct (Z.eq_dec n 0) as [->|]; [|lia]. cbn in Ha, Hb.
    assert (a = 0) as -> by lia. assert (b = 0) as -> by lia.
    now cbn in Hx. }
  assert (Z.log2 a < n).
  { destruct (Z.eq_dec a 0) as [->|]; [cbn; lia|apply Z.log2_lt_pow2; lia]. }
  assert (Z.log2 b < n).
  { destruct (Z.eq_dec b 0) as [->|]; [cbn; lia|apply Z.log2_lt_pow2; lia]. }
  lia.
Qed.

Lemma lxor_byte (a b : Z) : byte a -> byte b -> byte (Z.lxor a b).
Proof. unfold byte. intros. apply (lxor_bound 8); lia. Qed.

Lemma ascii_byte (s : jsstring) :
  Forall (fun u => 0 <= u < 128) s -> Forall byte s.
Proof.
  intros Hs. eapply Forall_impl; [exact Hs|]. unfold byte. cbn. lia.
Qed.

Lemma xorBytes_lookup (bytes keyBytes : list Z) (i : nat) :
  xorBytes bytes keyBytes !! i =
  (fun b => Z.lxor b (nth (i mod length keyBytes) keyBytes 0) mod 256)
    <$> bytes !! i.
Proof. unfold xorBytes. apply list_lookup_imap. Qed.

Lemma xorBytes_bytes (bytes keyBytes : list Z) :
  Forall byte (xorBytes bytes keyBytes).
Proof.
  apply Forall_lookup. intros i c. rewrite xorBytes_lookup.
  destruct (bytes !! i); intros [= <-]. unfold byte. lia.
Qed.

Section WithPlatform.
Context `{Platform}.

Lemma deriveLoop_bytes (iterations : nat) (derived : list Z) :
  digestWorks SHA256 -> iterations <> O ->
  exists derived', deriveLoop iterations derived = Ok derived' /\
    length derived' = 32%nat /\ Forall byte derived'.
Proof.
  intros Hw. revert derived.
  induction iterations as [|n IH]; intros derived Hn; [contradiction|].
  destruct (rehash_works derived Hw) as (d1 & Hd1 & Hl1 & Hb1).
  cbn [deriveLoop]. rewrite Hd1. cbn [rbind].
  destruct n as [|n]; [cbn; eauto|].
  apply IH. discriminate.
Qed.

Lemma toHex2_ascii (b : Z) :
  byte b -> Forall (fun u => 0 <= u < 128) (toHex2 b).
Proof.
  unfold byte. intros Hb. unfold toHex2.
  repeat constructor; apply JSONFacts.hexDigit_ascii; lia.
Qed.

Lemma deriveKey_hex (password salt : jsstring) (iterations keyLength : Z) :
  digestWorks SHA256 -> 1 <= iterations -> 0 <= keyLength ->
  exists key, deriveKey password salt iterations keyLength = Ok key /\
    length key = (2 * Nat.min (Z.to_nat keyLength) 32)%nat /\
    Forall (fun u => 0 <= u < 128) key.
Proof.
  intros Hw Hi Hk. unfold deriveKey.
  destruct (deriveLoop_bytes (Z.to_nat iterations)
              (TextEncoder_encode password ++ TextEncoder_encode salt) Hw)
    as (d & -> & Hl & Hb); [lia|].
  cbn [rbind]. eexists. split; [reflexivity|]. split.
  - rewrite length_hex, length_slice0 by lia. lia.
  - unfold slice0. assert ((keyLength <? 0) = false) as -> by lia.
    apply Forall_flat_map.
    eapply Forall_impl; [apply Forall_take, Hb|]. apply toHex2_ascii.
Qed.

(** What [encrypt] does, under a working SHA-256. *)
Lemma encrypt_run (text password : jsstring) (salt : option jsstring) (w : World) :
  digestWorks SHA256 ->
  exists salt' key w',
    encrypt text password salt w =
      (Ok (Envelope (xorBytes (TextEncoder_encode text) key) salt'), w') /\
    deriveKey password salt' 10000 32 = Ok key /\
    length key = 64%nat /\ Forall (fun u => 0 <= u < 128) key /\
    items w' = items w /\ clock w' = clock w /\
    (truthy salt = true -> Some salt' = salt /\ w' = w) /\
    (truthy salt = false ->
     salt' = pick alphanumeric
               (Uint8Array_from (map (randomByte (draws w)) (seq 0 32))) /\
     draws w' = S (draws w)).
Proof.
  intros Hw. unfold encrypt, bind at 1.
  assert (Hsalt : exists salt' w',
    (if truthy salt then ret (default [] salt) else generateSalt 32) w
      = (Ok salt', w') /\
    items w' = items w /\ clock w' = clock w /\
    (truthy salt = true -> Some salt' = salt /\ w' = w) /\
    (truthy salt = false ->
     salt' = pick alphanumeric
               (Uint8Array_from (map (randomByte (draws w)) (seq 0 32))) /\
     draws w' = S (draws w))).
  { destruct (truthy salt) eqn:E.
    - exists (default [] salt), w. repeat split; try reflexivity; try discriminate.
      destruct salt as [s|]; [reflexivity|discriminate].
    - eexists _, _. unfold generateSalt. rewrite AuthFacts.generateRandomString_run.
      split; [reflexivity|]. repeat split; discriminate. }
  destruct Hsalt as (salt' & w1 & -> & Hi & Hc & Ht & Hf).
  destruct (deriveKey_hex password salt' 10000 32 Hw) as (key & Hk & Hl & Ha);
    [lia|lia|].
  unfold bind, lift, ret. rewrite Hk.
  exists salt', key, w1. rewrite (TextEncoder_ascii key Ha).
  repeat split; try assumption; try (now apply Ht); try (now apply Hf).
Qed.


Lemma pick_elem (chars : jsstring) (bytes : list Z) :
  chars <> [] -> Forall (fun u => u ∈ chars) (pick chars bytes).
Proof.
  intros Hc. unfold pick. apply Forall_fmap, Forall_true. intros b. cbn.
  unfold charAt.
  assert (0 < Z.of_nat (length chars)) by (destruct chars; [contradiction|cbn; lia]).
  apply list_elem_of_In, nth_In. lia.
Qed.

Lemma alphanumeric_chars :
  Forall (fun u => 48 <= u <= 57 \/ 65 <= u <= 90 \/ 97 <= u <= 122) alphanumeric.
Proof.
  apply Forall_forall. intros u Hu%list_elem_of_In.
  assert (Hall : forallb (fun u => ((48 <=? u) && (u <=? 57))
                                 || ((65 <=? u) && (u <=? 90))
                                 || ((97 <=? u) && (u <=? 122))) alphanumeric = true)
    by reflexivity.
  rewrite forallb_forall in Hall. specialize (Hall u Hu). lia.
Qed.

Lemma base32Alphabet_chars :
  Forall (fun u => TOTPManager.isBase32Char u = true) base32Alphabet.
Proof.
  apply Forall_forall. intros u Hu%list_elem_of_In.
  assert (Hall : forallb TOTPManager.isBase32Char base32Alphabet = true)
    by reflexivity.
  rewrite forallb_forall in Hall. exact (Hall u Hu).
Qed.

Lemma generateRandomString_chars (length : nat) (w : World) :
  exists s,
    generateRandomString length w =
      (Ok s, {| items := items w; clock := clock w; draws := S (draws w) |}) /\
    List.length s = length /\
    Forall (fun u => 48 <= u <= 57 \/ 65 <= u <= 90 \/ 97 <= u <= 122) s.
Proof.
  rewrite AuthFacts.generateRandomString_run. eexists. split; [reflexivity|].
  split.
  - now rewrite AuthFacts.pick_length, length_Uint8Array_from, length_map, length_seq.
  - pose proof alphanumeric_chars as Ha. rewrite Forall_forall in Ha.
    eapply Forall_impl; [apply pick_elem; discriminate|]. exact Ha.
Qed.

(** X1: [generateRandomString], and with it [generateSalt] and
    [generateSessionId], returns a string of exactly the length asked (64
    for a session identifier) whose characters are ASCII letters and
    digits; it makes one call to the random source and leaves the store
    and the clock as they are. *)
Theorem generateRandomString_format (length : nat) (w : World) :
  let w' := {| items := items w; clock := clock w; draws := S (draws w) |} in
  (exists s,
     generateRandomString length w = (Ok s, w') /\
     generateSalt length w = (Ok s, w') /\
     List.length s = length /\
     Forall (fun u => 48 <= u <= 57 \/ 65 <= u <= 90 \/ 97 <= u <= 122) s) /\
  (exists id,
     generateSessionId w = (Ok id, w') /\
     List.length id = 64%nat /\
     Forall (fun u => 48 <= u <= 57 \/ 65 <= u <= 90 \/ 97 <= u <= 122) id).
Proof.
  intros w'. split.
  - destruct (generateRandomString_chars length w) as (s & Hs & Hl & Hc).
    exists s. repeat split; assumption.
  - destruct (generateRandomString_chars 64 w) as (s & Hs & Hl & Hc).
    exists s. repeat split; assumption.
Qed.

Lemma asciiUpper_alphanumeric (s : jsstring) :
  Forall (fun u => 48 <= u <= 57 \/ 65 <= u <= 90 \/ 97 <= u <= 122) s ->
  List.length (Sample.asciiUpper s) = List.length s /\
  Forall (fun u => 48 <= u <= 57 \/ 65 <= u <= 90) (Sample.asciiUpper s).
Proof.
  intros Hs. unfold Sample.asciiUpper. split; [apply length_map|].
  apply Forall_fmap. eapply Forall_impl; [exact Hs|]. cbn. intros u Hu.
  destruct ((97 <=? u) && (u <=? 122)) eqn:E; lia.
Qed.

Lemma generateRecoveryCodes_shape (count : nat) (w : World) :
  upperCaseWorks ->
  exists codes w',
    generateRecoveryCodes count w = (Ok codes, w') /\
    List.length codes = count /\
    Forall (fun code =>
              List.length code = 8%nat /\
              Forall (fun u => 48 <= u <= 57 \/ 65 <= u <= 90) code) codes /\
    items w' = items w /\ clock w' = clock w /\
    draws w' = (draws w + count)%nat.
Proof.
  intros Hup. revert w. induction count as [|n IH]; intros w.
  - exists [], w. cbn. repeat split; try constructor. lia.
  - destruct (generateRandomString_chars 8 w) as (s & Hs & Hl & Hc).
    destruct (IH {| items := items w; clock := clock w; draws := S (draws w) |})
      as (codes & w' & Hrun & Hlen & Hall & Hi & Hk & Hd).
    exists (toUpperCase s :: codes), w'.
    cbn [generateRecoveryCodes].
    rewrite (AuthFacts.bind_ok _ _ _ _ _ Hs), (AuthFacts.bind_ok _ _ _ _ _ Hrun).
    split; [reflexivity|]. cbn [List.length]. split; [now rewrite Hlen|].
    split; [|cbn [items clock draws] in Hi, Hk, Hd; repeat split; try assumption; lia].
    constructor; [|exact Hall].
    rewrite Hup.
    + destruct (asciiUpper_alphanumeric s Hc) as [H1 H2]. now rewrite H1.
    + eapply Forall_impl; [exact Hc|]. cbn. lia.
Qed.

(** X2: under a [toUpperCase] that works on ASCII text,
    [generateRecoveryCodes(count)] returns [count] codes of eight characters
    each, upper-case ASCII letters and digits; it makes [count] calls to the
    random source and leaves the store and the clock as they are. *)
Theorem generateRecoveryCodes_format (count : nat) (w : World) :
  upperCaseWorks ->
  exists codes w',
    generateRecoveryCodes count w = (Ok codes, w') /\
    List.length codes = count /\
    Forall (fun code =>
              List.length code = 8%nat /\
              Forall (fun u => 48 <= u <= 57 \/ 65 <= u <= 90) code) codes /\
    items w' = items w /\ clock w' = clock w /\
    draws w' = (draws w + count)%nat.
Proof. apply generateRecoveryCodes_shape. Qed.

(** X3: under a working SHA-256, [encrypt] returns an envelope whose bytes
    are as many as the bytes of the UTF-8 encoding of the text, each in the
    range of a byte; the store and the clock are as before. *)
Theorem encrypt_keeps_length (text password : jsstring) (salt : option jsstring)
    (w : World) :
  digestWorks SHA256 ->
  exists bytes salt' w',
    encrypt text password salt w = (Ok (Envelope bytes salt'), w') /\
    List.length bytes = List.length (TextEncoder_encode text) /\
    Forall byte bytes /\
    items w' = items w /\ clock w' = clock w.
Proof.
  intros Hw.
  destruct (encrypt_run text password salt w Hw)
    as (salt' & key & w' & Hrun & _ & _ & _ & Hi & Hc & _).
  eexists _, salt', w'. split; [exact Hrun|].
  split; [apply length_imap|]. split; [apply xorBytes_bytes|]. now split.
Qed.

(** X4: under a working SHA-256, [encrypt] uses a salt that is given and
    not empty as it is, without a call to the random source; when the salt
    is missing or the empty string it generates a salt of 32 ASCII letters
    and digits with one call to the random source. *)
Theorem encrypt_salt_choice (text password : jsstring) (salt : option jsstring)
    (w : World) :
  digestWorks SHA256 ->
  (forall given, salt = Some given -> given <> [] ->
   exists bytes, encrypt text password salt w = (Ok (Envelope bytes given), w)) /\
  (salt = None \/ salt = Some [] ->
   exists bytes salt' w',
     encrypt text password salt w = (Ok (Envelope bytes salt'), w') /\
     List.length salt' = 32%nat /\
     Forall (fun u => 48 <= u <= 57 \/ 65 <= u <= 90 \/ 97 <= u <= 122) salt' /\
     draws w' = S (draws w)).
Proof.
  intros Hw.
  destruct (encrypt_run text password salt w Hw)
    as (salt' & key & w' & Hrun & _ & _ & _ & _ & _ & Ht & Hf).
  split.
  - intros given -> Hne.
    destruct Ht as [[= ->] ->]; [destruct given; [contradiction|reflexivity]|].
    eexists. exact Hrun.
  - intros Hno.
    assert (E : truthy salt = false) by (destruct Hno as [->| ->]; reflexivity).
    destruct (Hf E) as [-> Hd].
    eexists _, _, w'. split; [exact Hrun|].
    destruct (generateRandomString_chars 32 w) as (s & Hs & Hl & Hc).
    rewrite AuthFacts.generateRandomString_run in Hs. injection Hs as <-.
    repeat split; assumption.
Qed.

(** X5: the key stream of [encrypt] has period 64.  Under a working
    SHA-256, for a text of 16-bit code units, two bytes of the envelope that
    lie 64 places apart differ (by exclusive or) exactly as the two bytes of
    the encoded text at these places do. *)
Theorem encrypt_key_repeats (text password : jsstring) (salt : option jsstring)
    (w : World) :
  digestWorks SHA256 ->
  codeUnits text ->
  exists bytes salt' w',
    encrypt text password salt w = (Ok (Envelope bytes salt'), w') /\
    forall (i : nat) (c1 c2 p1 p2 : Z),
      bytes !! i = Some c1 -> bytes !! (i + 64)%nat = Some c2 ->
      TextEncoder_encode text !! i = Some p1 ->
      TextEncoder_encode text !! (i + 64)%nat = Some p2 ->
      Z.lxor c1 c2 = Z.lxor p1 p2.
Proof.
  intros Hw Htext.
  destruct (encrypt_run text password salt w Hw)
    as (salt' & key & w' & Hrun & _ & Hlen & Hascii & _).
  eexists _, salt', w'. split; [exact Hrun|].
  intros i c1 c2 p1 p2 Hc1 Hc2 Hp1 Hp2.
  rewrite xorBytes_lookup in Hc1, Hc2. rewrite Hp1 in Hc1. rewrite Hp2 in Hc2.
  cbn in Hc1, Hc2. injection Hc1 as <-. injection Hc2 as <-.
  rewrite Hlen.
  replace ((i + 64) mod 64)%nat with (i mod 64)%nat
    by (rewrite <- (Nat.Div0.add_mod_idemp_r i 64 64); cbn; now rewrite Nat.add_0_r).
  set (k := nth (i mod 64) key 0).
  assert (Hk : byte k).
  { apply ascii_byte in Hascii. rewrite Forall_forall in Hascii.
    apply Hascii, list_elem_of_In, nth_In. rewrite Hlen.
    apply Nat.mod_upper_bound. discriminate. }
  pose proof (TextEncoder_codeUnits text Htext) as Hb.
  rewrite Forall_lookup in Hb.
  pose proof (Hb _ _ Hp1) as Hb1. pose proof (Hb _ _ Hp2) as Hb2.
  rewrite !Z.mod_small by (apply lxor_byte; assumption).
  rewrite Z.lxor_assoc, (Z.lxor_comm k), Z.lxor_assoc, Z.lxor_nilpotent, Z.lxor_0_r.
  reflexivity.
Qed.

(** X6: [decrypt] has no integrity check.  Under a working SHA-256 it
    returns a text for every envelope and every password: a wrong password
    or altered bytes are not reported. *)
Theorem decrypt_never_rejects (encrypted : list Z) (salt password : jsstring) :
  digestWorks SHA256 ->
  exists text, decrypt (Envelope encrypted salt) password = Ok text.
Proof. apply decrypt_total. Qed.

(** X7: [deriveKey] sees only the concatenation of password and salt.  For
    well-formed strings, moving characters from the end of the password to
    the start of the salt does not change the result. *)
Theorem deriveKey_boundary (password moved salt : jsstring)
    (iterations keyLength : Z) :
  isWellFormed password = true ->
  isWellFormed moved = true ->
  deriveKey (password ++ moved) salt iterations keyLength =
  deriveKey password (moved ++ salt) iterations keyLength.
Proof.
  intros Hp Hm. unfold deriveKey.
  now rewrite !TextEncoder_app, <- app_assoc by assumption.
Qed.

(** X8: a password verifies against what [hashPassword] returned for it.
    Under a working SHA-256, for every salt argument, [hashPassword] returns
    a hash and a salt with which [verifyPassword] accepts the password. *)
Theorem verifyPassword_accepts_hashPassword (password : jsstring)
    (salt : option jsstring) (w : World) :
  digestWorks SHA256 ->
  exists r w',
    hashPassword password salt w = (Ok r, w') /\
    verifyPassword password (hash r) (CryptoUtils.salt r) w' = (Ok true, w').
Proof.
  intros Hw. unfold hashPassword, bind at 1.
  destruct (choose_salt salt w) as (salt' & w1 & Hch & _ & _ & Ht).
  assert (Hne : salt' <> []).
  { destruct (truthy salt) eqn:E.
    - destruct (Ht eq_refl) as [<- _]. intros ->. discriminate.
    - unfold generateSalt in Hch. rewrite AuthFacts.generateRandomString_run in Hch.
      injection Hch as <- _. discriminate. }
  rewrite Hch.
  destruct (deriveKey_works password salt' 10000 64 Hw) as (key & Hk & _).
  unfold bind, lift, ret. rewrite Hk.
  eexists _, w1. split; [reflexivity|]. cbn [hash CryptoUtils.salt].
  rewrite AuthFacts.verifyPassword_salt by exact Hne. rewrite Hk.
  now rewrite bool_decide_eq_true_2.
Qed.

End WithPlatform.

Lemma sample_upperCaseWorks : @upperCaseWorks Sample.platform.
Proof. intros s _. reflexivity. Qed.

(** Eight recovery codes on the sample platform. *)
Lemma generateRecoveryCodes_format_witness :
  @upperCaseWorks Sample.platform /\
  exists codes w',
    @generateRecoveryCodes Sample.platform 8 Sample.emptyWorld = (Ok codes, w') /\
    List.length codes = 8%nat /\
    Forall (fun code =>
              List.length code = 8%nat /\
              Forall (fun u => 48 <= u <= 57 \/ 65 <= u <= 90) code) codes /\
    items w' = items Sample.emptyWorld /\ clock w' = clock Sample.emptyWorld /\
    draws w' = (draws Sample.emptyWorld + 8)%nat.
Proof.
  split; [apply sample_upperCaseWorks|].
  apply (@generateRecoveryCodes_format Sample.platform 8 Sample.emptyWorld).
  apply sample_upperCaseWorks.
Defined.

(** The envelope of a text of 20 ASCII characters has 20 bytes. *)
Lemma encrypt_keeps_length_witness :
  @digestWorks Sample.platform SHA256 /\
  exists bytes salt' w',
    @encrypt Sample.platform (lit "abandon ability able") (lit "correct horse")
      None Sample.emptyWorld = (Ok (Envelope bytes salt'), w') /\
    List.length bytes = List.length (TextEncoder_encode (lit "abandon ability able")) /\
    Forall byte bytes /\
    items w' = items Sample.emptyWorld /\ clock w' = clock Sample.emptyWorld.
Proof.
  split; [apply sample_digestWorks|].
  apply (@encrypt_keeps_length Sample.platform). apply sample_digestWorks.
Defined.

(** With the salt NaCl given, and with none. *)
Lemma encrypt_salt_choice_witness :
  @digestWorks Sample.platform SHA256 /\
  (exists bytes,
     @encrypt Sample.platform (lit "seed") (lit "correct horse")
       (Some (lit "NaCl")) Sample.emptyWorld
     = (Ok (Envelope bytes (lit "NaCl")), Sample.emptyWorld)) /\
  (exists bytes salt' w',
     @encrypt Sample.platform (lit "seed") (lit "correct horse") None
       Sample.emptyWorld = (Ok (Envelope bytes salt'), w') /\
     List.length salt' = 32%nat /\
     Forall (fun u => 48 <= u <= 57 \/ 65 <= u <= 90 \/ 97 <= u <= 122) salt' /\
     draws w' = S (draws Sample.emptyWorld)).
Proof.
  split; [apply sample_digestWorks|]. split.
  - apply (proj1 (@encrypt_salt_choice Sample.platform (lit "seed")
                    (lit "correct horse") (Some (lit "NaCl")) Sample.emptyWorld
                    (sample_digestWorks SHA256)) (lit "NaCl") eq_refl).
    discriminate.
  - apply (proj2 (@encrypt_salt_choice Sample.platform (lit "seed")
                    (lit "correct horse") None Sample.emptyWorld
                    (sample_digestWorks SHA256))).
    now left.
Defined.

(** A text of 70 characters: its envelope repeats the key from byte 64
    on. *)
Lemma encrypt_key_repeats_witness :
  @digestWorks Sample.platform SHA256 /\
  codeUnits (repeat 97 70) /\
  exists bytes salt' w',
    @encrypt Sample.platform (repeat 97 70) (lit "correct horse") None
      Sample.emptyWorld = (Ok (Envelope bytes salt'), w') /\
    forall (i : nat) (c1 c2 p1 p2 : Z),
      bytes !! i = Some c1 -> bytes !! (i + 64)%nat = Some c2 ->
      TextEncoder_encode (repeat 97 70) !! i = Some p1 ->
      TextEncoder_encode (repeat 97 70) !! (i + 64)%nat = Some p2 ->
      Z.lxor c1 c2 = Z.lxor p1 p2.
Proof.
  assert (Hunits : codeUnits (repeat 97 70)).
  { apply Forall_forall. intros u Hu%list_elem_of_In%repeat_spec. lia. }
  split; [apply sample_digestWorks|]. split; [exact Hunits|].
  apply (@encrypt_key_repeats Sample.platform);
    [apply sample_digestWorks|exact Hunits].
Defined.

(** An envelope of three arbitrary bytes decrypts to some text. *)
Lemma decrypt_never_rejects_witness :
  @digestWorks Sample.platform SHA256 /\
  exists text,
    @decrypt Sample.platform (Envelope [1; 2; 3] (lit "NaCl")) (lit "guess")
    = Ok text.
Proof.
  split; [apply sample_digestWorks|].
  apply (@decrypt_never_rejects Sample.platform). apply sample_digestWorks.
Defined.

(** The password abc with the salt d, and the password ab with the salt
    cd. *)
Lemma deriveKey_boundary_witness :
  isWellFormed (lit "ab") = true /\ isWellFormed (lit "c") = true /\
  @deriveKey Sample.platform (lit "ab" ++ lit "c") (lit "d") 10000 32 =
  @deriveKey Sample.platform (lit "ab") (lit "c" ++ lit "d") 10000 32.
Proof.
  split; [reflexivity|]. split; [reflexivity|].
  apply (@deriveKey_boundary Sample.platform); reflexivity.
Defined.

(** A password hashed with a fresh salt. *)
Lemma verifyPassword_accepts_hashPassword_witness :
  @digestWorks Sample.platform SHA256 /\
  exists r w',
    @hashPassword Sample.platform (lit "correct horse") None Sample.emptyWorld
      = (Ok r, w') /\
    @verifyPassword Sample.platform (lit "correct horse") (hash r)
      (CryptoUtils.salt r) w' = (Ok true, w').
Proof.
  split; [apply sample_digestWorks|].
  apply (@verifyPassword_accepts_hashPassword Sample.platform).
  apply sample_digestWorks.
Defined.

End CryptoProperties.

(** ** TOTPManager *)

Module TOTPProperties.
Import JS Text TOTPManager TOTPFacts.

Lemma lor_bound (n a b : Z) :
  0 <= n -> 0 <= a < 2 ^ n -> 0 <= b < 2 ^ n -> 0 <= Z.lor a b < 2 ^ n.
Proof.
  intros Hn Ha Hb.
  assert (H0 : 0 <= Z.lor a b) by (apply Z.lor_nonneg; lia).
  split; [exact H0|].
  destruct (Z.eq_dec (Z.lor a b) 0) as [->|Hx]; [lia|].
  apply Z.log2_lt_pow2; [lia|].
  rewrite Z.log2_lor by lia.
  assert (0 < n).
  { destruct (Z.eq_dec n 0) as [->|]; [|lia]. cbn in Ha, Hb.
    assert (a = 0) as -> by lia. assert (b = 0) as -> by lia.
    now cbn in Hx. }
  assert (Z.log2 a < n).
  { destruct (Z.eq_dec a 0) as [->|]; [cbn; lia|apply Z.log2_lt_pow2; lia]. }
  assert (Z.log2 b < n).
  { destruct (Z.eq_dec b 0) as [->|]; [cbn; lia|apply Z.log2_lt_pow2; lia]. }
  lia.
Qed.

(** The 31-bit number that the dynamic truncation builds. *)
Lemma truncation_bound (e0 e1 e2 e3 : Z) :
  0 <= Z.lor (Z.lor (Z.lor
         (Z.shiftl (Z.land e0 0x7f) 24)
         (Z.shiftl (Z.land e1 0xff) 16))
         (Z.shiftl (Z.land e2 0xff) 8))
         (Z.land e3 0xff) < 2 ^ 31.
Proof.
  change 0x7f with (Z.ones 7). change 0xff with (Z.ones 8).
  rewrite !Z.land_ones, !Z.shiftl_mul_pow2 by lia.
  repeat apply lor_bound; lia.
Qed.

Lemma decimalDigits_length (fuel : nat) :
  forall (n : Z) (acc : jsstring) (d : nat),
    0 <= n < 10 ^ Z.of_nat d -> (1 <= d)%nat ->
    (length (decimalDigits fuel n acc) <= d + length acc)%nat.
Proof.
  induction fuel as [|fuel IH]; intros n acc d Hn Hd; cbn [decimalDigits]; [lia|].
  destruct (Z.eqb_spec (n / 10) 0) as [E|E]; [cbn [length]; lia|].
  destruct d as [|[|d]]; [lia| |].
  - change (10 ^ Z.of_nat 1) with 10 in Hn. lia.
  - specialize (IH (n / 10) ((48 + n mod 10) :: acc) (S d)).
    cbn [length] in IH.
    assert (0 <= n / 10 < 10 ^ Z.of_nat (S d)).
    { replace (Z.of_nat (S (S d))) with (Z.of_nat (S d) + 1) in Hn by lia.
      rewrite Z.pow_add_r, Z.pow_1_r in Hn by lia.
      split; [lia|]. apply Z.div_lt_upper_bound; lia. }
    specialize (IH ltac:(assumption) ltac:(lia)). lia.
Qed.

Lemma decimalDigits_digits (fuel : nat) :
  forall (n : Z) (acc : jsstring),
    Forall (fun u => 48 <= u <= 57) acc ->
    Forall (fun u => 48 <= u <= 57) (decimalDigits fuel n acc).
Proof.
  induction fuel as [|fuel IH]; intros n acc Hacc; cbn [decimalDigits]; [exact Hacc|].
  assert (Forall (fun u => 48 <= u <= 57) ((48 + n mod 10) :: acc))
    by (constructor; [lia|exact Hacc]).
  destruct (n / 10 =? 0); [assumption|]. now apply IH.
Qed.

Lemma padStart0_exact (n : nat) (s : jsstring) :
  (length s <= n)%nat -> length (padStart0 n s) = n.
Proof. intros Hs. unfold padStart0. rewrite length_app, repeat_length. lia. Qed.

Lemma padStart0_digits (n : nat) (s : jsstring) :
  Forall (fun u => 48 <= u <= 57) s ->
  Forall (fun u => 48 <= u <= 57) (padStart0 n s).
Proof.
  intros Hs. unfold padStart0. apply Forall_app. split; [|exact Hs].
  apply Forall_forall. intros u Hu%list_elem_of_In%repeat_spec. lia.
Qed.

(** The digits of a code. *)
Lemma code_format (x : Z) (digits : nat) :
  0 <= x < 2 ^ 31 -> (1 <= digits)%nat ->
  let code := Z.rem x (10 ^ Z.of_nat digits) in
  length (padStart0 digits (Number_toString code)) = digits /\
  Forall (fun u => 48 <= u <= 57) (padStart0 digits (Number_toString code)).
Proof.
  intros Hx Hd code.
  assert (Hpow : 0 < 10 ^ Z.of_nat digits) by (apply Z.pow_pos_nonneg; lia).
  assert (Hcode : 0 <= code < 10 ^ Z.of_nat digits /\ code <= x).
  { unfold code. rewrite Z.rem_mod_nonneg by lia.
    split; [apply Z.mod_pos_bound; lia|]. apply Z.mod_le; lia. }
  split; [|apply padStart0_digits, decimalDigits_digits; constructor].
  apply padStart0_exact. unfold Number_toString.
  destruct (le_lt_dec digits 10) as [Hs|Hl].
  - pose proof (decimalDigits_length (S (Z.to_nat (Z.log2 code))) code [] digits
                  ltac:(lia) Hd) as H. cbn [length] in H. lia.
  - assert (Hten : code < 10 ^ Z.of_nat 10) by (change (10 ^ Z.of_nat 10) with 10000000000; lia).
    pose proof (decimalDigits_length (S (Z.to_nat (Z.log2 code))) code [] 10
                  ltac:(lia) ltac:(lia)) as H. cbn [length] in H. lia.
Qed.

(** X9: [constantTimeCompare] is equality of strings: it returns [true]
    exactly when the two strings have the same length and the same
    characters. *)
Theorem constantTimeCompare_is_equality (a b : jsstring) :
  constantTimeCompare a b = true <-> a = b.
Proof. rewrite constantTimeCompare_eq. apply bool_decide_eq_true. Qed.

Lemma bytesOfBits_spec (n : nat) :
  forall bits : list Z,
    (length bits <= n)%nat ->
    Forall (fun b => 0 <= b <= 1) bits ->
    length (bytesOfBits bits) = (length bits / 8)%nat /\
    Forall byte (bytesOfBits bits).
Proof.
  induction n as [n IH] using lt_wf_ind. intros bits Hn Hbits.
  do 8 (destruct bits as [|? bits]; [split; [reflexivity|constructor]|]).
  repeat (apply Forall_cons in Hbits as [? Hbits]).
  cbn [bytesOfBits length] in *.
  destruct (IH (length bits) ltac:(lia) bits ltac:(lia) Hbits) as [Hl Hb].
  split.
  - rewrite Hl.
    change (S (S (S (S (S (S (S (S (length bits)))))))))
      with (1 * 8 + length bits)%nat.
    rewrite Nat.div_add_l by discriminate. reflexivity.
  - constructor; [unfold byte; lia|exact Hb].
Qed.

Lemma length_bits (l : jsstring) :
  length (flat_map (fun u => bits5 (base32Index u)) l) = (5 * length l)%nat.
Proof.
  induction l as [|u l IH]; [reflexivity|].
  cbn [flat_map]. rewrite length_app, IH. cbn [length bits5]. lia.
Qed.

Lemma bits5_bits (n : Z) : Forall (fun b => 0 <= b <= 1) (bits5 n).
Proof. unfold bits5. repeat constructor; lia. Qed.

Section WithPlatform.
Context `{Platform}.

Lemma generateTOTPForTimeStep_digits (config : TOTPConfig) (timeStep : Z)
    (code : jsstring) :
  generateTOTPForTimeStep config timeStep = Ok code ->
  (1 <= digits config)%nat ->
  length code = digits config /\ Forall (fun u => 48 <= u <= 57) code.
Proof.
  unfold generateTOTPForTimeStep.
  destruct (hmac _ _ _) as [h|e]; [|discriminate]. cbn [rbind].
  intros [= <-] Hd. apply code_format; [apply truncation_bound|exact Hd].
Qed.

(** X10: a TOTP code has exactly [digits] characters, all decimal digits,
    for every configuration with at least one digit, every secret and
    every time step; and with the algorithm SHA1 and a working SHA-1 digest
    a code is returned. *)
Theorem generateTOTPForTimeStep_format (config : TOTPConfig) (timeStep : Z) :
  (forall code,
     generateTOTPForTimeStep config timeStep = Ok code ->
     (1 <= digits config)%nat ->
     length code = digits config /\ Forall (fun u => 48 <= u <= 57) code) /\
  (digestWorks SHA1 -> algorithm config = "SHA1"%string ->
   exists code, generateTOTPForTimeStep config timeStep = Ok code).
Proof.
  split.
  - intros code. apply generateTOTPForTimeStep_digits.
  - intros Hw Ha. unfold generateTOTPForTimeStep. rewrite Ha.
    destruct (hmac_works (base32Decode (secret config)) (timeBuffer timeStep) Hw)
      as (h & ->).
    cbn [rbind]. eauto.
Qed.

(** X11: [verifyTOTP] with the default configuration never accepts a token
    that is not exactly six characters long.  Under a working SHA-1 digest
    it returns [{ valid: false }] for such a token, whatever the secret and
    the time. *)
Theorem verifyTOTP_rejects_other_lengths (token secret : jsstring) (w : World) :
  digestWorks SHA1 ->
  length token <> 6%nat ->
  verifyTOTP token secret None w = (Ok {| valid := false; timeStep := None |}, w).
Proof.
  intros Hw Hlen. rewrite verifyTOTP_run.
  set (cfg := fullConfig secret None).
  set (step := currentTimeStep (clock w) (period cfg)).
  destruct (generateTOTPForTimeStep_works secret (step - 1) Hw) as (before & Hb).
  destruct (generateTOTPForTimeStep_works secret step Hw) as (current & Hc).
  destruct (generateTOTPForTimeStep_works secret (step + 1) Hw) as (after & Ha).
  fold cfg in Hb, Hc, Ha.
  rewrite (verifyWindow_codes cfg token step before current after Hb Hc Ha).
  assert (Hsix : forall t code, generateTOTPForTimeStep cfg t = Ok code ->
                                length code = 6%nat).
  { intros t code Hcode.
    destruct (generateTOTPForTimeStep_digits cfg t code Hcode) as [Hl _].
    - change (digits cfg) with 6%nat. lia.
    - exact Hl. }
  rewrite !bool_decide_eq_false_2; [reflexivity| | |]; intros ->;
    apply Hlen; eauto.
Qed.



Lemma base32Decode_bytes (encoded : jsstring) :
  length (base32Decode encoded) =
    (5 * length (filter (fun u => isBase32Char u = true) (toUpperCase encoded)) / 8)%nat /\
  Forall byte (base32Decode encoded).
Proof.
  unfold base32Decode.
  set (clean := filter _ _).
  assert (Hbits : Forall (fun b => 0 <= b <= 1)
                    (flat_map (fun u => bits5 (base32Index u)) clean)).
  { apply Forall_flat_map, Forall_true. intros u. apply bits5_bits. }
  assert (Hlen : length (flat_map (fun u => bits5 (base32Index u)) clean)
                 = (5 * length clean)%nat).
  { apply length_bits. }
  destruct (bytesOfBits_spec _ _ (le_n _) Hbits) as [Hl Hb].
  split; [now rewrite Hl, Hlen|exact Hb].
Qed.

(** X13: [base32Decode] returns the whole bytes of the bits it reads: five
    bits for each character of the upper-cased input that is in the Base32
    alphabet, every other character being skipped and the bits left over
    at the end dropped; every element is in the range of a byte. *)
Theorem base32Decode_length (encoded : jsstring) :
  length (base32Decode encoded) =
    (5 * length (filter (fun u => isBase32Char u = true) (toUpperCase encoded)) / 8)%nat /\
  Forall byte (base32Decode encoded).
Proof. apply base32Decode_bytes. Qed.

Lemma asciiUpper_base32 (s : jsstring) :
  Forall (fun u => isBase32Char u = true) s -> Sample.asciiUpper s = s.
Proof.
  induction 1 as [|u s Hu _ IH]; [reflexivity|].
  cbn. unfold Sample.asciiUpper in IH. rewrite IH. f_equal.
  unfold isBase32Char in Hu. destruct ((97 <=? u) && (u <=? 122)) eqn:E; lia.
Qed.

Lemma base32Tail_alphabet (s : jsstring) :
  Forall (fun u => isBase32Char u = true) s -> base32Tail s = true.
Proof. induction 1 as [|u s Hu _ IH]; [reflexivity|]. cbn. now rewrite Hu. Qed.

Lemma filter_alphabet (s : jsstring) :
  Forall (fun u => isBase32Char u = true) s ->
  filter (fun u => isBase32Char u = true) s = s.
Proof.
  unfold jsstring.
  induction 1 as [|u s Hu _ IH]; [reflexivity|].
  rewrite filter_cons_True by exact Hu. now rewrite IH.
Qed.

(** X14: the secrets that [generateSecret] makes, which are also those of
    [CryptoUtils.generateTOTPSecret], pass [isValidSecret] when they have
    at least 16 characters, and decode to the whole bytes of five bits a
    character (20 bytes for the 32 characters of the default), under a
    [toUpperCase] that works on ASCII text; and no secret shorter than 16
    characters is valid. *)
Theorem isValidSecret_generated (length : nat) (w : World) :
  upperCaseWorks ->
  (16 <= length)%nat ->
  (exists secret w',
     generateSecret length w = (Ok secret, w') /\
     CryptoUtils.generateTOTPSecret length w = (Ok secret, w') /\
     List.length secret = length /\
     isValidSecret secret = true /\
     List.length (base32Decode secret) = (5 * length / 8)%nat) /\
  (forall secret, isValidSecret secret = true -> (16 <= List.length secret)%nat).
Proof.
  intros Hup Hlen. split.
  - eexists _, _. split; [reflexivity|]. split; [reflexivity|].
    set (secret := CryptoUtils.pick _ _).
    assert (Hl : List.length secret = length).
    { unfold secret.
      now rewrite AuthFacts.pick_length, CryptoFacts.length_Uint8Array_from,
        length_map, length_seq. }
    assert (Hc : Forall (fun u => isBase32Char u = true) secret).
    { unfold secret. apply Forall_forall. intros u Hu.
      assert (Hall : forallb isBase32Char CryptoUtils.base32Alphabet = true)
        by reflexivity.
      rewrite forallb_forall in Hall. apply Hall.
      unfold CryptoUtils.pick in Hu. apply list_elem_of_fmap in Hu as (b & -> & _).
      unfold charAt. apply nth_In.
      change (List.length CryptoUtils.base32Alphabet) with 32%nat. lia. }
    assert (Hupper : toUpperCase secret = secret).
    { rewrite Hup; [apply asciiUpper_base32, Hc|].
      eapply Forall_impl; [exact Hc|]. cbn. unfold isBase32Char. lia. }
    split; [exact Hl|]. split.
    + unfold isValidSecret. rewrite Hupper, Hl.
      rewrite (proj2 (Nat.leb_le 16 length) Hlen), andb_true_r.
      destruct secret as [|u secret']; [cbn in Hl; lia|].
      apply Forall_cons in Hc as [Hu Hc]. cbn [base32Regex].
      now rewrite Hu, base32Tail_alphabet.
    + rewrite (proj1 (base32Decode_bytes secret)), Hupper, filter_alphabet, Hl
        by exact Hc. reflexivity.
  - intros secret [_ Hs%Nat.leb_le]%andb_true_iff. exact Hs.
Qed.

Lemma hash_unsupported (data : list Z) (algorithm : string) :
  algorithm <> "SHA1"%string -> algorithm <> "SHA256"%string ->
  algorithm <> "SHA512"%string ->
  hash data algorithm = Throw ("Unsupported algorithm: " +:+ algorithm).
Proof.
  intros H1 H2 H3. unfold hash.
  rewrite (proj2 (String.eqb_neq _ _) H1), (proj2 (String.eqb_neq _ _) H2),
    (proj2 (String.eqb_neq _ _) H3).
  reflexivity.
Qed.

Lemma generateTOTPForTimeStep_unsupported (config : TOTPConfig) (timeStep : Z) :
  algorithm config <> "SHA1"%string -> algorithm config <> "SHA256"%string ->
  algorithm config <> "SHA512"%string ->
  generateTOTPForTimeStep config timeStep =
  Throw ("Unsupported algorithm: " +:+ algorithm config).
Proof.
  intros H1 H2 H3. unfold generateTOTPForTimeStep, hmac.
  destruct (64 <? List.length (base32Decode (secret config)))%nat eqn:E.
  - now rewrite hash_unsupported.
  - cbn [rbind]. rewrite E. cbn [rbind]. now rewrite hash_unsupported.
Qed.

(** X15: an algorithm other than SHA1, SHA256 and SHA512 makes both
    [generateTOTP] and [verifyTOTP] throw the error Unsupported algorithm,
    followed by the name given, for every secret, token and time. *)
Theorem unsupported_algorithm_throws (token secret : jsstring)
    (config : PartialTOTPConfig) (name : string) (w : World) :
  algorithm_opt config = Some name ->
  name <> ""%string ->
  name <> "SHA1"%string -> name <> "SHA256"%string -> name <> "SHA512"%string ->
  generateTOTP secret (Some config) w =
    (Throw ("Unsupported algorithm: " +:+ name), w) /\
  verifyTOTP token secret (Some config) w =
    (Throw ("Unsupported algorithm: " +:+ name), w).
Proof.
  intros Ha H0 H1 H2 H3.
  assert (Hname : algorithm (fullConfig secret (Some config)) = name).
  { cbn. rewrite Ha. now rewrite (proj2 (String.eqb_neq _ _) H0). }
  rewrite generateTOTP_run, verifyTOTP_run.
  split.
  - rewrite generateTOTPForTimeStep_unsupported; rewrite Hname; auto.
  - rewrite window_values. cbn [verifyWindow].
    rewrite generateTOTPForTimeStep_unsupported; rewrite Hname; auto.
Qed.

End WithPlatform.

(** A token of five digits is refused. *)
Lemma verifyTOTP_rejects_other_lengths_witness :
  @digestWorks Sample.platform SHA1 /\
  length (lit "12345") <> 6%nat /\
  @verifyTOTP Sample.platform (lit "12345") (lit "JBSWY3DPEHPK3PXP") None
    Sample.emptyWorld
  = (Ok {| valid := false; timeStep := None |}, Sample.emptyWorld).
Proof.
  split; [apply CryptoFacts.sample_digestWorks|]. split; [discriminate|].
  apply (@verifyTOTP_rejects_other_lengths Sample.platform);
    [apply CryptoFacts.sample_digestWorks|discriminate].
Defined.


(** A secret of the default length, 32 characters, decodes to 20 bytes. *)
Lemma isValidSecret_generated_witness :
  @upperCaseWorks Sample.platform /\ (16 <= 32)%nat /\
  exists secret w',
    @generateSecret Sample.platform 32 Sample.emptyWorld = (Ok secret, w') /\
    @CryptoUtils.generateTOTPSecret Sample.platform 32 Sample.emptyWorld
      = (Ok secret, w') /\
    length secret = 32%nat /\
    @isValidSecret Sample.platform secret = true /\
    length (@base32Decode Sample.platform secret) = (5 * 32 / 8)%nat.
Proof.
  split; [apply CryptoProperties.sample_upperCaseWorks|]. split; [lia|].
  apply (proj1 (@isValidSecret_generated Sample.platform 32 Sample.emptyWorld
                  CryptoProperties.sample_upperCaseWorks ltac:(lia))).
Defined.

(** The algorithm MD5. *)
Lemma unsupported_algorithm_throws_witness :
  let config :=
    {| digits_opt := None; period_opt := None; algorithm_opt := Some "MD5"%string |} in
  algorithm_opt config = Some "MD5"%string /\
  "MD5"%string <> ""%string /\ "MD5"%string <> "SHA1"%string /\
  "MD5"%string <> "SHA256"%string /\ "MD5"%string <> "SHA512"%string /\
  @generateTOTP Sample.platform (lit "JBSWY3DPEHPK3PXP") (Some config)
    Sample.emptyWorld
    = (Throw ("Unsupported algorithm: " +:+ "MD5"), Sample.emptyWorld) /\
  @verifyTOTP Sample.platform (lit "123456") (lit "JBSWY3DPEHPK3PXP") (Some config)
    Sample.emptyWorld
    = (Throw ("Unsupported algorithm: " +:+ "MD5"), Sample.emptyWorld).
Proof.
  intros config.
  split; [reflexivity|]. do 4 (split; [discriminate|]).
  apply (@unsupported_algorithm_throws Sample.platform (lit "123456")
           (lit "JBSWY3DPEHPK3PXP") config "MD5" Sample.emptyWorld);
    [reflexivity|discriminate..].
Defined.

End TOTPProperties.

(** ** AuthenticationManager *)

Module AuthProperties.
Import JS Text JSFacts SecureStore CryptoUtils CryptoFacts TOTPManager TOTPFacts
  JSONFacts AuthenticationManager AuthFacts.

Section WithPlatform.
Context `{Platform}.

Lemma lookup_deleted (keys : list string) (k key : string)
    (m m' : gmap string stored) :
  (forall key : string,
     m' !! key = if bool_decide (key ∈ keys) then None else delete k m !! key) ->
  m' !! key = if bool_decide (key ∈ k :: keys) then None else m !! key.
Proof.
  intros Hi. rewrite Hi.
  destruct (decide (key = k)) as [->|Hne].
  - rewrite lookup_delete_eq, (bool_decide_eq_true_2 (k ∈ k :: keys))
      by apply list_elem_of_here.
    now destruct (bool_decide _).
  - rewrite lookup_delete_ne by congruence.
    destruct (decide (key ∈ keys)) as [Hin|Hout].
    + rewrite !bool_decide_eq_true_2; auto. now apply list_elem_of_further.
    + rewrite !bool_decide_eq_false_2; auto.
      rewrite elem_of_cons. tauto.
Qed.

Lemma deleteEach_all (keys : list string) :
  forall w : World,
    (forall k, k ∈ keys -> deleteFails k = false) ->
    exists w',
      deleteEach keys w = (Ok tt, w') /\
      clock w' = clock w /\ draws w' = draws w /\
      forall key : string,
        items w' !! key = if bool_decide (key ∈ keys) then None else items w !! key.
Proof.
  induction keys as [|k keys IH]; intros w Hok.
  - exists w. repeat split.
  - cbn [deleteEach]. unfold bind at 1, deleteItemAsync at 1.
    rewrite (Hok k) by apply list_elem_of_here.
    destruct (IH (setItems w (delete k (items w)))) as (w' & -> & Hc & Hd & Hi).
    { intros k' Hk'. apply Hok. now apply list_elem_of_further. }
    exists w'. repeat split; try assumption. intros key.
    now apply lookup_deleted.
Qed.

Lemma deleteEach_stops (before : list string) (failing : string)
    (after : list string) :
  forall w : World,
    (forall k, k ∈ before -> deleteFails k = false) ->
    deleteFails failing = true ->
    exists message w',
      deleteEach (before ++ failing :: after) w = (Throw message, w') /\
      clock w' = clock w /\ draws w' = draws w /\
      forall key : string,
        items w' !! key =
        if bool_decide (key ∈ before) then None else items w !! key.
Proof.
  induction before as [|k before IH]; intros w Hok Hfail.
  - cbn [app deleteEach]. unfold bind, deleteItemAsync. rewrite Hfail.
    eexists _, w. repeat split.
  - cbn [app deleteEach]. unfold bind at 1, deleteItemAsync at 1.
    rewrite (Hok k) by apply list_elem_of_here.
    destruct (IH (setItems w (delete k (items w)))) as (e & w' & -> & Hc & Hd & Hi).
    { intros k' Hk'. apply Hok. now apply list_elem_of_further. }
    { exact Hfail. }
    exists e, w'. repeat split; try assumption. intros key.
    now apply lookup_deleted.
Qed.

Lemma deleteEach_frame (keys : list string) :
  forall w : World,
    exists r w',
      deleteEach keys w = (r, w') /\
      clock w' = clock w /\ draws w' = draws w /\
      forall key : string, key ∉ keys -> items w' !! key = items w !! key.
Proof.
  induction keys as [|k keys IH]; intros w.
  - exists (Ok tt), w. repeat split.
  - cbn [deleteEach]. unfold bind at 1, deleteItemAsync at 1.
    destruct (deleteFails k); [eexists _, w; repeat split|].
    destruct (IH (setItems w (delete k (items w)))) as (r & w' & -> & Hc & Hd & Hi).
    exists r, w'. repeat split; try assumption. intros key Hout.
    rewrite Hi by (intros Hin; apply Hout; now apply list_elem_of_further).
    cbn [items setItems]. apply lookup_delete_ne.
    intros ->. apply Hout, list_elem_of_here.
Qed.

(** X16: [clearAllAuthenticationData] never throws and touches only its six
    keys.  When no deletion fails, the six keys are absent afterwards.
    When a deletion fails, the keys listed before the failing one are
    absent, and the failing key and all the keys listed after it are left
    as they were. *)
Theorem clearAllAuthenticationData_effect (w : World) :
  let w' := (clearAllAuthenticationData w).2 in
  (clearAllAuthenticationData w).1 = Ok tt /\
  clock w' = clock w /\ draws w' = draws w /\
  (forall key, key ∉ keysToDelete -> items w' !! key = items w !! key) /\
  ((forall key, key ∈ keysToDelete -> deleteFails key = false) ->
   forall key, key ∈ keysToDelete -> items w' !! key = None) /\
  (forall before failing after,
     keysToDelete = before ++ failing :: after ->
     (forall key, key ∈ before -> deleteFails key = false) ->
     deleteFails failing = true ->
     (forall key, key ∈ before -> items w' !! key = None) /\
     (forall key, key ∈ failing :: after -> items w' !! key = items w !! key)).
Proof.
  unfold clearAllAuthenticationData, try_catch.
  assert (Hnodup : NoDup keysToDelete).
  { unfold keysToDelete.
    repeat (apply NoDup_cons_2;
            [rewrite ?elem_of_cons, elem_of_nil; intuition discriminate|]).
    apply NoDup_nil_2. }
  split; [|split; [|split; [|split; [|split]]]].
  - destruct (deleteEach_frame keysToDelete w) as ([[]|e] & w' & -> & _); reflexivity.
  - destruct (deleteEach_frame keysToDelete w) as ([[]|e] & w' & -> & Hc & _); exact Hc.
  - destruct (deleteEach_frame keysToDelete w) as ([[]|e] & w' & -> & _ & Hd & _); exact Hd.
  - destruct (deleteEach_frame keysToDelete w) as ([[]|e] & w' & -> & _ & _ & Hi); exact Hi.
  - intros Hall key Hin.
    destruct (deleteEach_all keysToDelete w Hall) as (w' & -> & _ & _ & Hi).
    cbn [snd]. rewrite Hi. now rewrite bool_decide_eq_true_2.
  - intros before failing after Hsplit Hb Hf. rewrite Hsplit in Hnodup |- *.
    destruct (deleteEach_stops before failing after w Hb Hf)
      as (e & w' & -> & _ & _ & Hi).
    apply NoDup_app in Hnodup as (_ & Hdisj & _).
    cbn [snd ret]. split; intros key Hin; rewrite Hi.
    + now rewrite bool_decide_eq_true_2.
    + rewrite bool_decide_eq_false_2; [reflexivity|].
      intros Hbefore. exact (Hdisj key Hbefore Hin).
Qed.

(** X17: a wrong master password ends the authentication at once.  When the
    credentials carry a password that is not empty and
    [verifyMasterPassword] refuses it, [authenticateUser] reports the error
    Invalid master password with every flag [false], whatever the settings
    and the other credentials; no other factor is tried and the world is
    as before, so that no recovery code is consumed. *)
Theorem authenticateUser_wrong_password (credentials : AuthCredentials)
    (pw : jsstring) (w : World) :
  password credentials = Some pw ->
  pw <> [] ->
  verifyMasterPassword pw w = (Ok false, w) ->
  authenticateUser credentials w =
  (Ok {| passwordValid := false; biometricValid := false;
         twoFactorValid := false; success := false;
         error := Some "Invalid master password"%string |}, w).
Proof.
  intros Hpw Hne Hver. unfold authenticateUser, try_catch.
  rewrite (bind_ok _ _ _ _ _ (getAuthenticationSettings_run w)).
  rewrite Hpw. destruct pw as [|u pw]; [contradiction|].
  cbn [truthy toString]. rewrite (bind_ok _ _ _ _ _ Hver).
  reflexivity.
Qed.

(** X18: [authenticateUser] fails open when the settings cannot be read.  If
    the store fails on one of the three keys that
    [getAuthenticationSettings] reads, no factor is required, and empty
    credentials are reported as a success, whatever the store holds. *)
Theorem authenticateUser_unreadable_settings (w : World) :
  getFails "biometricEnabled" = true \/ getFails "hasSetupPassword" = true
    \/ getFails "twoFactorConfig" = true ->
  authenticateUser
    {| password := None; requestBiometric := None;
       twoFactorCode := None; recoveryCode := None |} w =
  (Ok {| passwordValid := false; biometricValid := false;
         twoFactorValid := false; success := true; error := None |}, w).
Proof.
  intros Hfail. unfold authenticateUser, try_catch.
  rewrite (bind_ok _ _ _ _ _ (getAuthenticationSettings_run w)).
  assert (getFails "biometricEnabled" || getFails "hasSetupPassword"
            || getFails "twoFactorConfig" = true) as ->.
  { destruct Hfail as [->|[->| ->]]; [reflexivity| |];
      now rewrite ?orb_true_r. }
  reflexivity.
Qed.

(** X19: the final check of [authenticateUser].  On the methods that
    [getRequiredAuthMethods] lists for the settings,
    [validateAuthenticationResults] holds exactly when every factor that
    the settings enable is valid in the results. *)
Theorem validate_required_methods (results : AuthResults) (settings : AuthSettings) :
  validateAuthenticationResults results (getRequiredAuthMethods settings) = true <->
  (hasPassword settings = true -> passwordValid results = true) /\
  (biometricEnabled settings = true -> biometricValid results = true) /\
  (twoFactorEnabled settings = true -> twoFactorValid results = true).
Proof.
  rewrite validate_required.
  destruct settings as [[] [] []], results as [[] [] [] ? ?]; cbn;
    intuition discriminate.
Qed.

(** X20: [createSession] stores the session under the key currentSession and
    nothing else.  When the store accepts the entry, the session returned
    has an identifier of 64 ASCII letters and digits and its JSON text is
    the entry stored; it is created at the first reading of the clock and
    expires 24 hours after the second reading, so that the two are 24 hours
    apart only up to the time that passed between the readings.  When the
    store refuses the entry, [createSession] throws an error whose message
    starts with Session creation failed, and the store is as before. *)
Theorem createSession_effect (elapsed : Z) (w : World) :
  (setFails "currentSession" = false ->
   exists session w',
     createSession elapsed w = (Ok session, w') /\
     items w' = <["currentSession"%string := Plain (sessionJSON session)]> (items w) /\
     length (sessionId session) = 64%nat /\
     Forall (fun u => 48 <= u <= 57 \/ 65 <= u <= 90 \/ 97 <= u <= 122)
       (sessionId session) /\
     createdAt session = toISOString (clock w) /\
     expiresAt session = toISOString (clock w + elapsed + 86400000)) /\
  (setFails "currentSession" = true ->
   exists message w',
     createSession elapsed w =
       (Throw ("Session creation failed: " +:+ message), w') /\
     items w' = items w).
Proof.
  set (w1 := {| items := items w; clock := clock w + elapsed; draws := draws w |}).
  destruct (CryptoProperties.generateRandomString_chars 64 w1)
    as (id & Hid & Hlen & Hchars).
  split; intros Hset; unfold createSession, try_catch, bind at 1, bind at 1,
    bind at 1, Date_now, passTime; fold w1; rewrite (bind_ok _ _ _ _ _ Hid);
    unfold bind, setItemAsync, ret, throw; rewrite Hset.
  - eexists _, _. split; [reflexivity|]. repeat split; assumption.
  - eexists _, _. split; [reflexivity|]. reflexivity.
Qed.

Lemma upper_alphanumeric_codeUnits (codes : list jsstring) :
  Forall (fun code =>
            List.length code = 8%nat /\
            Forall (fun u => 48 <= u <= 57 \/ 65 <= u <= 90) code) codes ->
  Forall codeUnits codes.
Proof.
  intros Hc. eapply Forall_impl; [exact Hc|]. cbn. intros code [_ Hu].
  unfold codeUnits. eapply Forall_impl; [exact Hu|]. cbn. lia.
Qed.

(** What [setup2FA] stores and returns. *)
Lemma setup2FA_run (masterPassword : jsstring) (w : World) :
  digestWorks SHA256 ->
  upperCaseWorks ->
  setFails "twoFactorConfig" = false ->
  exists r w' blob,
    setup2FA masterPassword (lit "device_unique_id") w = (Ok r, w') /\
    items w' = <["twoFactorConfig"%string := ConfigJSON (config r)]> (items w) /\
    clock w' = clock w /\
    decrypt (encryptedSecret (config r))
      (masterPassword ++ lit "device_unique_id" ++ lit "TOTP_SECRET_SALT")
      = Ok (manualEntryKey r) /\
    encryptedRecoveryCodes (config r) = [blob] /\
    decrypt blob (recoveryKey masterPassword)
      = Ok (JSON.stringify (recoveryCodes r)) /\
    List.length (recoveryCodes r) = 8%nat /\
    Forall (fun code =>
              List.length code = 8%nat /\
              Forall (fun u => 48 <= u <= 57 \/ 65 <= u <= 90) code)
      (recoveryCodes r).
Proof.
  intros Hw Hup Hset. unfold setup2FA, try_catch.
  set (wA := {| items := items w; clock := clock w; draws := S (draws w) |}).
  set (totpSecret :=
         pick base32Alphabet
           (Uint8Array_from (map (randomByte (draws w)) (seq 0 32)))).
  assert (HA : TOTPManager.generateSecret 32 w = (Ok totpSecret, wA))
    by reflexivity.
  rewrite (bind_ok _ _ _ _ _ HA).
  destruct (encrypt_works totpSecret
              (masterPassword ++ lit "device_unique_id" ++ lit "TOTP_SECRET_SALT")
              None wA Hw) as (blobS & wB & HeS).
  rewrite (bind_ok _ _ _ _ _ HeS).
  destruct (CryptoProperties.generateRecoveryCodes_shape 8 wB Hup)
    as (codes & wC & Hcodes & Hlen & Hshape & HiC & HcC & _).
  rewrite (bind_ok _ _ _ _ _ Hcodes).
  destruct (encrypt_works (JSON.stringify codes)
              (masterPassword ++ lit "device_unique_id" ++ lit "RECOVERY_CODE_SALT")
              None wC Hw) as (blobR & wD & HeR).
  rewrite (bind_ok _ _ _ _ _ HeR).
  unfold bind, TOTPManager.Date_now, setItemAsync, ret. rewrite Hset.
  eexists _, _, blobR. split; [reflexivity|].
  pose proof (encrypt_returns _ _ _ _ _ _ HeS) as (_ & _ & _ & _ & HiB & HcB).
  pose proof (encrypt_returns _ _ _ _ _ _ HeR) as (_ & _ & _ & _ & HiD & HcD).
  cbn [items clock setItems config manualEntryKey encryptedSecret
       encryptedRecoveryCodes recoveryCodes] in *.
  rewrite HiD, HiC, HiB, HcD, HcC, HcB. split; [reflexivity|]. split; [reflexivity|].
  assert (Hascii : Forall (fun u => 0 <= u < 128) totpSecret).
  { apply pick_ascii; [discriminate|apply base32Alphabet_ascii]. }
  split.
  { rewrite (decrypt_after_encrypt _ _ _ _ _ _
               (TextEncoder_bytes _ (JSONFacts.isWellFormed_ascii _ Hascii)) HeS).
    f_equal. apply TextDecoder_TextEncoder;
      [now apply JSONFacts.isWellFormed_ascii|now apply ascii_no_bom]. }
  split; [reflexivity|]. split; [|split; assumption].
  rewrite <- recovery_key.
  apply (decrypt_stringified_batch codes _ None wC wD);
    [now apply upper_alphanumeric_codeUnits|exact HeR].
Qed.

Lemma authenticateUser_password_only (pw : jsstring) (b : bool) (w : World) :
  (getAuthenticationSettings w).1 =
    Ok {| hasPassword := true; biometricEnabled := b; twoFactorEnabled := false |} ->
  pw <> [] ->
  verifyMasterPassword pw w = (Ok true, w) ->
  authenticateUser
    {| password := Some pw; requestBiometric := None;
       twoFactorCode := None; recoveryCode := None |} w =
  (Ok {| passwordValid := true; biometricValid := false;
         twoFactorValid := false; success := negb b; error := None |}, w).
Proof.
  intros Hset Hne Hver.
  rewrite getAuthenticationSettings_run in Hset. cbn [fst] in Hset.
  injection Hset as Hset.
  unfold authenticateUser, try_catch.
  rewrite (bind_ok _ _ _ _ _ (getAuthenticationSettings_run w)), Hset.
  cbn [password requestBiometric twoFactorCode recoveryCode toString
       hasPassword biometricEnabled twoFactorEnabled].
  destruct pw as [|u pw]; [contradiction|].
  cbn [truthy andb negb]. rewrite (bind_ok _ _ _ _ _ Hver).
  cbn [andb negb]. rewrite andb_false_r.
  unfold bind, ret. cbn [andb negb]. rewrite validate_required.
  now destruct b.
Qed.

Lemma authenticateUser_with_code (pw code : jsstring) (w : World) :
  (getAuthenticationSettings w).1 =
    Ok {| hasPassword := true; biometricEnabled := false; twoFactorEnabled := true |} ->
  pw <> [] ->
  verifyMasterPassword pw w = (Ok true, w) ->
  verify2FA code pw w = (Ok true, w) ->
  authenticateUser
    {| password := Some pw; requestBiometric := None;
       twoFactorCode := Some code; recoveryCode := None |} w =
  (Ok {| passwordValid := true; biometricValid := false;
         twoFactorValid := true; success := true; error := None |}, w).
Proof.
  intros Hset Hne Hver H2fa.
  pose proof (verify2FA_true _ _ _ _ H2fa) as Hcode.
  rewrite getAuthenticationSettings_run in Hset. cbn [fst] in Hset.
  injection Hset as Hset.
  unfold authenticateUser, try_catch.
  rewrite (bind_ok _ _ _ _ _ (getAuthenticationSettings_run w)), Hset.
  cbn [password requestBiometric twoFactorCode recoveryCode toString
       hasPassword biometricEnabled twoFactorEnabled].
  destruct pw as [|u pw]; [contradiction|].
  destruct code as [|c code]; [congruence|].
  cbn [truthy andb negb]. rewrite (bind_ok _ _ _ _ _ Hver).
  cbn [andb negb]. unfold bind at 1, ret at 1. cbn [andb negb].
  rewrite (bind_ok _ _ _ _ _ H2fa). cbn [andb negb].
  reflexivity.
Qed.

Lemma authenticateUser_with_recovery_code (pw code : jsstring) (w w' : World) :
  (getAuthenticationSettings w).1 =
    Ok {| hasPassword := true; biometricEnabled := false; twoFactorEnabled := true |} ->
  pw <> [] -> code <> [] ->
  verifyMasterPassword pw w = (Ok true, w) ->
  verifyRecoveryCode code pw w = (Ok true, w') ->
  authenticateUser
    {| password := Some pw; requestBiometric := None;
       twoFactorCode := None; recoveryCode := Some code |} w =
  (Ok {| passwordValid := true; biometricValid := false;
         twoFactorValid := true; success := true; error := None |}, w').
Proof.
  intros Hset Hne Hcode Hver Hrec.
  rewrite getAuthenticationSettings_run in Hset. cbn [fst] in Hset.
  injection Hset as Hset.
  unfold authenticateUser, try_catch.
  rewrite (bind_ok _ _ _ _ _ (getAuthenticationSettings_run w)), Hset.
  cbn [password requestBiometric twoFactorCode recoveryCode toString
       hasPassword biometricEnabled twoFactorEnabled].
  destruct pw as [|u pw]; [contradiction|].
  destruct code as [|c code]; [contradiction|].
  cbn [truthy andb negb]. rewrite (bind_ok _ _ _ _ _ Hver).
  cbn [andb negb]. unfold bind at 1, ret at 1. cbn [andb negb].
  rewrite (bind_ok _ _ _ _ _ Hrec). cbn [andb negb].
  reflexivity.
Qed.

(** X21: an emergency wipe leaves the credentials in place.  In a store
    whose reads and deletions do not fail, a master password that verified
    before [emergencyWipe] verifies after it; the settings then say that no
    password is set and that biometrics are off, and report the second
    factor as before; and if no second factor was configured,
    [authenticateUser] reports a success for empty credentials. *)
Theorem emergencyWipe_keeps_credentials (pw : jsstring) (w : World) :
  (forall key, getFails key = false) ->
  (forall key, deleteFails key = false) ->
  verifyMasterPassword pw w = (Ok true, w) ->
  let w' := (SecurityManager.emergencyWipe w).2 in
  verifyMasterPassword pw w' = (Ok true, w') /\
  (getAuthenticationSettings w').1 =
    Ok {| hasPassword := false; biometricEnabled := false;
          twoFactorEnabled := present (items w !! "twoFactorConfig"%string) |} /\
  (items w !! "twoFactorConfig"%string = None ->
   authenticateUser
     {| password := None; requestBiometric := None;
        twoFactorCode := None; recoveryCode := None |} w' =
   (Ok {| passwordValid := false; biometricValid := false;
          twoFactorValid := false; success := true; error := None |}, w')).
Proof.
  intros Hget Hdel Hver w'.
  assert (Hi : forall key : string,
            items w' !! key =
            if bool_decide (key ∈ SecurityManager.keys) then None else items w !! key).
  { intros key. unfold w'. rewrite WipeFacts.emergencyWipe_run.
    cbn [snd items setItems]. rewrite WipeFacts.lookup_remaining, Hdel.
    now rewrite andb_true_r. }
  assert (Hsettings : getAuthenticationSettings w' =
    (Ok {| hasPassword := false; biometricEnabled := false;
           twoFactorEnabled := present (items w !! "twoFactorConfig"%string) |}, w')).
  { rewrite getAuthenticationSettings_run, !Hget, !Hi. reflexivity. }
  split; [|split].
  - destruct (verifyMasterPassword_run pw w) as (v & Hrun & Hiff).
    rewrite Hver in Hrun. injection Hrun as <-.
    destruct (proj1 Hiff eq_refl) as (G1 & G2 & storedHash & salt & H1 & H2 & H3 & H4 & H5).
    destruct (verifyMasterPassword_run pw w') as (v' & Hrun' & Hiff').
    rewrite Hrun'. f_equal. f_equal. apply Hiff'.
    split; [exact G1|]. split; [exact G2|]. exists storedHash, salt.
    rewrite !Hi. repeat split; assumption.
  - now rewrite Hsettings.
  - intros Hnone. rewrite Hnone in Hsettings.
    unfold authenticateUser, try_catch.
    rewrite (bind_ok _ _ _ _ _ Hsettings). reflexivity.
Qed.

Section WithLocalAuthentication.
Context `{LocalAuthentication}.

Lemma setupBiometric_available (types : list Z) (w : World) :
  hasHardwareAsync = Ok true -> isEnrolledAsync = Ok true ->
  supportedAuthenticationTypesAsync = Ok types ->
  setupBiometric w =
  (Ok {| available := true; enrolled := true; types := types |}, w).
Proof.
  intros H1 H2 H3. unfold setupBiometric, try_catch, bind, lift, ret.
  rewrite H1. cbn [negb]. rewrite H2. cbn [negb]. rewrite H3. reflexivity.
Qed.

(** The steps that every successful setup makes: the six keys cleared,
    the password stored, the biometric setting written. *)
Lemma setup_steps (authConfig : AuthConfig) (w : World) :
  digestWorks SHA256 ->
  (forall key, setFails key = false) ->
  (forall key, deleteFails key = false) ->
  (default false (enableBiometric authConfig) = true ->
   hasHardwareAsync = Ok true /\ isEnrolledAsync = Ok true /\
   exists types, supportedAuthenticationTypesAsync = Ok types) ->
  exists hash salt w3,
    salt <> [] /\ hash <> [] /\
    deriveKey (masterPassword authConfig) salt 10000 64 = Ok hash /\
    clock w3 = clock w /\
    (forall key : string,
       items w3 !! key =
       if decide (key = "biometricEnabled"%string)
       then Some (Plain (lit (if default false (enableBiometric authConfig)
                              then "true" else "false")))
       else if decide (key = "hasSetupPassword"%string)
       then Some (Plain (lit "true"))
       else if decide (key = "passwordSalt"%string) then Some (Plain salt)
       else if decide (key = "masterPasswordHash"%string) then Some (Plain hash)
       else if bool_decide (key ∈ keysToDelete) then None
       else items w !! key) /\
    forall (X : Type) (k : M X),
      bind clearAllAuthenticationData (fun _ =>
        bind (storeMasterPassword (masterPassword authConfig)) (fun _ =>
          bind (if default false (enableBiometric authConfig)
                then bind setupBiometric (fun _ => ret tt) else ret tt) (fun _ =>
            bind (setItemAsync "biometricEnabled"
                    (Plain (lit (if default false (enableBiometric authConfig)
                                 then "true" else "false"))))
                 (fun _ => k)))) w
      = k w3.
Proof.
  intros Hw Hset Hdel Hbio.
  assert (Hclear : exists w1,
            clearAllAuthenticationData w = (Ok tt, w1) /\ clock w1 = clock w /\
            forall key : string,
              items w1 !! key =
              if bool_decide (key ∈ keysToDelete) then None else items w !! key).
  { unfold clearAllAuthenticationData, try_catch.
    destruct (deleteEach_all keysToDelete w (fun k _ => Hdel k))
      as (w1 & -> & Hc & _ & Hi).
    now exists w1. }
  destruct Hclear as (w1 & Hclear & Hc1 & Hi1).
  destruct (storeMasterPassword_works (masterPassword authConfig) w1 Hw
              (Hset _) (Hset _) (Hset _))
    as (hash & salt & w2 & Hstore & Hi2 & Hc2 & Hsalt & Hhash & Hk).
  set (b := default false (enableBiometric authConfig)) in *.
  assert (Hstep : (if b then bind setupBiometric (fun _ => ret tt) else ret tt) w2
                  = (Ok tt, w2)).
  { destruct b; [|reflexivity].
    destruct (Hbio eq_refl) as (H1 & H2 & types & H3).
    now rewrite (bind_ok _ _ _ _ _ (setupBiometric_available types w2 H1 H2 H3)). }
  exists hash, salt,
    (setItems w2 (<["biometricEnabled"%string :=
                      Plain (lit (if b then "true" else "false"))]> (items w2))).
  split; [exact Hsalt|]. split; [exact Hhash|]. split; [exact Hk|].
  split; [cbn [clock setItems]; congruence|]. split.
  - intros key. cbn [items setItems]. rewrite Hi2.
    destruct (decide (key = "biometricEnabled"%string)) as [->|N1];
      [apply lookup_insert_eq|].
    rewrite lookup_insert_ne by congruence.
    destruct (decide (key = "hasSetupPassword"%string)) as [->|N2];
      [apply lookup_insert_eq|].
    rewrite lookup_insert_ne by congruence.
    destruct (decide (key = "passwordSalt"%string)) as [->|N3];
      [apply lookup_insert_eq|].
    rewrite lookup_insert_ne by congruence.
    destruct (decide (key = "masterPasswordHash"%string)) as [->|N4];
      [apply lookup_insert_eq|].
    rewrite lookup_insert_ne by congruence.
    apply Hi1.
  - intros X k.
    rewrite (bind_ok _ _ _ _ _ Hclear), (bind_ok _ _ _ _ _ Hstore),
      (bind_ok _ _ _ _ _ Hstep).
    unfold bind, setItemAsync. now rewrite Hset.
Qed.

(** X22: a setup without the second factor, followed by a login.  Under a
    working SHA-256 and a store that does not fail, for a master password
    that is not empty, and with the biometric hardware enrolled if
    biometrics are asked for, [setupAuthentication] returns
    [{ success: true }]; afterwards the settings say that a
    password is set, that biometrics are enabled as asked, that the second
    factor is off; the password verifies; and [authenticateUser] with the
    password alone succeeds exactly when biometrics were not enabled.  The
    keys other than the six authentication keys are as before. *)
Theorem setupAuthentication_then_login (authConfig : AuthConfig) (w : World) :
  digestWorks SHA256 ->
  (forall key, getFails key = false) ->
  (forall key, setFails key = false) ->
  (forall key, deleteFails key = false) ->
  (default false (enableBiometric authConfig) = true ->
   hasHardwareAsync = Ok true /\ isEnrolledAsync = Ok true /\
   exists types, supportedAuthenticationTypesAsync = Ok types) ->
  default false (enable2FA authConfig) = false ->
  masterPassword authConfig <> [] ->
  exists w',
    setupAuthentication authConfig w = (Ok Success, w') /\
    (getAuthenticationSettings w').1 =
      Ok {| hasPassword := true;
            biometricEnabled := default false (enableBiometric authConfig);
            twoFactorEnabled := false |} /\
    verifyMasterPassword (masterPassword authConfig) w' = (Ok true, w') /\
    authenticateUser
      {| password := Some (masterPassword authConfig); requestBiometric := None;
         twoFactorCode := None; recoveryCode := None |} w' =
    (Ok {| passwordValid := true; biometricValid := false;
           twoFactorValid := false;
           success := negb (default false (enableBiometric authConfig));
           error := None |}, w') /\
    (forall key, key ∉ keysToDelete -> items w' !! key = items w !! key).
Proof.
  intros Hw Hget Hset Hdel Hbio H2fa Hne.
  destruct (setup_steps authConfig w Hw Hset Hdel Hbio)
    as (hash & salt & w3 & Hsalt & Hhash & Hk & Hc & Hi & Hrun).
  set (w' := setItems w3 (delete "twoFactorConfig"%string (items w3))).
  exists w'.
  assert (Hi' : forall key : string,
            items w' !! key =
            if decide (key = "twoFactorConfig"%string) then None
            else items w3 !! key).
  { intros key. cbn [items setItems w']. destruct (decide _) as [->|N].
    - apply lookup_delete_eq.
    - apply lookup_delete_ne. congruence. }
  assert (Hsettings : (getAuthenticationSettings w').1 =
      Ok {| hasPassword := true;
            biometricEnabled := default false (enableBiometric authConfig);
            twoFactorEnabled := false |}).
  { rewrite getAuthenticationSettings_run, !Hget. cbn [orb fst].
    rewrite !Hi', !Hi. cbn [decide]. f_equal.
    now destruct (default false (enableBiometric authConfig)). }
  assert (Hver : verifyMasterPassword (masterPassword authConfig) w' = (Ok true, w')).
  { apply (verifyMasterPassword_correct _ hash salt); auto;
      rewrite Hi', Hi; reflexivity. }
  split; [|split; [exact Hsettings|split; [exact Hver|split]]].
  - unfold setupAuthentication, try_catch. cbv zeta.
    rewrite Hrun, H2fa. unfold bind, deleteItemAsync, ret. now rewrite Hdel.
  - now apply authenticateUser_password_only.
  - intros key Hout. rewrite Hi', Hi.
    destruct (decide (key = "twoFactorConfig"%string)) as [->|_].
    { exfalso. apply Hout. unfold keysToDelete.
      rewrite !elem_of_cons. tauto. }
    repeat (destruct (decide _) as [->|_];
            [exfalso; apply Hout; unfold keysToDelete;
             rewrite !elem_of_cons; tauto|]).
    now rewrite bool_decide_eq_false_2.
Qed.

(** X23: a setup with the second factor, followed by a login.  Under working
    SHA-256 and SHA-1 digests, a [toUpperCase] that works on ASCII text and a
    store that does not fail, for the device identifier that [getDeviceId]
    returns and a password that is not empty, [setupAuthentication] returns
    the result of [setup2FA] with eight recovery codes; afterwards
    [authenticateUser] succeeds with the password and the code of the
    current time step for the secret returned, and it succeeds with the
    password and any one of the recovery codes returned. *)
Theorem setupAuthentication_with_second_factor (authConfig : AuthConfig) (w : World) :
  digestWorks SHA256 -> digestWorks SHA1 ->
  upperCaseWorks ->
  (forall key, getFails key = false) ->
  (forall key, setFails key = false) ->
  (forall key, deleteFails key = false) ->
  default false (enableBiometric authConfig) = false ->
  default false (enable2FA authConfig) = true ->
  authDeviceId authConfig = lit "device_unique_id" ->
  masterPassword authConfig <> [] ->
  exists r w',
    setupAuthentication authConfig w = (Ok (TwoFASetup r), w') /\
    List.length (recoveryCodes r) = 8%nat /\
    (exists code,
       generateTOTP (manualEntryKey r) None w' = (Ok code, w') /\
       authenticateUser
         {| password := Some (masterPassword authConfig); requestBiometric := None;
            twoFactorCode := Some code; recoveryCode := None |} w' =
       (Ok {| passwordValid := true; biometricValid := false;
              twoFactorValid := true; success := true; error := None |}, w')) /\
    (forall code, code ∈ recoveryCodes r ->
       exists w'',
         authenticateUser
           {| password := Some (masterPassword authConfig); requestBiometric := None;
              twoFactorCode := None; recoveryCode := Some code |} w' =
         (Ok {| passwordValid := true; biometricValid := false;
                twoFactorValid := true; success := true; error := None |}, w'')).
Proof.
  intros Hw Hw1 Hup Hget Hset Hdel Hb H2fa Hdev Hne.
  destruct (setup_steps authConfig w Hw Hset Hdel)
    as (hash & salt & w3 & Hsalt & Hhash & Hk & Hc & Hi & Hrun);
    [rewrite Hb; discriminate|].
  destruct (setup2FA_run (masterPassword authConfig) w3 Hw Hup (Hset _))
    as (r & w' & blob & Hsetup & Hi' & Hc' & Hsecret & Hone & Hblob & Hlen & Hshape).
  exists r, w'.
  assert (Hitem : items w' !! "twoFactorConfig"%string = Some (ConfigJSON (config r)))
    by (rewrite Hi'; apply lookup_insert_eq).
  assert (Hsettings : (getAuthenticationSettings w').1 =
      Ok {| hasPassword := true; biometricEnabled := false;
            twoFactorEnabled := true |}).
  { rewrite getAuthenticationSettings_run, !Hget. cbn [orb fst].
    rewrite Hitem, Hi'. rewrite !lookup_insert_ne by discriminate.
    rewrite !Hi, Hb. reflexivity. }
  assert (Hver : verifyMasterPassword (masterPassword authConfig) w' = (Ok true, w')).
  { apply (verifyMasterPassword_correct _ hash salt); auto;
      rewrite Hi', lookup_insert_ne by discriminate; rewrite Hi; reflexivity. }
  split; [|split; [exact Hlen|split]].
  - unfold setupAuthentication, try_catch. cbv zeta.
    rewrite Hrun, H2fa, Hdev. now rewrite (bind_ok _ _ _ _ _ Hsetup).
  - destruct (generateTOTPForTimeStep_works (manualEntryKey r)
                (currentTimeStep (clock w') (period (fullConfig (manualEntryKey r) None)))
                Hw1) as (code & Hcode).
    assert (Hgen : generateTOTP (manualEntryKey r) None w' = (Ok code, w'))
      by (rewrite generateTOTP_run; now rewrite Hcode).
    exists code. split; [exact Hgen|].
    destruct (verifyTOTP_current _ _ _ Hw1 Hgen) as (matched & Hmatch).
    apply authenticateUser_with_code; auto.
    eapply verify2FA_correct; [apply Hget|exact Hitem|exact Hsecret|exact Hmatch|reflexivity].
  - intros code Hin.
    pose proof (consume_batch code (masterPassword authConfig) w' (config r) blob
                  (recoveryCodes r) Hw (Hget _) (Hset _) Hitem Hone Hblob
                  (upper_alphanumeric_codeUnits _ Hshape)) as Hconsume.
    destruct (indexOf (recoveryCodes r) code) as [i|] eqn:Ei.
    2: { apply indexOf_None in Ei. contradiction. }
    destruct Hconsume as (blob' & w'' & Hrec & _).
    exists w''. apply authenticateUser_with_recovery_code; auto.
    rewrite Forall_forall in Hshape. destruct (Hshape code Hin) as [Hl _].
    intros ->. discriminate.
Qed.

(** X24: the setup is not atomic.  When biometrics are asked for on a device
    without the hardware, under a working SHA-256 and a store that does not
    fail, [setupAuthentication] throws the error of [setupBiometric] inside
    its own; by then the six keys have been cleared and the new password
    stored, so that the password verifies afterwards, while the biometric
    setting and the second factor are absent. *)
Theorem setupAuthentication_without_hardware (authConfig : AuthConfig) (w : World) :
  digestWorks SHA256 ->
  (forall key, getFails key = false) ->
  (forall key, setFails key = false) ->
  (forall key, deleteFails key = false) ->
  default false (enableBiometric authConfig) = true ->
  hasHardwareAsync = Ok false ->
  exists w',
    setupAuthentication authConfig w =
      (Throw ("Authentication setup failed: Biometric setup failed: "
              +:+ "Biometric hardware not available"), w') /\
    verifyMasterPassword (masterPassword authConfig) w' = (Ok true, w') /\
    items w' !! "hasSetupPassword"%string = Some (Plain (lit "true")) /\
    items w' !! "biometricEnabled"%string = None /\
    items w' !! "twoFactorConfig"%string = None.
Proof.
  intros Hw Hget Hset Hdel Hb Hhw.
  destruct (deleteEach_all keysToDelete w (fun k _ => Hdel k))
    as (w1 & Hclear & Hc1 & _ & Hi1).
  destruct (storeMasterPassword_works (masterPassword authConfig) w1 Hw
              (Hset _) (Hset _) (Hset _))
    as (hash & salt & w2 & Hstore & Hi2 & Hc2 & Hsalt & Hhash & Hk).
  exists w2. split; [|split; [|split; [|split]]].
  - unfold setupAuthentication, try_catch. cbv zeta.
    unfold bind at 1, clearAllAuthenticationData, try_catch. rewrite Hclear.
    rewrite (bind_ok _ _ _ _ _ Hstore), Hb.
    unfold setupBiometric, try_catch, bind, lift, throw. rewrite Hhw.
    reflexivity.
  - apply (verifyMasterPassword_correct _ hash salt); auto; rewrite Hi2.
    + rewrite !lookup_insert_ne by discriminate. apply lookup_insert_eq.
    + rewrite lookup_insert_ne by discriminate. apply lookup_insert_eq.
  - rewrite Hi2. apply lookup_insert_eq.
  - rewrite Hi2, !lookup_insert_ne by discriminate. rewrite Hi1. reflexivity.
  - rewrite Hi2, !lookup_insert_ne by discriminate. rewrite Hi1. reflexivity.
Qed.

End WithLocalAuthentication.
End WithPlatform.

(** A guess at the password, in a store without one. *)
Lemma authenticateUser_wrong_password_witness :
  let credentials :=
    {| password := Some (lit "guess"); requestBiometric := Some true;
       twoFactorCode := Some (lit "123456"); recoveryCode := Some (lit "ABCD1234") |} in
  password credentials = Some (lit "guess") /\
  lit "guess" <> [] /\
  @verifyMasterPassword Sample.platform (lit "guess") Sample.emptyWorld
    = (Ok false, Sample.emptyWorld) /\
  @authenticateUser Sample.platform credentials Sample.emptyWorld =
  (Ok {| passwordValid := false; biometricValid := false;
         twoFactorValid := false; success := false;
         error := Some "Invalid master password"%string |}, Sample.emptyWorld).
Proof.
  intros credentials.
  split; [reflexivity|]. split; [discriminate|]. split; [reflexivity|].
  apply (@authenticateUser_wrong_password Sample.platform credentials (lit "guess"));
    [reflexivity|discriminate|reflexivity].
Defined.

(** A store that cannot be read, after a full setup. *)
Lemma authenticateUser_unreadable_settings_witness :
  (@getFails Sample.unreadableStore "biometricEnabled" = true \/
   @getFails Sample.unreadableStore "hasSetupPassword" = true \/
   @getFails Sample.unreadableStore "twoFactorConfig" = true) /\
  @authenticateUser Sample.unreadableStore
    {| password := None; requestBiometric := None;
       twoFactorCode := None; recoveryCode := None |}
    (Sample.afterSetup Sample.masterPassword) =
  (Ok {| passwordValid := false; biometricValid := false;
         twoFactorValid := false; success := true; error := None |},
   Sample.afterSetup Sample.masterPassword).
Proof.
  split; [now left|].
  apply (@authenticateUser_unreadable_settings Sample.unreadableStore).
  now left.
Defined.

(** The setup of the sample password alone, on a device with biometrics
    that are not asked for. *)
Lemma setupAuthentication_then_login_witness :
  let authConfig :=
    {| masterPassword := Sample.masterPassword; enableBiometric := None;
       enable2FA := Some false; authDeviceId := lit "device_unique_id" |} in
  @digestWorks Sample.platform SHA256 /\
  (forall key, @getFails Sample.platform key = false) /\
  (forall key, @setFails Sample.platform key = false) /\
  (forall key, @deleteFails Sample.platform key = false) /\
  default false (enableBiometric authConfig) = false /\
  default false (enable2FA authConfig) = false /\
  masterPassword authConfig <> [] /\
  exists w',
    @setupAuthentication Sample.platform Sample.biometrics authConfig
      Sample.emptyWorld = (Ok Success, w') /\
    @verifyMasterPassword Sample.platform Sample.masterPassword w' = (Ok true, w') /\
    @authenticateUser Sample.platform
      {| password := Some Sample.masterPassword; requestBiometric := None;
         twoFactorCode := None; recoveryCode := None |} w' =
    (Ok {| passwordValid := true; biometricValid := false;
           twoFactorValid := false; success := true; error := None |}, w').
Proof.
  intros authConfig.
  split; [apply sample_digestWorks|]. do 3 (split; [reflexivity|]).
  split; [reflexivity|]. split; [reflexivity|]. split; [discriminate|].
  destruct (@setupAuthentication_then_login Sample.platform Sample.biometrics
              authConfig Sample.emptyWorld (sample_digestWorks SHA256)
              (fun _ => eq_refl) (fun _ => eq_refl) (fun _ => eq_refl))
    as (w' & Hrun & _ & Hver & Hauth & _);
    [discriminate|reflexivity|discriminate|].
  exists w'. split; [exact Hrun|]. split; [exact Hver|exact Hauth].
Defined.

(** The setup of the sample password with the second factor. *)
Lemma setupAuthentication_with_second_factor_witness :
  let authConfig :=
    {| masterPassword := Sample.masterPassword; enableBiometric := Some false;
       enable2FA := Some true; authDeviceId := lit "device_unique_id" |} in
  @digestWorks Sample.platform SHA256 /\ @digestWorks Sample.platform SHA1 /\
  @upperCaseWorks Sample.platform /\
  (forall key, @getFails Sample.platform key = false) /\
  (forall key, @setFails Sample.platform key = false) /\
  (forall key, @deleteFails Sample.platform key = false) /\
  default false (enableBiometric authConfig) = false /\
  default false (enable2FA authConfig) = true /\
  authDeviceId authConfig = lit "device_unique_id" /\
  masterPassword authConfig <> [] /\
  exists r w',
    @setupAuthentication Sample.platform Sample.biometrics authConfig
      Sample.emptyWorld = (Ok (TwoFASetup r), w') /\
    List.length (recoveryCodes r) = 8%nat /\
    (forall code, code ∈ recoveryCodes r ->
       exists w'',
         @authenticateUser Sample.platform
           {| password := Some Sample.masterPassword; requestBiometric := None;
              twoFactorCode := None; recoveryCode := Some code |} w' =
         (Ok {| passwordValid := true; biometricValid := false;
                twoFactorValid := true; success := true; error := None |}, w'')).
Proof.
  intros authConfig.
  split; [apply sample_digestWorks|]. split; [apply sample_digestWorks|].
  split; [apply CryptoProperties.sample_upperCaseWorks|].
  do 3 (split; [reflexivity|]).
  do 3 (split; [reflexivity|]). split; [discriminate|].
  destruct (@setupAuthentication_with_second_factor Sample.platform
              Sample.biometrics authConfig Sample.emptyWorld
              (sample_digestWorks SHA256) (sample_digestWorks SHA1)
              CryptoProperties.sample_upperCaseWorks
              (fun _ => eq_refl) (fun _ => eq_refl) (fun _ => eq_refl)
              eq_refl eq_refl eq_refl)
    as (r & w' & Hrun & Hlen & _ & Hcodes); [discriminate|].
  exists r, w'. split; [exact Hrun|]. split; [exact Hlen|exact Hcodes].
Defined.

(** Biometrics asked for on the device without the hardware. *)
Lemma setupAuthentication_without_hardware_witness :
  let authConfig :=
    {| masterPassword := Sample.masterPassword; enableBiometric := Some true;
       enable2FA := Some true; authDeviceId := lit "device_unique_id" |} in
  @digestWorks Sample.platform SHA256 /\
  (forall key, @getFails Sample.platform key = false) /\
  (forall key, @setFails Sample.platform key = false) /\
  (forall key, @deleteFails Sample.platform key = false) /\
  default false (enableBiometric authConfig) = true /\
  @hasHardwareAsync Sample.noBiometrics = Ok false /\
  exists w',
    @setupAuthentication Sample.platform Sample.noBiometrics authConfig
      Sample.emptyWorld =
      (Throw ("Authentication setup failed: Biometric setup failed: "
              +:+ "Biometric hardware not available"), w') /\
    @verifyMasterPassword Sample.platform Sample.masterPassword w' = (Ok true, w') /\
    items w' !! "hasSetupPassword"%string = Some (Plain (lit "true")) /\
    items w' !! "biometricEnabled"%string = None /\
    items w' !! "twoFactorConfig"%string = None.
Proof.
  intros authConfig.
  split; [apply sample_digestWorks|]. do 3 (split; [reflexivity|]).
  split; [reflexivity|]. split; [reflexivity|].
  apply (@setupAuthentication_without_hardware Sample.platform Sample.noBiometrics
           authConfig Sample.emptyWorld (sample_digestWorks SHA256)
           (fun _ => eq_refl) (fun _ => eq_refl) (fun _ => eq_refl)
           eq_refl eq_refl).
Defined.

(** The wipe of the store in which the sample password and the second
    factor were set up. *)
Lemma emergencyWipe_keeps_credentials_witness :
  let w := Sample.afterSetup Sample.masterPassword in
  let w' := (@SecurityManager.emergencyWipe Sample.platform w).2 in
  (forall key, @getFails Sample.platform key = false) /\
  (forall key, @deleteFails Sample.platform key = false) /\
  @verifyMasterPassword Sample.platform Sample.masterPassword w = (Ok true, w) /\
  @verifyMasterPassword Sample.platform Sample.masterPassword w' = (Ok true, w') /\
  (@getAuthenticationSettings Sample.platform w').1 =
    Ok {| hasPassword := false; biometricEnabled := false;
          twoFactorEnabled := present (items w !! "twoFactorConfig"%string) |}.
Proof.
  intros w w'.
  destruct (sample_after_setup Sample.masterPassword) as (_ & Hver & _).
  split; [reflexivity|]. split; [reflexivity|]. split; [exact Hver|].
  destruct (@emergencyWipe_keeps_credentials Sample.platform Sample.masterPassword w
              (fun _ => eq_refl) (fun _ => eq_refl) Hver) as (Hafter & Hsettings & _).
  split; [exact Hafter|exact Hsettings].
Defined.

End AuthProperties.


(** ** SecurityManager: the session *)

Module SessionProperties.
Import JS Text SecureStore SecurityManager.

(** *** Decimal text of a number *)

Lemma decimalDigits_value (fuel : nat) :
  forall (n : Z) (acc : jsstring),
    0 <= n < 2 ^ Z.of_nat fuel -> (1 <= fuel)%nat ->
    exists ds,
      decimalDigits fuel n acc = ds ++ acc /\ ds <> [] /\
      Forall (fun u => 48 <= u <= 57) ds /\
      forall v, fold_left (fun v u => 10 * v + (u - 48)) ds v
                = v * 10 ^ Z.of_nat (length ds) + n.
Proof.
  induction fuel as [|fuel IH]; intros n acc Hn Hf; [lia|].
  cbn [decimalDigits].
  destruct (Z.eqb_spec (n / 10) 0) as [E|E].
  - exists [48 + n mod 10]. split; [reflexivity|]. split; [discriminate|].
    split; [repeat constructor; lia|]. intros v. cbn. lia.
  - assert (Hn' : 0 <= n / 10 < 2 ^ Z.of_nat fuel).
    { replace (Z.of_nat (S fuel)) with (Z.of_nat fuel + 1) in Hn by lia.
      rewrite Z.pow_add_r, Z.pow_1_r in Hn by lia.
      split; [lia|]. apply Z.div_lt_upper_bound; lia. }
    assert (Hf' : (1 <= fuel)%nat).
    { destruct fuel; [|lia]. change (2 ^ Z.of_nat 0) with 1 in Hn'. lia. }
    destruct (IH (n / 10) ((48 + n mod 10) :: acc) Hn' Hf')
      as (ds & -> & Hne & Hd & Hv).
    exists (ds ++ [48 + n mod 10]). split; [now rewrite <- app_assoc|].
    split; [now destruct ds|]. split.
    + apply Forall_app. split; [exact Hd|]. repeat constructor; lia.
    + intros v. rewrite fold_left_app, Hv. cbn [fold_left].
      rewrite length_app. cbn [length].
      replace (Z.of_nat (length ds + 1)) with (Z.of_nat (length ds) + 1) by lia.
      rewrite Z.pow_add_r, Z.pow_1_r by lia. lia.
Qed.

Lemma Number_toString_value (n : Z) :
  0 <= n ->
  Number_toString n <> [] /\
  Forall (fun u => 48 <= u <= 57) (Number_toString n) /\
  fold_left (fun v u => 10 * v + (u - 48)) (Number_toString n) 0 = n.
Proof.
  intros Hn. unfold Number_toString.
  destruct (decimalDigits_value (S (Z.to_nat (Z.log2 n))) n []) as (ds & -> & Hne & Hd & Hv).
  - split; [lia|].
    destruct (Z.eq_dec n 0) as [->|Hpos]; [reflexivity|].
    replace (Z.of_nat (S (Z.to_nat (Z.log2 n)))) with (Z.succ (Z.log2 n))
      by (pose proof (Z.log2_nonneg n); lia).
    apply Z.log2_spec. lia.
  - lia.
  - rewrite app_nil_r. split; [exact Hne|]. split; [exact Hd|].
    rewrite Hv. lia.
Qed.

Lemma digitsValue_digits (s : jsstring) :
  Forall (fun u => 48 <= u <= 57) s ->
  forall acc,
    digitsValue 10 s acc =
    match s with
    | [] => acc
    | _ => Some (fold_left (fun v u => 10 * v + (u - 48)) s (default 0 acc))
    end.
Proof.
  induction 1 as [|u s Hu Hs IH]; intros acc; [reflexivity|].
  cbn [digitsValue fold_left]. unfold digitOf, hexValue.
  assert (((48 <=? u) && (u <=? 57)) = true) as -> by lia.
  assert ((u - 48 <? 10) = true) as -> by lia.
  rewrite IH. destruct s; reflexivity.
Qed.

Lemma parseInt_digits (s : jsstring) :
  s <> [] -> Forall (fun u => 48 <= u <= 57) s ->
  parseInt s = Some (fold_left (fun v u => 10 * v + (u - 48)) s 0) /\
  parseInt (45 :: s) = Some (- fold_left (fun v u => 10 * v + (u - 48)) s 0).
Proof.
  intros Hne Hs. destruct s as [|u s]; [contradiction|].
  pose proof (digitsValue_digits _ Hs None) as Hd. cbn [default] in Hd.
  apply Forall_cons in Hs as [Hu Hrest].
  assert (Hx : forall x rest, s = x :: rest -> ((x =? 120) || (x =? 88)) = false).
  { intros x rest ->. apply Forall_cons in Hrest as [Hx _]. lia. }
  assert (Hws : isStrWhiteSpaceChar u = false) by (unfold isStrWhiteSpaceChar; lia).
  assert (H45 : isStrWhiteSpaceChar 45 = false) by reflexivity.
  unfold parseInt. cbn [trimStart]. rewrite Hws, H45.
  destruct u as [|p|p]; try lia.
  do 6 (destruct p as [p|p|]; try lia);
    (destruct s as [|x rest];
     cbn -[digitsValue fold_left Z.mul Z.opp Z.eqb];
     try rewrite (Hx x rest eq_refl);
     rewrite Hd; split; f_equal; lia).
Qed.

Lemma parseInt_Number_toString (n : Z) :
  parseInt (Number_toString_signed n) = Some n.
Proof.
  unfold Number_toString_signed. destruct (Z.ltb_spec n 0).
  - destruct (Number_toString_value (- n) ltac:(lia)) as (Hne & Hd & Hv).
    rewrite (proj2 (parseInt_digits _ Hne Hd)), Hv. f_equal. lia.
  - destruct (Number_toString_value n ltac:(lia)) as (Hne & Hd & Hv).
    now rewrite (proj1 (parseInt_digits _ Hne Hd)), Hv.
Qed.

Lemma resetSessionTimer_fields (b : App) :
  world (resetSessionTimer b) = world b /\
  sessionTimeout (resetSessionTimer b) = sessionTimeout b /\
  lastActivity (resetSessionTimer b) = clock (world b) /\
  isAppInBackground (resetSessionTimer b) = isAppInBackground b /\
  isAuthenticated (resetSessionTimer b) = isAuthenticated b /\
  exists handle,
    sessionTimer (resetSessionTimer b) = Some handle /\
    effects (resetSessionTimer b) =
      SetTimeout handle onSessionTimeout (sessionTimeout b)
        :: match sessionTimer b with
           | Some old => ClearTimeout old :: effects b
           | None => effects b
           end /\
    handle = S (length match sessionTimer b with
                       | Some old => ClearTimeout old :: effects b
                       | None => effects b
                       end).
Proof.
  unfold resetSessionTimer. destruct (sessionTimer b) as [old|];
    cbn; repeat split; eexists; repeat split.
Qed.

Section WithPlatform.
Context `{Platform}.

(** X25: [performSecureLogout] never throws, touches only the key
    currentSession and none of the static fields.  When the deletion
    succeeds, the session is absent afterwards and the navigation to the
    start screen is scheduled; when the deletion fails, nothing is scheduled
    and the store is as before.  A session that [createSession] stored in a
    store without one is removed again, which gives the store back as it
    was. *)
Theorem performSecureLogout_effect (a : App) :
  let a' := performSecureLogout a in
  (forall key : string,
     key <> "currentSession"%string ->
     items (world a') !! key = items (world a) !! key) /\
  (sessionTimer a' = sessionTimer a /\ sessionTimeout a' = sessionTimeout a /\
   lastActivity a' = lastActivity a /\ isAppInBackground a' = isAppInBackground a /\
   isAuthenticated a' = isAuthenticated a) /\
  (deleteFails "currentSession" = false ->
   items (world a') !! "currentSession"%string = None /\
   effects a' =
     SetTimeout (S (length (effects a))) (onReplace "/") (Some 0) :: effects a) /\
  (deleteFails "currentSession" = true ->
   items (world a') = items (world a) /\ effects a' = effects a) /\
  (forall (elapsed : Z) (w w1 : World)
          (session : AuthenticationManager.SessionData),
     AuthenticationManager.createSession elapsed w = (Ok session, w1) ->
     items w !! "currentSession"%string = None ->
     deleteFails "currentSession" = false ->
     items (world (performSecureLogout (withWorld a w1))) = items w).
Proof.
  unfold performSecureLogout, bind, clearSensitiveData, ret, deleteItemAsync.
  split; [|split; [|split; [|split]]].
  - intros key Hkey. destruct (deleteFails "currentSession"); [reflexivity|].
    cbn. apply lookup_delete_ne. congruence.
  - destruct (deleteFails "currentSession"); repeat split.
  - intros ->. split; [apply lookup_delete_eq|reflexivity].
  - intros ->. split; reflexivity.
  - intros elapsed w w1 session Hcreate Hnone ->. cbn.
    unfold AuthenticationManager.createSession, try_catch, bind,
      TOTPManager.Date_now, AuthenticationManager.passTime, CryptoUtils.generateSessionId,
      CryptoUtils.generateRandomString, CryptoUtils.generateRandomBytes,
      bind, ret, setItemAsync, throw in Hcreate.
    destruct (setFails "currentSession"); [discriminate|].
    injection Hcreate as _ <-. cbn [items setItems].
    rewrite delete_insert_eq. now apply delete_id.
Qed.

(** The text of a safe integer has at most 16 digits, after the sign. *)
Lemma Number_toString_signed_length (n : Z) :
  - 2 ^ 53 < n < 2 ^ 53 ->
  (length (Number_toString_signed n) <= 17)%nat.
Proof.
  intros Hn.
  assert (Hten : 2 ^ 53 < 10 ^ Z.of_nat 16) by (vm_compute; reflexivity).
  assert (Hlen : forall m, 0 <= m < 2 ^ 53 ->
                   (length (Number_toString m) <= 16)%nat).
  { intros m Hm. unfold Number_toString.
    pose proof (TOTPProperties.decimalDigits_length
                  (S (Z.to_nat (Z.log2 m))) m [] 16 ltac:(lia) ltac:(lia)) as Hd.
    cbn [length] in Hd. lia. }
  unfold Number_toString_signed. destruct (Z.ltb_spec n 0).
  - cbn [length]. specialize (Hlen (- n) ltac:(lia)). lia.
  - specialize (Hlen n ltac:(lia)). lia.
Qed.

(** X26: a session timeout that [setSessionTimeout] stored is the one that
    [loadSessionTimeout] reads back.  For a safe integer (one below 2^53 in
    magnitude, the range in which [Number_toString_signed] is the text that
    the language prints) and a store that accepts the entry,
    [setSessionTimeout] sets the field, stores the decimal text, which has
    at most 16 digits, and resets the session timer with
    the new timeout; [loadSessionTimeout], in any state of the application
    with that store, sets the field to the same number.  When the store
    refuses the entry, the field is changed all the same, but the timer is
    not reset and the store is as before. *)
Theorem setSessionTimeout_then_load (timeoutMs : Z) (a : App) :
  - 2 ^ 53 < timeoutMs < 2 ^ 53 ->
  let a1 := setSessionTimeout timeoutMs a in
  sessionTimeout a1 = Some timeoutMs /\
  (length (Number_toString_signed timeoutMs) <= 17)%nat /\
  (setFails "sessionTimeout" = false ->
   items (world a1) =
     <["sessionTimeout"%string := Plain (Number_toString_signed timeoutMs)]>
       (items (world a)) /\
   (exists handle,
      sessionTimer a1 = Some handle /\
      head (effects a1) = Some (SetTimeout handle onSessionTimeout (Some timeoutMs))) /\
   (getFails "sessionTimeout" = false ->
    forall a2, items (world a2) = items (world a1) ->
               sessionTimeout (loadSessionTimeout a2) = Some timeoutMs)) /\
  (setFails "sessionTimeout" = true ->
   items (world a1) = items (world a) /\ effects a1 = effects a /\
   sessionTimer a1 = sessionTimer a).
Proof.
  intros Hrange a1. unfold a1, setSessionTimeout, setItemAsync.
  cbn [world withSessionTimeout].
  split; [|split; [|split]].
  - destruct (setFails "sessionTimeout"); [reflexivity|].
    now rewrite (proj1 (proj2 (resetSessionTimer_fields _))).
  - apply Number_toString_signed_length, Hrange.
  - intros ->.
    match goal with
    | |- context [resetSessionTimer ?b] =>
        destruct (resetSessionTimer_fields b)
          as (Hw & Ht & _ & _ & _ & h & Hh & He & _)
    end.
    rewrite Hw, Hh, He. cbn [world items setItems withWorld sessionTimeout head].
    split; [reflexivity|]. split; [exists h; split; reflexivity|].
    intros Hget a2 Hitems. unfold loadSessionTimeout, getItemAsync.
    rewrite Hget, Hitems, lookup_insert_eq.
    assert (Hne : Number_toString_signed timeoutMs <> []).
    { intros E. pose proof (parseInt_Number_toString timeoutMs) as Hp.
      rewrite E in Hp. discriminate. }
    destruct (Number_toString_signed timeoutMs) as [|u s] eqn:E; [contradiction|].
    cbn [present text withSessionTimeout sessionTimeout].
    rewrite <- E. apply parseInt_Number_toString.
  - intros ->. repeat split.
Qed.

(** X27: the grace period after an authentication.  After
    [markAuthenticationCompleted], a return of the application to the
    foreground changes nothing, whatever the time and the store, as long as
    the callback that ends the grace period has not run.  Once it has run,
    a return to the foreground later than the session timeout after the
    authentication is a logout, and an earlier one asks for
    authentication. *)
Theorem authentication_grace_period (a : App) (w : World) :
  let a1 := withWorld (markAuthenticationCompleted a) w in
  let a2 := runCallback onGracePeriodEnd a1 in
  lastActivity a1 = clock (world a) /\
  handleAppForeground a1 = a1 /\
  (forall timeout,
     sessionTimeout a = Some timeout ->
     timeout < clock w - clock (world a) ->
     handleAppForeground a2 = performSecureLogout a2) /\
  (forall timeout,
     sessionTimeout a = Some timeout ->
     clock w - clock (world a) <= timeout ->
     handleAppForeground a2 = requireAuthentication a2).
Proof.
  intros a1 a2.
  assert (Hfields : isAuthenticated a1 = true /\ lastActivity a1 = clock (world a)
                    /\ sessionTimeout a1 = sessionTimeout a /\ world a1 = w).
  { unfold a1, markAuthenticationCompleted, resetSessionTimer.
    cbn. destruct (sessionTimer a); repeat split. }
  destruct Hfields as (Hauth & Hlast & Htimeout & Hworld).
  split; [exact Hlast|]. split.
  - unfold handleAppForeground. now rewrite Hauth.
  - assert (H2 : isAuthenticated a2 = false /\ lastActivity a2 = clock (world a)
                 /\ sessionTimeout a2 = sessionTimeout a /\ world a2 = w).
    { unfold a2. cbn. repeat split; assumption. }
    destruct H2 as (Hauth2 & Hlast2 & Htimeout2 & Hworld2).
    split; intros timeout Ht Hlate; unfold handleAppForeground;
      rewrite Hauth2, Htimeout2, Ht, Hlast2, Hworld2.
    + now rewrite (proj2 (Z.ltb_lt _ _) Hlate).
    + now rewrite (proj2 (Z.ltb_ge _ _) Hlate).
Qed.


(** X29: [getAuthenticationSettings] of [SecurityManager] fails closed and
    reads the second factor from a key of its own.  It never throws and
    leaves the world as it is; it says that authentication is not required
    only if the three reads succeeded and the entry hasSetupPassword is not
    the text true; and it reports the second factor from the key
    twoFactorEnabled, so that for a store that holds a configuration of the
    second factor and no such key it says that the second factor is off
    where [AuthenticationManager.getAuthenticationSettings] says that it is
    on. *)
Theorem getAuthenticationSettings_fails_closed (w : World) :
  exists settings,
    getAuthenticationSettings w = (Ok settings, w) /\
    (requiresAuth settings = false ->
     getFails "biometricEnabled" = false /\ getFails "twoFactorEnabled" = false /\
     getFails "hasSetupPassword" = false /\
     items w !! "hasSetupPassword"%string <> Some (Plain (lit "true"))) /\
    (forall c,
       items w !! "twoFactorConfig"%string = Some (ConfigJSON c) ->
       items w !! "twoFactorEnabled"%string = None ->
       (forall key, getFails key = false) ->
       twoFactorEnabled settings = false /\
       exists settings',
         AuthenticationManager.getAuthenticationSettings w = (Ok settings', w) /\
         AuthenticationManager.twoFactorEnabled settings' = true).
Proof.
  unfold getAuthenticationSettings, try_catch, bind, getItemAsync, ret.
  destruct (getFails "biometricEnabled") eqn:E1;
    [eexists; split; [reflexivity|];
     split; [discriminate|intros c _ _ Hget; rewrite Hget in E1; discriminate]|].
  destruct (getFails "twoFactorEnabled") eqn:E2;
    [eexists; split; [reflexivity|];
     split; [discriminate|intros c _ _ Hget; rewrite Hget in E2; discriminate]|].
  destruct (getFails "hasSetupPassword") eqn:E3;
    [eexists; split; [reflexivity|];
     split; [discriminate|intros c _ _ Hget; rewrite Hget in E3; discriminate]|].
  eexists. split; [reflexivity|]. cbn [requiresAuth twoFactorEnabled]. split.
  - intros Hreq. repeat split. intros Hitem. rewrite Hitem in Hreq.
    cbn in Hreq. now rewrite bool_decide_eq_true_2 in Hreq.
  - intros c Hconfig Hnone Hget. rewrite Hnone. split; [reflexivity|].
    rewrite AuthFacts.getAuthenticationSettings_run, !Hget, Hconfig.
    eexists. split; reflexivity.
Qed.

(** *** The session timer *)

Lemma setTimeout_other (callback : Callback) (delay : option Z) (a : App) :
  callback <> onSessionTimeout ->
  sessionTimer (setTimeout callback delay a).2 = sessionTimer a /\
  liveSessionTimers (effects (setTimeout callback delay a).2)
    = liveSessionTimers (effects a).
Proof. intros Hc. split; [reflexivity|]. cbn. now destruct callback. Qed.

Lemma withWorld_timers (a : App) (w : World) :
  sessionTimer (withWorld a w) = sessionTimer a /\
  liveSessionTimers (effects (withWorld a w)) = liveSessionTimers (effects a).
Proof. split; reflexivity. Qed.

Lemma loadSessionTimeout_timers (a : App) :
  sessionTimer (loadSessionTimeout a) = sessionTimer a /\
  liveSessionTimers (effects (loadSessionTimeout a)) = liveSessionTimers (effects a).
Proof.
  unfold loadSessionTimeout.
  destruct (getItemAsync "sessionTimeout" (world a)) as [[[v|]|e] w];
    try (split; reflexivity).
  destruct (present (Some v)); split; reflexivity.
Qed.

Lemma performSecureLogout_timers (a : App) :
  sessionTimer (performSecureLogout a) = sessionTimer a /\
  liveSessionTimers (effects (performSecureLogout a)) = liveSessionTimers (effects a).
Proof.
  unfold performSecureLogout, bind, clearSensitiveData, ret, deleteItemAsync.
  destruct (deleteFails "currentSession"); split; reflexivity.
Qed.

Lemma handleSessionTimeout_timers (a : App) :
  sessionTimer (handleSessionTimeout a) = sessionTimer a /\
  liveSessionTimers (effects (handleSessionTimeout a)) = liveSessionTimers (effects a).
Proof.
  unfold handleSessionTimeout. destruct (isAppInBackground a); split; reflexivity.
Qed.

Lemma requireAuthentication_timers (a : App) :
  sessionTimer (requireAuthentication a) = sessionTimer a /\
  liveSessionTimers (effects (requireAuthentication a)) = liveSessionTimers (effects a).
Proof.
  unfold requireAuthentication.
  destruct (getAuthenticationSettings (world a)) as [[settings|e] w];
    [destruct (requiresAuth settings)|]; split; reflexivity.
Qed.

Lemma handleAppForeground_timers (a : App) :
  sessionTimer (handleAppForeground a) = sessionTimer a /\
  liveSessionTimers (effects (handleAppForeground a)) = liveSessionTimers (effects a).
Proof.
  unfold handleAppForeground. destruct (isAuthenticated a); [split; reflexivity|].
  destruct (match sessionTimeout a with Some _ => _ | None => _ end);
    [apply performSecureLogout_timers|apply requireAuthentication_timers].
Qed.

Lemma resetSessionTimer_timers (a : App) :
  liveSessionTimers (effects a) =
    match sessionTimer a with Some handle => [handle] | None => [] end ->
  liveSessionTimers (effects (resetSessionTimer a)) =
    match sessionTimer (resetSessionTimer a) with
    | Some handle => [handle]
    | None => []
    end.
Proof.
  intros Hinv.
  destruct (resetSessionTimer_fields a) as (_ & _ & _ & _ & _ & h & -> & -> & _).
  cbn [liveSessionTimers]. f_equal.
  destruct (sessionTimer a) as [old|]; [|exact Hinv].
  cbn [liveSessionTimers]. rewrite Hinv. cbn.
  destruct (decide (old <> old)) as [Hne|_]; [contradiction|reflexivity].
Qed.

(** X30: at most one session timer is pending.  After any sequence of calls
    of the session functions, of timers that fire and of changes of the
    world, starting from the application as it is loaded, the session
    timers that have been set and not cleared are none, or the single one
    whose handle the field [sessionTimer] holds. *)
Theorem one_session_timer (w : World) (operations : list Operation) :
  let a := fold_left perform operations (initial w) in
  liveSessionTimers (effects a) =
    match sessionTimer a with Some handle => [handle] | None => [] end.
Proof.
  cbn zeta.
  assert (Hstep : forall a operation,
    liveSessionTimers (effects a) =
      match sessionTimer a with Some handle => [handle] | None => [] end ->
    liveSessionTimers (effects (perform a operation)) =
      match sessionTimer (perform a operation) with
      | Some handle => [handle]
      | None => []
      end).
  { assert (Hsame : forall a a' : App,
      sessionTimer a' = sessionTimer a /\
      liveSessionTimers (effects a') = liveSessionTimers (effects a) ->
      liveSessionTimers (effects a) =
        match sessionTimer a with Some handle => [handle] | None => [] end ->
      liveSessionTimers (effects a') =
        match sessionTimer a' with Some handle => [handle] | None => [] end).
    { intros a a' [-> ->] Hinv. exact Hinv. }
    intros a operation Hinv.
    destruct operation as [| | | | | | | | |next|timeoutMs|callback|w']; cbn [perform].
    - exact (Hsame _ _ (loadSessionTimeout_timers a) Hinv).
    - now apply resetSessionTimer_timers.
    - now apply resetSessionTimer_timers.
    - unfold setupSessionManagement, trackUserActivity.
      apply (Hsame _ _ (loadSessionTimeout_timers _)).
      now do 2 apply resetSessionTimer_timers.
    - exact (Hsame _ _ (performSecureLogout_timers a) Hinv).
    - exact (Hsame _ _ (handleSessionTimeout_timers a) Hinv).
    - apply (Hsame a); [|exact Hinv]. now apply setTimeout_other.
    - unfold markAuthenticationCompleted.
      eapply Hsame; [apply setTimeout_other; discriminate|].
      apply resetSessionTimer_timers. exact Hinv.
    - exact (Hsame _ _ (requireAuthentication_timers a) Hinv).
    - unfold appStateChange.
      destruct (String.eqb next "background" || String.eqb next "inactive").
      + exact Hinv.
      + destruct (String.eqb next "active"); [|exact Hinv].
        eapply Hsame; [apply handleAppForeground_timers|]. exact Hinv.
    - unfold setSessionTimeout, setItemAsync.
      destruct (setFails "sessionTimeout"); [exact Hinv|].
      apply resetSessionTimer_timers. exact Hinv.
    - destruct callback; cbn [runCallback].
      + exact (Hsame _ _ (handleSessionTimeout_timers a) Hinv).
      + exact Hinv.
      + exact (Hsame _ _ (performSecureLogout_timers a) Hinv).
      + exact Hinv.
    - exact Hinv. }
  induction operations as [|operation operations IH] using rev_ind.
  - reflexivity.
  - rewrite fold_left_app. cbn [fold_left]. now apply Hstep.
Qed.

End WithPlatform.

(** Five minutes, set in the application as it is loaded. *)
Lemma setSessionTimeout_then_load_witness :
  let a := initial Sample.emptyWorld in
  let a1 := @setSessionTimeout Sample.platform 300000 a in
  - 2 ^ 53 < 300000 < 2 ^ 53 /\
  sessionTimeout a1 = Some 300000 /\
  items (world a1) !! "sessionTimeout"%string = Some (Plain (lit "300000")) /\
  sessionTimeout
    (@loadSessionTimeout Sample.platform (initial (world a1))) = Some 300000.
Proof.
  intros a a1.
  destruct (@setSessionTimeout_then_load Sample.platform 300000 a ltac:(lia))
    as (Hfield & _ & Hstored & _).
  destruct (Hstored eq_refl) as (Hitems & _ & Hload).
  split; [lia|]. split; [exact Hfield|]. split.
  - fold a1 in Hitems. rewrite Hitems. apply lookup_insert_eq.
  - apply (Hload eq_refl). reflexivity.
Defined.


End SessionProperties.


(** ** Examples *)

Module Examples.
Import JS Text.

Example encode_euro_sign : TextEncoder_encode [0x20AC] = [0xE2; 0x82; 0xAC].
Proof. reflexivity. Qed.

Example encode_surrogate_pair :
  TextEncoder_encode [0xD83D; 0xDD10] = [0xF0; 0x9F; 0x94; 0x90].
Proof. reflexivity. Qed.

Example encode_lone_surrogate :
  TextEncoder_encode [97; 0xDC00; 98] = [97; 0xEF; 0xBF; 0xBD; 98].
Proof. reflexivity. Qed.

Example decode_overlong : TextDecoder_decode [0xC0; 0x80] = [0xFFFD; 0xFFFD].
Proof. reflexivity. Qed.

Example decode_truncated : TextDecoder_decode [97; 0xE2; 0x82] = [97; 0xFFFD].
Proof. reflexivity. Qed.

Example decode_encoded_surrogate :
  TextDecoder_decode [0xED; 0xA0; 0x80] = [0xFFFD; 0xFFFD; 0xFFFD].
Proof. reflexivity. Qed.

Example decode_byte_order_mark :
  TextDecoder_decode [0xEF; 0xBB; 0xBF; 97] = [97].
Proof. reflexivity. Qed.

Example decode_inner_byte_order_mark :
  TextDecoder_decode [97; 0xEF; 0xBB; 0xBF] = [97; 0xFEFF].
Proof. reflexivity. Qed.

Example toString_zero : Number_toString 0 = lit "0".
Proof. reflexivity. Qed.

Example toString_code : Number_toString 1234567 = lit "1234567".
Proof. reflexivity. Qed.

Example padStart_code : padStart0 6 (lit "42") = lit "000042".
Proof. reflexivity. Qed.

Example toHex2_bytes : flat_map toHex2 [0; 10; 255] = lit "000aff".
Proof. reflexivity. Qed.

Example matchPairs_odd :
  matchPairs (lit "0aff1") = [(48, 97); (102, 102)].
Proof. reflexivity. Qed.

Example xorBytes_short_key :
  CryptoUtils.xorBytes [1; 2; 3; 4] [255; 0] = [254; 2; 252; 4].
Proof. reflexivity. Qed.

Example xorBytes_no_key : CryptoUtils.xorBytes [1; 2; 3] [] = [1; 2; 3].
Proof. reflexivity. Qed.

Example slice0_beyond : CryptoUtils.slice0 [1; 2; 3] 64 = [1; 2; 3].
Proof. reflexivity. Qed.

Example base32Decode_sample :
  @TOTPManager.base32Decode Sample.platform (lit "JBSWY3DPEHPK3PXP") =
  [72; 101; 108; 108; 111; 33; 222; 173; 190; 239].
Proof. reflexivity. Qed.

Example timeBuffer_one : TOTPManager.timeBuffer 1 = [0; 0; 0; 0; 0; 0; 0; 1].
Proof. reflexivity. Qed.

Example timeBuffer_wraps :
  TOTPManager.timeBuffer (-1) = [0; 0; 0; 0; 255; 255; 255; 255].
Proof. reflexivity. Qed.

Example constantTimeCompare_prefix :
  TOTPManager.constantTimeCompare (lit "12345") (lit "123456") = false.
Proof. reflexivity. Qed.

Example stringify_two_codes :
  JSON.stringify [lit "AB"; lit "C"] = [91; 34; 65; 66; 34; 44; 34; 67; 34; 93].
Proof. reflexivity. Qed.

Example stringify_escapes :
  JSON.stringify [[10; 0xD800; 34]] =
  [91; 34] ++ lit "\n" ++ lit "\ud800" ++ [92; 34; 34; 93].
Proof. reflexivity. Qed.

Example parse_with_spaces_and_escape :
  JSON.parse ([32; 91; 32; 34] ++ lit "\u0041" ++ [34; 32; 93; 10]) = Some [[65]].
Proof. reflexivity. Qed.

Example parse_recovery_code : JSON.parse (lit "ABCD1234") = None.
Proof. reflexivity. Qed.

Example parse_number : JSON.parse (lit "12345678") = None.
Proof. reflexivity. Qed.

Example indexOf_first :
  AuthenticationManager.indexOf [lit "A"; lit "B"; lit "A"] (lit "A") = Some 0%nat.
Proof. reflexivity. Qed.

Example required_methods :
  AuthenticationManager.getRequiredAuthMethods
    {| AuthenticationManager.hasPassword := true;
       AuthenticationManager.biometricEnabled := false;
       AuthenticationManager.twoFactorEnabled := true |} =
  ["password"; "twoFactor"]%string.
Proof. reflexivity. Qed.

Example wipe_sample :
  items (@SecurityManager.emergencyWipe Sample.platform
           {| items := {["hasSetupPassword"%string := Plain (lit "true");
                         "masterPasswordHash"%string := Plain (lit "00ff")]};
              clock := 0; draws := 0 |}).2 =
  {["masterPasswordHash"%string := Plain (lit "00ff")]}.
Proof. apply map_eq. intros key. rewrite WipeFacts.emergencyWipe_run.
  cbn [snd items SecureStore.setItems]. rewrite WipeFacts.lookup_remaining.
  destruct (decide (key = "hasSetupPassword"%string)) as [->|Hn1]; [reflexivity|].
  destruct (decide (key = "masterPasswordHash"%string)) as [->|Hn2]; [reflexivity|].
  cbn [deleteFails Sample.platform negb]. rewrite andb_true_r.
  rewrite lookup_insert_ne, lookup_singleton_ne by congruence.
  now destruct (bool_decide _).
Qed.

End Examples.
